(** * AHTxx: the measurement transaction of the AHT1x/AHT2x driver

    A shallow embedding of [src/AHTxx.cpp].  The session object
    ([_address], [_sensorType], [_status], [_rawData]) is threaded
    explicitly; the Arduino environment ([Wire] and [delay]) is an
    interface whose calls are recorded, with their answers, in a trace;
    [float] is IEEE-754 binary32 as specified by [SpecFloat]. *)

From Stdlib Require Import ZArith List Bool QArith Qabs Qpower Lia Lqa SpecFloat.
From stdpp Require Import base list list_numbers.

Local Open Scope Z_scope.

(** ** Machine integers *)

Definition uint8 (x : Z) : Z := x mod 2 ^ 8.
Definition uint32 (x : Z) : Z := x mod 2 ^ 32.

Definition is_uint8 (x : Z) : Prop := 0 <= x < 2 ^ 8.

(** ** Declarations of AHTxx.h

    The header is not among the sources.  The values below are the ones
    the comments of AHTxx.cpp document: the status codes at [getStatus],
    [0xFF=I2C error] at [_getCalibration], [0x08=loaded] and [0x80=busy]
    at [_getCalibration] and [_getBusy]. *)

Definition AHTXX_NO_ERROR : Z := 0x00.
Definition AHTXX_BUSY_ERROR : Z := 0x01.
Definition AHTXX_ACK_ERROR : Z := 0x02.
Definition AHTXX_DATA_ERROR : Z := 0x03.
Definition AHTXX_CRC8_ERROR : Z := 0x04.
Definition AHTXX_ERROR : Z := 0xFF.

Definition AHTXX_STATUS_CTRL_CAL_ON : Z := 0x08.
Definition AHTXX_STATUS_CTRL_BUSY : Z := 0x80.

(** Modelled from the spec: the two values of the accessors' flag, which
    AHTxx.h defines; the accessors run the measurement transaction first
    "when the caller asks for a forced refresh, otherwise operating on the
    last buffered frame". *)
Definition AHTXX_FORCE_READ_DATA : bool := true.
Definition AHTXX_USE_READ_DATA : bool := false.

Inductive AHTXX_I2C_SENSOR := AHT1x_SENSOR | AHT2x_SENSOR.

Global Instance AHTXX_I2C_SENSOR_eq_dec : EqDecision AHTXX_I2C_SENSOR.
Proof. solve_decision. Defined.

(** Command bytes and delays of AHTxx.h that the source file nowhere
    documents: they stay parameters of the development. *)
Class Header := {
  AHTXX_START_MEASUREMENT_REG : Z;
  AHTXX_START_MEASUREMENT_CTRL : Z;
  AHTXX_START_MEASUREMENT_CTRL_NOP : Z;
  AHT1X_INIT_REG : Z;
  AHT2X_INIT_REG : Z;
  AHTXX_INIT_CTRL_NOP : Z;
  AHTXX_INIT_CTRL_CAL_ON : Z;
  AHT1X_INIT_CTRL_NORMAL_MODE : Z;
  AHT1X_INIT_CTRL_CYCLE_MODE : Z;
  AHT1X_INIT_CTRL_CMD_MODE : Z;
  AHTXX_STATUS_REG : Z;
  AHTXX_SOFT_RESET_REG : Z;
  AHTXX_CMD_DELAY : Z;
  AHTXX_MEASUREMENT_DELAY : Z;
  AHTXX_SOFT_RESET_DELAY : Z
}.

(** ** The session object *)

Record AHTxx := {
  _address : Z;
  _sensorType : AHTXX_I2C_SENSOR;
  _status : Z;
  _rawData : list Z
}.

Definition with_status (v : Z) (this : AHTxx) : AHTxx :=
  {| _address := _address this; _sensorType := _sensorType this;
     _status := v; _rawData := _rawData this |}.

Definition with_sensorType (t : AHTXX_I2C_SENSOR) (this : AHTxx) : AHTxx :=
  {| _address := _address this; _sensorType := t;
     _status := _status this; _rawData := _rawData this |}.

(** [_rawData[i] = v]; the array has seven cells and the code never
    indexes past them. *)
Definition with_rawData (i : Z) (v : Z) (this : AHTxx) : AHTxx :=
  {| _address := _address this; _sensorType := _sensorType this;
     _status := _status this;
     _rawData := <[Z.to_nat i := uint8 v]> (_rawData this) |}.

Definition rawData_at (this : AHTxx) (i : Z) : Z := _rawData this !!! Z.to_nat i.

(** A session as C++ can hold it: [uint8_t _rawData[7]]. *)
Definition wf (this : AHTxx) : Prop :=
  length (_rawData this) = 7%nat ∧ Forall is_uint8 (_rawData this).

(** ** IEEE-754 binary32 *)

Definition prec32 : Z := 24.
Definition emax32 : Z := 128.

Definition float := spec_float.

(** Conversion of an integer to [float] (exact up to 2^24). *)
Definition float_of_int (n : Z) : float := binary_normalize prec32 emax32 n 0 false.
Definition fmul : float → float → float := SFmul prec32 emax32.
Definition fdiv : float → float → float := SFdiv prec32 emax32.
Definition fsub : float → float → float := SFsub prec32 emax32.

(** The rational a finite [float] denotes. *)
Definition float_val (x : float) : Q :=
  match x with
  | S754_finite s m e =>
      let v := (inject_Z (Z.pos m) * (2 ^ e))%Q in if s then (- v)%Q else v
  | _ => 0%Q
  end.

Definition is_finite (x : float) : bool :=
  match x with
  | S754_zero _ | S754_finite _ _ _ => true
  | _ => false
  end.

(** ** Rounding to 24 binary digits *)

(** [m / 2^n], rounded to the nearest integer, ties to even. *)
Definition rne (m n : Z) : Z :=
  let q := m / 2 ^ n in
  let rem := m mod 2 ^ n in
  match 2 * rem ?= 2 ^ n with
  | Lt => q
  | Gt => q + 1
  | Eq => if Z.even q then q else q + 1
  end.

(** After [k] steps of [shr_1] from [(m, false, false)]. *)
Definition shifted (m k : Z) (mrs : shr_record) : Prop :=
  shr_m mrs = m / 2 ^ k ∧
  (shr_r mrs = true ↔ 2 ^ k ≤ 2 * (m mod 2 ^ k)) ∧
  (shr_s mrs = true ↔ m mod 2 ^ k ≠ 0 ∧ 2 * (m mod 2 ^ k) ≠ 2 ^ k).

(** The 24-digit mantissa of the integer [h], and its exponent. *)
Definition mantissa (h : Z) : Z := h * 2 ^ (24 - Zdigits2 h).
Definition exponent (h : Z) : Z := Zdigits2 h - 24.

Definition sgn (s : bool) : Z := if s then -1 else 1.

(** [2^60] times the value of a float whose exponent is at least [-60]. *)
Definition scaled (x : float) : Z :=
  match x with
  | S754_finite s m e => sgn s * (Z.pos m * 2 ^ (e + 60))
  | _ => 0
  end.

(** Finite, and fine enough for [scaled]. *)
Definition in_range (x : float) : Prop :=
  match x with
  | S754_zero _ => True
  | S754_finite _ _ e => -60 ≤ e ≤ 104
  | _ => False
  end.

(** [V] is [T] rounded to 24 significant binary digits. *)
Definition rounds_to (T V : Z) : Prop :=
  2 ^ 24 * Z.abs (V - T) ≤ T ∧
  ∀ J c : Z,
    24 ≤ J → T < 2 ^ J →
    (T ≤ c * 2 ^ (J - 24) → V ≤ c * 2 ^ (J - 24)) ∧
    (c * 2 ^ (J - 24) ≤ T → c * 2 ^ (J - 24) ≤ V).


(** ** The Arduino environment: [Wire] and [delay] *)

Class Arduino (W : Type) := {
  bus_begin : Z → W → W;
  bus_write : Z → W → W;
  bus_end : bool → W → Z * W;
  bus_request : Z → Z → bool → W → W;
  bus_available : W → Z * W;
  bus_read : W → Z * W;
  clock_delay : Z → W → W
}.

(** What the driver did to its environment, and what it was answered. *)
Inductive event :=
| EvBegin (address : Z)
| EvWrite (data : Z)
| EvEnd (sendStop : bool) (result : Z)
| EvRequest (address quantity : Z) (sendStop : bool)
| EvAvailable (result : Z)
| EvRead (result : Z)
| EvDelay (ms : Z).

Global Instance event_eq_dec : EqDecision event.
Proof. solve_decision. Defined.

Definition is_bus_read (e : event) : bool :=
  match e with
  | EvRequest _ _ _ | EvAvailable _ | EvRead _ => true
  | _ => false
  end.

Definition is_delay (e : event) : bool :=
  match e with EvDelay _ => true | _ => false end.

(** ** Commands

    A C++ member function body is a command: it runs on the session and
    the environment, and either falls through with a value ([Next]) or
    leaves the function with [return] ([Return]). *)

Inductive flow (R A : Type) :=
| Next (a : A)
| Return (r : R).
Arguments Next {R A} a.
Arguments Return {R A} r.

Record run (W R A : Type) := Run {
  flow_of : flow R A;
  this_of : AHTxx;
  bus_of : W;
  trace_of : list event
}.
Arguments Run {W R A}.
Arguments flow_of {W R A}.
Arguments this_of {W R A}.
Arguments bus_of {W R A}.
Arguments trace_of {W R A}.

Definition cmd (W R A : Type) : Type := AHTxx → W → run W R A.

Definition cmd_ret {W R A} (a : A) : cmd W R A :=
  λ this w, Run (Next a) this w [].

(** [after t r]: the run [r], preceded by the events [t]. *)
Definition after {W R A} (t : list event) (r : run W R A) : run W R A :=
  Run (flow_of r) (this_of r) (bus_of r) (t ++ trace_of r).

Definition cmd_bind {W R A B} (k : A → cmd W R B) (c : cmd W R A) : cmd W R B :=
  λ this w,
    let r := c this w in
    match flow_of r with
    | Next a => after (trace_of r) (k a (this_of r) (bus_of r))
    | Return v => Run (Return v) (this_of r) (bus_of r) (trace_of r)
    end.

Global Instance cmd_mret W R : MRet (cmd W R) := @cmd_ret W R.
Global Instance cmd_mbind W R : MBind (cmd W R) := @cmd_bind W R.

(** [return v;] *)
Definition return_ {W R A} (v : R) : cmd W R A :=
  λ this w, Run (Return v) this w [].

(** A call: the callee's [return] ends the callee only. *)
Definition result {R} (f : flow R R) : R :=
  match f with Next v => v | Return v => v end.

Definition call {W R R'} (body : cmd W R R) : cmd W R' R :=
  λ this w,
    let r := body this w in
    Run (Next (result (flow_of r))) (this_of r) (bus_of r) (trace_of r).

Definition skip {W R} : cmd W R unit := cmd_ret tt.

(** Reading and writing the members of [this]. *)
Definition get {W R A} (f : AHTxx → A) : cmd W R A :=
  λ this w, Run (Next (f this)) this w [].

Definition set_status {W R} (v : Z) : cmd W R unit :=
  λ this w, Run (Next tt) (with_status v this) w [].

Definition set_sensorType {W R} (t : AHTXX_I2C_SENSOR) : cmd W R unit :=
  λ this w, Run (Next tt) (with_sensorType t this) w [].

Definition set_rawData {W R} (i v : Z) : cmd W R unit :=
  λ this w, Run (Next tt) (with_rawData i v this) w [].

(** [for (uint8_t i = lo; i < hi; i++) body] *)
Fixpoint for_each {W R} (l : list Z) (body : Z → cmd W R unit) : cmd W R unit :=
  match l with
  | [] => skip
  | i :: l' => body i ;; for_each l' body
  end.

Definition for_range {W R} (lo hi : Z) (body : Z → cmd W R unit) : cmd W R unit :=
  for_each (seqZ lo (hi - lo)) body.

Section Environment.
Context {W : Type} {env : Arduino W} {R : Type}.

Definition Wire_beginTransmission (address : Z) : cmd W R unit :=
  λ this w, Run (Next tt) this (bus_begin address w) [EvBegin address].

Definition Wire_write (data : Z) : cmd W R unit :=
  λ this w, Run (Next tt) this (bus_write data w) [EvWrite data].

Definition Wire_endTransmission (sendStop : bool) : cmd W R Z :=
  λ this w,
    let answer := bus_end sendStop w in
    Run (Next answer.1) this answer.2 [EvEnd sendStop answer.1].

Definition Wire_requestFrom (address quantity : Z) (sendStop : bool) : cmd W R unit :=
  λ this w,
    Run (Next tt) this (bus_request address quantity sendStop w)
        [EvRequest address quantity sendStop].

Definition Wire_available : cmd W R Z :=
  λ this w,
    let answer := bus_available w in
    Run (Next answer.1) this answer.2 [EvAvailable answer.1].

Definition Wire_read : cmd W R Z :=
  λ this w,
    let answer := bus_read w in
    Run (Next answer.1) this answer.2 [EvRead answer.1].

Definition delay (ms : Z) : cmd W R unit :=
  λ this w, Run (Next tt) this (clock_delay ms w) [EvDelay ms].
End Environment.

(** ** Field extraction: the arithmetic of [readHumidity] and [readTemperature] *)

(** The local [uint32_t humidity] after its five assignments. *)
Definition humidity_bits (this : AHTxx) : Z :=
  let humidity := rawData_at this 1 in
  let humidity := uint32 (Z.shiftl humidity 8) in
  let humidity := Z.lor humidity (rawData_at this 2) in
  let humidity := uint32 (Z.shiftl humidity 4) in
  let humidity := Z.lor humidity (Z.shiftr (rawData_at this 3) 4) in
  humidity.

(** The local [uint32_t temperature] after its five assignments. *)
Definition temperature_bits (this : AHTxx) : Z :=
  let temperature := Z.land (rawData_at this 3) 0x0F in
  let temperature := uint32 (Z.shiftl temperature 8) in
  let temperature := Z.lor temperature (rawData_at this 4) in
  let temperature := uint32 (Z.shiftl temperature 8) in
  let temperature := Z.lor temperature (rawData_at this 5) in
  temperature.

(** [((float)humidity / 0x100000) * 100] *)
Definition humidity_float (humidity : Z) : float :=
  fmul (fdiv (float_of_int humidity) (float_of_int 0x100000)) (float_of_int 100).

(** [((float)temperature / 0x100000) * 200 - 50] *)
Definition temperature_float (temperature : Z) : float :=
  fsub (fmul (fdiv (float_of_int temperature) (float_of_int 0x100000)) (float_of_int 200))
       (float_of_int 50).

(** ** [_checkCRC8] *)

(** One turn of the inner loop. *)
Definition crc_shift (crc : Z) : Z :=
  if bool_decide (Z.land crc 0x80 ≠ 0)
  then uint8 (Z.lxor (Z.shiftl crc 1) 0x31)
  else uint8 (Z.shiftl crc 1).

(** [for (uint8_t bitIndex = 8; bitIndex > 0; --bitIndex)] *)
Definition crc_bits (crc : Z) : Z :=
  foldl (λ crc _, crc_shift crc) crc (reverse (seqZ 1 8)).

(** [for (uint8_t byteIndex = 0; byteIndex < 6; byteIndex++)] *)
Definition crc_bytes (this : AHTxx) : Z :=
  foldl (λ crc byteIndex, crc_bits (uint8 (Z.lxor crc (rawData_at this byteIndex))))
        0xFF (seqZ 0 6).

Definition _checkCRC8 (this : AHTxx) : bool :=
  if decide (_sensorType this = AHT2x_SENSOR)
  then bool_decide (crc_bytes this = rawData_at this 6)
  else true.

(** [dataSize] of [_readMeasurement]: {status, RH, RH, RH+T, T, T, CRC*},
    CRC for AHT2x only. *)
Definition frame_length (sensorType : AHTXX_I2C_SENSOR) : Z :=
  if decide (sensorType = AHT1x_SENSOR) then 6 else 7.

(** [(b & AHTXX_STATUS_CTRL_BUSY) == AHTXX_STATUS_CTRL_BUSY] *)
Definition busy (b : Z) : bool :=
  bool_decide (Z.land b AHTXX_STATUS_CTRL_BUSY = AHTXX_STATUS_CTRL_BUSY).

(** The status [_getBusy] derives from the status byte [b]. *)
Definition busy_status (b : Z) : Z :=
  if busy b then AHTXX_BUSY_ERROR else AHTXX_NO_ERROR.

(** ** The driver *)

Section Driver.
Context {hdr : Header} {W : Type} {env : Arduino W}.

(** The constructor; [mem] is what the storage of [_rawData], which the
    constructor does not initialise, happens to hold. *)
Definition AHTxx_new (address : Z) (sensorType : AHTXX_I2C_SENSOR) (mem : list Z) : AHTxx :=
  {| _address := uint8 address; _sensorType := sensorType;
     _status := AHTXX_NO_ERROR; _rawData := mem |}.

Definition _getBusy {R} (readAHT : bool) : cmd W R Z :=
  call (
    (if bool_decide (readAHT = AHTXX_FORCE_READ_DATA) then
       delay AHTXX_CMD_DELAY ;;
       address ← get _address;
       Wire_requestFrom address 1 true ;;
       n ← Wire_available;
       (if bool_decide (n ≠ 1) then return_ AHTXX_DATA_ERROR else skip) ;;
       b ← Wire_read;
       set_rawData 0 b
     else skip) ;;
    b0 ← get (λ this, rawData_at this 0);
    (if busy b0
     then set_status AHTXX_BUSY_ERROR   (* 0x80=busy *)
     else set_status AHTXX_NO_ERROR) ;; (* 0x00=measurement completed *)
    get _status).

Definition _readMeasurement {R} : cmd W R unit :=
  call (
    (* send measurement command *)
    address ← get _address;
    Wire_beginTransmission address ;;
    Wire_write AHTXX_START_MEASUREMENT_REG ;;
    Wire_write AHTXX_START_MEASUREMENT_CTRL ;;
    Wire_write AHTXX_START_MEASUREMENT_CTRL_NOP ;;
    rc ← Wire_endTransmission true;
    (if bool_decide (rc ≠ 0) then
       set_status AHTXX_ACK_ERROR ;; return_ tt
     else skip) ;;
    (* check busy bit *)
    st ← _getBusy AHTXX_FORCE_READ_DATA;
    set_status st ;;
    st ← get _status;
    (if bool_decide (st = AHTXX_BUSY_ERROR) then
       delay (AHTXX_MEASUREMENT_DELAY - AHTXX_CMD_DELAY)
     else if bool_decide (st ≠ AHTXX_NO_ERROR) then return_ tt
     else skip) ;;
    (* read data from sensor *)
    sensorType ← get _sensorType;
    let dataSize := frame_length sensorType in
    Wire_requestFrom address dataSize true ;;
    n ← Wire_available;
    (if bool_decide (n ≠ dataSize) then
       set_status AHTXX_DATA_ERROR ;; return_ tt
     else skip) ;;
    for_range 0 dataSize (λ i, b ← Wire_read; set_rawData i b) ;;
    (* check busy bit after measurement delay *)
    st ← _getBusy AHTXX_USE_READ_DATA;
    set_status st ;;
    st ← get _status;
    (if bool_decide (st ≠ AHTXX_NO_ERROR) then return_ tt else skip) ;;
    (* check CRC8, for AHT2x only *)
    sensorType ← get _sensorType;
    crc_ok ← get _checkCRC8;
    if bool_decide (sensorType = AHT2x_SENSOR) && negb crc_ok
    then set_status AHTXX_CRC8_ERROR
    else skip).

Definition readHumidity {R} (readI2C : bool) : cmd W R float :=
  call (
    (if bool_decide (readI2C = AHTXX_FORCE_READ_DATA) then _readMeasurement else skip) ;;
    st ← get _status;
    (if bool_decide (st ≠ AHTXX_NO_ERROR) then return_ (float_of_int AHTXX_ERROR) else skip) ;;
    humidity ← get humidity_bits;
    mret (humidity_float humidity)).

Definition readTemperature {R} (readAHT : bool) : cmd W R float :=
  call (
    (if bool_decide (readAHT = AHTXX_FORCE_READ_DATA) then _readMeasurement else skip) ;;
    st ← get _status;
    (if bool_decide (st ≠ AHTXX_NO_ERROR) then return_ (float_of_int AHTXX_ERROR) else skip) ;;
    temperature ← get temperature_bits;
    mret (temperature_float temperature)).

Definition _setInitializationRegister {R} (value : Z) : cmd W R bool :=
  call (
    let value := uint8 value in
    delay AHTXX_CMD_DELAY ;;
    address ← get _address;
    Wire_beginTransmission address ;;
    sensorType ← get _sensorType;
    (if decide (sensorType = AHT1x_SENSOR)
     then Wire_write AHT1X_INIT_REG
     else Wire_write AHT2X_INIT_REG) ;;
    Wire_write value ;;
    Wire_write AHTXX_INIT_CTRL_NOP ;;
    rc ← Wire_endTransmission true;
    mret (bool_decide (rc = 0))).

Definition setNormalMode {R} : cmd W R bool :=
  call (_setInitializationRegister
          (Z.lor AHTXX_INIT_CTRL_CAL_ON AHT1X_INIT_CTRL_NORMAL_MODE)).



Definition _readStatusRegister {R} : cmd W R Z :=
  call (
    delay AHTXX_CMD_DELAY ;;
    address ← get _address;
    Wire_beginTransmission address ;;
    Wire_write AHTXX_STATUS_REG ;;
    rc ← Wire_endTransmission true;
    (if bool_decide (rc ≠ 0) then return_ AHTXX_ERROR else skip) ;;
    Wire_requestFrom address 1 true ;;
    n ← Wire_available;
    (if bool_decide (n = 1) then b ← Wire_read; return_ (uint8 b) else skip) ;;
    mret AHTXX_ERROR).

Definition _getCalibration {R} : cmd W R Z :=
  call (
    value ← _readStatusRegister;
    (if bool_decide (value ≠ AHTXX_ERROR)
     then return_ (Z.land value AHTXX_STATUS_CTRL_CAL_ON)
     else skip) ;;
    mret AHTXX_ERROR).

Definition softReset {R} : cmd W R bool :=
  call (
    address ← get _address;
    Wire_beginTransmission address ;;
    Wire_write AHTXX_SOFT_RESET_REG ;;
    rc ← Wire_endTransmission true;
    (if bool_decide (rc ≠ 0) then return_ false else skip) ;;
    delay AHTXX_SOFT_RESET_DELAY ;;
    mode_set ← setNormalMode;
    if (mode_set : bool)
    then cal ← _getCalibration; mret (bool_decide (cal = AHTXX_STATUS_CTRL_CAL_ON))
    else mret false).

Definition getStatus {R} : cmd W R Z := call (get _status).

Definition setType {R} (sensorType : AHTXX_I2C_SENSOR) : cmd W R unit :=
  call (set_sensorType sensorType).
End Driver.

(** ** A scripted environment

    A bus whose answers are written down beforehand: the result codes of
    the successive [endTransmission] calls and the bytes the device sends
    at the successive [requestFrom] calls.  It serves to run the driver on
    concrete inputs. *)

Module Script.
Record bus := Bus {
  acks : list Z;
  replies : list (list Z);
  rxBuffer : list Z
}.

Definition endTransmission (w : bus) : Z * bus :=
  match acks w with
  | [] => (0, w)
  | rc :: l => (rc, Bus l (replies w) (rxBuffer w))
  end.

Definition requestFrom (quantity : Z) (w : bus) : bus :=
  match replies w with
  | [] => Bus (acks w) [] []
  | r :: l => Bus (acks w) l (take (Z.to_nat quantity) r)
  end.

Definition available (w : bus) : Z * bus := (Z.of_nat (length (rxBuffer w)), w).

Definition read (w : bus) : Z * bus :=
  match rxBuffer w with
  | [] => (-1, w)
  | b :: l => (b, Bus (acks w) (replies w) l)
  end.

Definition arduino : Arduino bus := {|
  bus_begin _ w := w;
  bus_write _ w := w;
  bus_end _ w := endTransmission w;
  bus_request _ quantity _ w := requestFrom quantity w;
  bus_available := available;
  bus_read := read;
  clock_delay _ w := w
|}.

(** Command bytes and delays of the sensor's data sheet. *)
Definition datasheet : Header := {|
  AHTXX_START_MEASUREMENT_REG := 0xAC;
  AHTXX_START_MEASUREMENT_CTRL := 0x33;
  AHTXX_START_MEASUREMENT_CTRL_NOP := 0x00;
  AHT1X_INIT_REG := 0xE1;
  AHT2X_INIT_REG := 0xBE;
  AHTXX_INIT_CTRL_NOP := 0x00;
  AHTXX_INIT_CTRL_CAL_ON := 0x08;
  AHT1X_INIT_CTRL_NORMAL_MODE := 0x00;
  AHT1X_INIT_CTRL_CYCLE_MODE := 0x20;
  AHT1X_INIT_CTRL_CMD_MODE := 0x40;
  AHTXX_STATUS_REG := 0x71;
  AHTXX_SOFT_RESET_REG := 0xBA;
  AHTXX_CMD_DELAY := 10;
  AHTXX_MEASUREMENT_DELAY := 80;
  AHTXX_SOFT_RESET_DELAY := 20
|}.

(** A session as the constructor leaves it, over a zeroed frame. *)
Definition fresh (sensorType : AHTXX_I2C_SENSOR) : AHTxx :=
  AHTxx_new 0x38 sensorType [0; 0; 0; 0; 0; 0; 0].

(** What an idle sensor sends: status 0x18, humidity 0x73333 (45 %),
    temperature 0x5E148 (23.5 degrees), and the checksum of these six
    bytes. *)
Definition reading : list Z := [0x18; 0x73; 0x33; 0x35; 0xE1; 0x48; 0x54].

(** Running a public member function from outside. *)
Definition exec {A} (f : Header → Arduino bus → cmd bus A A)
    (this : AHTxx) (w : bus) : run bus A A :=
  f datasheet arduino this w.
End Script.

(** ** Vocabulary of the statements *)

(** In the trace [t], the event [e] is directly followed by [e']. *)
Definition follows (t : list event) (e e' : event) : Prop :=
  ∃ i : nat, t !! i = Some e ∧ t !! S i = Some e'.

(** *** The measurement transaction as a protocol

    The traces one call of [_readMeasurement] can leave, each with the
    session it leaves behind; [readMeasurement_transaction] below proves
    that the code follows it. *)

Section Protocol.
Context {hdr : Header}.

(** The trigger, closed with result code [rc]. *)
Definition trigger (a rc : Z) : list event :=
  [EvBegin a;
   EvWrite AHTXX_START_MEASUREMENT_REG;
   EvWrite AHTXX_START_MEASUREMENT_CTRL;
   EvWrite AHTXX_START_MEASUREMENT_CTRL_NOP;
   EvEnd true rc].

(** The request for the status byte, answered with [n] bytes. *)
Definition status_request (a n : Z) : list event :=
  [EvDelay AHTXX_CMD_DELAY; EvRequest a 1 true; EvAvailable n].

(** The wait that follows a status byte [b]. *)
Definition wait (b : Z) : list event :=
  if busy (uint8 b)
  then [EvDelay (AHTXX_MEASUREMENT_DELAY - AHTXX_CMD_DELAY)]
  else [].

(** The request for the frame of [len] bytes, answered with [k] bytes. *)
Definition frame_request (a len k : Z) : list event :=
  [EvRequest a len true; EvAvailable k].

(** [_rawData[i] = b] for the bytes [b] read, from index [i] on. *)
Fixpoint store (i : Z) (bytes : list Z) (this : AHTxx) : AHTxx :=
  match bytes with
  | [] => this
  | b :: bytes' => store (i + 1) bytes' (with_rawData i b this)
  end.

(** The status after a frame arrived. *)
Definition verdict (this : AHTxx) : Z :=
  if busy (rawData_at this 0) then AHTXX_BUSY_ERROR
  else if bool_decide (_sensorType this = AHT2x_SENSOR) && negb (_checkCRC8 this)
       then AHTXX_CRC8_ERROR
       else AHTXX_NO_ERROR.

Inductive transaction (this : AHTxx) : list event → AHTxx → Prop :=
| transaction_nack rc :
    rc ≠ 0 →
    transaction this
      (trigger (_address this) rc)
      (with_status AHTXX_ACK_ERROR this)
| transaction_no_status n :
    n ≠ 1 →
    transaction this
      (trigger (_address this) 0 ++ status_request (_address this) n)
      (with_status AHTXX_DATA_ERROR this)
| transaction_short_frame b k :
    k ≠ frame_length (_sensorType this) →
    transaction this
      (trigger (_address this) 0 ++ status_request (_address this) 1 ++ [EvRead b] ++
       wait b ++ frame_request (_address this) (frame_length (_sensorType this)) k)
      (with_status AHTXX_DATA_ERROR (with_rawData 0 b this))
| transaction_frame b bytes :
    Z.of_nat (length bytes) = frame_length (_sensorType this) →
    transaction this
      (trigger (_address this) 0 ++ status_request (_address this) 1 ++ [EvRead b] ++
       wait b ++
       frame_request (_address this) (frame_length (_sensorType this))
                     (frame_length (_sensorType this)) ++
       (EvRead <$> bytes))
      (with_status (verdict (store 0 bytes (with_rawData 0 b this)))
                   (store 0 bytes (with_rawData 0 b this))).
End Protocol.

(** The integrity check in the words of the specification: an 8-bit
    register, initially 0xFF; each input byte is XORed into the register,
    then eight times the register is shifted left and, when its top bit
    was set, XORed with the polynomial 0x31; no final XOR. *)
Definition crc8_shift (reg : Z) : Z :=
  if Z.testbit reg 7
  then Z.lxor (Z.shiftl reg 1) 0x31 mod 256
  else Z.shiftl reg 1 mod 256.

Definition crc8_update (reg byte : Z) : Z :=
  Nat.iter 8 crc8_shift (Z.lxor reg byte mod 256).

Definition crc8 (data : list Z) : Z := foldl crc8_update 0xFF data.

(** The frame bytes the specification names for a 20-bit humidity [h] and
    a 20-bit temperature [t]: humidity-high, humidity-mid, the shared
    byte, temperature-mid, temperature-low. *)
Definition encodes (this : AHTxx) (h t : Z) : Prop :=
  rawData_at this 1 = h ≫ 12 ∧
  rawData_at this 2 = Z.land (h ≫ 4) 0xFF ∧
  rawData_at this 3 = Z.lor (Z.land h 0xF ≪ 4) (t ≫ 16) ∧
  rawData_at this 4 = Z.land (t ≫ 8) 0xFF ∧
  rawData_at this 5 = Z.land t 0xFF.

(** The value the specification gives for a 20-bit humidity reading, in
    percent. *)
Definition humidity_percent (h : Z) : Q := (inject_Z h / inject_Z (2 ^ 20) * 100)%Q.

(** The value the specification gives for a 20-bit temperature reading, in
    degrees Celsius. *)
Definition temperature_celsius (t : Z) : Q := (inject_Z t / inject_Z (2 ^ 20) * 200 - 50)%Q.

(** ** Vocabulary of the further properties *)

(** The writes and the read requests of a trace. *)
Definition is_write (e : event) : bool :=
  match e with EvWrite _ => true | _ => false end.

Definition is_request (e : event) : bool :=
  match e with EvRequest _ _ _ => true | _ => false end.

(** One turn of the inner loop of [_checkCRC8], backwards. *)
Definition crc_unshift (c : Z) : Z :=
  if Z.odd c
  then Z.lor (Z.shiftr (Z.lxor c 0x31) 1) 0x80
  else Z.shiftr c 1.

(** * Properties *)

(** ** Running commands, one step at a time *)

Section Steps.
Context {W : Type} {env : Arduino W} {R : Type}.

Lemma after_nil {A} (r : run W R A) : after [] r = r.
Proof. by destruct r. Qed.

Lemma after_Run {A} t (f : flow R A) this (w : W) t' :
  after t (Run f this w t') = Run f this w (t ++ t').
Proof. reflexivity. Qed.

Lemma flow_of_after {A} t (r : run W R A) : flow_of (after t r) = flow_of r.
Proof. reflexivity. Qed.

Lemma this_of_after {A} t (r : run W R A) : this_of (after t r) = this_of r.
Proof. reflexivity. Qed.

Lemma bus_of_after {A} t (r : run W R A) : bus_of (after t r) = bus_of r.
Proof. reflexivity. Qed.

Lemma trace_of_after {A} t (r : run W R A) : trace_of (after t r) = t ++ trace_of r.
Proof. reflexivity. Qed.

Lemma step_bind {A B} (c : cmd W R A) (k : A → cmd W R B) this w :
  (c ≫= k) this w =
  match flow_of (c this w) with
  | Next a => after (trace_of (c this w)) (k a (this_of (c this w)) (bus_of (c this w)))
  | Return v => Run (Return v) (this_of (c this w)) (bus_of (c this w)) (trace_of (c this w))
  end.
Proof. reflexivity. Qed.

Lemma step_run {A B} (c : cmd W R A) (k : A → cmd W R B) this w a this' w' t :
  c this w = Run (Next a) this' w' t →
  (c ≫= k) this w = after t (k a this' w').
Proof. rewrite step_bind. by intros ->. Qed.

Lemma step_if {A B} (b : bool) (c c' : cmd W R A) (k : A → cmd W R B) this w :
  ((if b then c else c') ≫= k) this w = if b then (c ≫= k) this w else (c' ≫= k) this w.
Proof. by destruct b. Qed.

Lemma step_ret {A B} (a : A) (k : A → cmd W R B) this w :
  (mret a ≫= k) this w = k a this w.
Proof. rewrite step_bind. apply after_nil. Qed.

Lemma step_skip {B} (k : unit → cmd W R B) this w :
  (skip ≫= k) this w = k tt this w.
Proof. apply step_ret. Qed.

Lemma step_return {A B} (v : R) (k : A → cmd W R B) this w :
  (return_ v ≫= k) this w = Run (Return v) this w [].
Proof. reflexivity. Qed.

Lemma step_get {A B} (f : AHTxx → A) (k : A → cmd W R B) this w :
  (get f ≫= k) this w = k (f this) this w.
Proof. rewrite step_bind. apply after_nil. Qed.

Lemma step_set_status {B} v (k : unit → cmd W R B) this w :
  (set_status v ≫= k) this w = k tt (with_status v this) w.
Proof. rewrite step_bind. apply after_nil. Qed.

Lemma step_set_rawData {B} i v (k : unit → cmd W R B) this w :
  (set_rawData i v ≫= k) this w = k tt (with_rawData i v this) w.
Proof. rewrite step_bind. apply after_nil. Qed.

Lemma step_assoc {A B C} (c : cmd W R A) (k : A → cmd W R B) (k' : B → cmd W R C) this w :
  ((c ≫= k) ≫= k') this w = (c ≫= (λ a, k a ≫= k')) this w.
Proof.
  rewrite !step_bind.
  destruct (c this w) as [[a|v] this' w' t]; cbn [flow_of this_of bus_of trace_of]; [|done].
  rewrite step_bind.
  destruct (k a this' w') as [[b|v] this'' w'' t']; [|done].
  cbn [flow_of this_of bus_of trace_of after].
  destruct (k' b this'' w''). unfold after. cbn [flow_of this_of bus_of trace_of].
  by rewrite app_assoc.
Qed.

Lemma step_beginTransmission {B} a (k : unit → cmd W R B) this w :
  (Wire_beginTransmission a ≫= k) this w = after [EvBegin a] (k tt this (bus_begin a w)).
Proof. reflexivity. Qed.

Lemma step_write {B} d (k : unit → cmd W R B) this w :
  (Wire_write d ≫= k) this w = after [EvWrite d] (k tt this (bus_write d w)).
Proof. reflexivity. Qed.

Lemma step_endTransmission {B} s (k : Z → cmd W R B) this w :
  (Wire_endTransmission s ≫= k) this w =
  after [EvEnd s (bus_end s w).1] (k (bus_end s w).1 this (bus_end s w).2).
Proof. reflexivity. Qed.

Lemma step_requestFrom {B} a n s (k : unit → cmd W R B) this w :
  (Wire_requestFrom a n s ≫= k) this w =
  after [EvRequest a n s] (k tt this (bus_request a n s w)).
Proof. reflexivity. Qed.

Lemma step_available {B} (k : Z → cmd W R B) this w :
  (Wire_available ≫= k) this w =
  after [EvAvailable (bus_available w).1] (k (bus_available w).1 this (bus_available w).2).
Proof. reflexivity. Qed.

Lemma step_read {B} (k : Z → cmd W R B) this w :
  (Wire_read ≫= k) this w =
  after [EvRead (bus_read w).1] (k (bus_read w).1 this (bus_read w).2).
Proof. reflexivity. Qed.

Lemma step_delay {B} ms (k : unit → cmd W R B) this w :
  (delay ms ≫= k) this w = after [EvDelay ms] (k tt this (clock_delay ms w)).
Proof. reflexivity. Qed.

(** The last command of a body. *)
Lemma last_ret {A} (a : A) this (w : W) : (mret a : cmd W R A) this w = Run (Next a) this w [].
Proof. reflexivity. Qed.

Lemma last_skip this (w : W) : (skip : cmd W R unit) this w = Run (Next tt) this w [].
Proof. reflexivity. Qed.

Lemma last_return {A} (v : R) this (w : W) :
  (return_ v : cmd W R A) this w = Run (Return v) this w [].
Proof. reflexivity. Qed.

Lemma last_get {A} (f : AHTxx → A) this (w : W) : get (R:=R) f this w = Run (Next (f this)) this w [].
Proof. reflexivity. Qed.

Lemma last_set_status v this (w : W) :
  set_status (R:=R) v this w = Run (Next tt) (with_status v this) w [].
Proof. reflexivity. Qed.

Lemma last_if {A} (b : bool) (c c' : cmd W R A) this w :
  (if b then c else c') this w = if b then c this w else c' this w.
Proof. by destruct b. Qed.
End Steps.

Lemma call_eq {W R R'} (body : cmd W R R) this w (r : run W R R) :
  body this w = r →
  call (R':=R') body this w =
  Run (Next (result (flow_of r))) (this_of r) (bus_of r) (trace_of r).
Proof. by intros <-. Qed.

Ltac step :=
  first
    [ rewrite step_assoc
    | rewrite step_if
    | rewrite step_ret
    | rewrite step_skip
    | rewrite step_return
    | rewrite step_get
    | rewrite step_set_status
    | rewrite step_set_rawData
    | rewrite step_beginTransmission
    | rewrite step_write
    | rewrite step_endTransmission
    | rewrite step_requestFrom
    | rewrite step_available
    | rewrite step_read
    | rewrite step_delay
    | rewrite last_ret
    | rewrite last_skip
    | rewrite last_return
    | rewrite last_get
    | rewrite last_set_status
    | rewrite last_if ].

(** ** The session object *)

Lemma uint8_is_uint8 x : is_uint8 (uint8 x).
Proof. unfold is_uint8, uint8. apply Z.mod_pos_bound. lia. Qed.

Lemma uint8_id x : is_uint8 x → uint8 x = x.
Proof. unfold is_uint8, uint8. intros. by apply Z.mod_small. Qed.

Lemma wf_with_status v this : wf this → wf (with_status v this).
Proof. by intros [? ?]. Qed.

Lemma wf_with_rawData i v this : wf this → wf (with_rawData i v this).
Proof.
  intros [Hlen Hall]. split; simpl.
  - by rewrite length_insert.
  - apply Forall_insert; [done | apply uint8_is_uint8].
Qed.

Lemma wf_store i bytes this : wf this → wf (store i bytes this).
Proof. revert i this. induction bytes; simpl; auto using wf_with_rawData. Qed.

Lemma rawData_at_is_uint8 this i : wf this → 0 ≤ i < 7 → is_uint8 (rawData_at this i).
Proof.
  intros [Hlen Hall] Hi. unfold rawData_at.
  eapply Forall_lookup_1; [exact Hall|].
  apply list_lookup_lookup_total_lt. lia.
Qed.

Lemma rawData_at_same this i v :
  wf this → 0 ≤ i < 7 → rawData_at (with_rawData i v this) i = uint8 v.
Proof.
  intros [Hlen _] Hi. unfold rawData_at, with_rawData; simpl.
  apply list_lookup_total_correct, list_lookup_insert_eq. lia.
Qed.

Lemma rawData_at_other this i j v :
  0 ≤ i → 0 ≤ j → i ≠ j → rawData_at (with_rawData i v this) j = rawData_at this j.
Proof.
  intros Hi Hj Hne. unfold rawData_at, with_rawData; simpl.
  rewrite !list_lookup_total_alt, list_lookup_insert_ne; [done | lia].
Qed.

Lemma status_with_status v this : _status (with_status v this) = v.
Proof. reflexivity. Qed.
Lemma status_with_rawData i v this : _status (with_rawData i v this) = _status this.
Proof. reflexivity. Qed.
Lemma address_with_status v this : _address (with_status v this) = _address this.
Proof. reflexivity. Qed.
Lemma address_with_rawData i v this : _address (with_rawData i v this) = _address this.
Proof. reflexivity. Qed.
Lemma sensorType_with_status v this : _sensorType (with_status v this) = _sensorType this.
Proof. reflexivity. Qed.
Lemma sensorType_with_rawData i v this :
  _sensorType (with_rawData i v this) = _sensorType this.
Proof. reflexivity. Qed.
Lemma rawData_with_status v this : _rawData (with_status v this) = _rawData this.
Proof. reflexivity. Qed.
Lemma rawData_at_with_status v this i : rawData_at (with_status v this) i = rawData_at this i.
Proof. reflexivity. Qed.
Lemma with_status_with_status v v' this :
  with_status v (with_status v' this) = with_status v this.
Proof. reflexivity. Qed.
Lemma with_rawData_with_status i b v this :
  with_rawData i b (with_status v this) = with_status v (with_rawData i b this).
Proof. reflexivity. Qed.

Lemma crc_bytes_with_status v this : crc_bytes (with_status v this) = crc_bytes this.
Proof. unfold crc_bytes, rawData_at. cbn [with_status _rawData]. reflexivity. Qed.

Lemma checkCRC8_with_status v this : _checkCRC8 (with_status v this) = _checkCRC8 this.
Proof. unfold _checkCRC8. rewrite crc_bytes_with_status. reflexivity. Qed.

Lemma store_with_status i bytes v this :
  store i bytes (with_status v this) = with_status v (store i bytes this).
Proof.
  revert i this. induction bytes as [|b l IH]; intros; [reflexivity|].
  cbn [store]. rewrite with_rawData_with_status. apply IH.
Qed.

Lemma address_store i bytes this : _address (store i bytes this) = _address this.
Proof. revert i this. induction bytes as [|b l IH]; intros; simpl; [done|]. by rewrite IH. Qed.

Lemma sensorType_store i bytes this : _sensorType (store i bytes this) = _sensorType this.
Proof. revert i this. induction bytes as [|b l IH]; intros; simpl; [done|]. by rewrite IH. Qed.

Lemma frame_length_nonneg t : 0 ≤ frame_length t.
Proof. destruct t; done. Qed.

Lemma frame_length_cases t : frame_length t = 6 ∨ frame_length t = 7.
Proof. destruct t; auto. Qed.

Create Rewrite HintDb session.
Hint Rewrite status_with_status status_with_rawData address_with_status
  address_with_rawData sensorType_with_status sensorType_with_rawData
  rawData_with_status rawData_at_with_status with_status_with_status
  checkCRC8_with_status store_with_status : session.

Ltac tidy :=
  rewrite ?flow_of_after, ?this_of_after, ?bus_of_after, ?trace_of_after, ?after_Run;
  cbn [flow_of this_of bus_of trace_of result fst snd app].

Ltac run := repeat (first [step | progress autorewrite with session | progress tidy]).

(** ** [_getBusy] *)

Section GetBusy.
Context {hdr : Header} {W : Type} {env : Arduino W}.

Lemma getBusy_buffered {R} (this : AHTxx) (w : W) :
  _getBusy (R:=R) AHTXX_USE_READ_DATA this w =
  Run (Next (busy_status (rawData_at this 0)))
      (with_status (busy_status (rawData_at this 0)) this) w [].
Proof.
  unfold _getBusy.
  change (bool_decide (AHTXX_USE_READ_DATA = AHTXX_FORCE_READ_DATA)) with false.
  cbv iota. erewrite call_eq; [|run; reflexivity].
  unfold busy_status. by destruct (busy _).
Qed.

Lemma getBusy_forced {R} (this : AHTxx) (w : W) :
  wf this →
  let w1 := bus_request (_address this) 1 true (clock_delay AHTXX_CMD_DELAY w) in
  let n := bus_available w1 in
  let b := bus_read n.2 in
  _getBusy (R:=R) AHTXX_FORCE_READ_DATA this w =
  if bool_decide (n.1 ≠ 1) then
    Run (Next AHTXX_DATA_ERROR) this n.2
        [EvDelay AHTXX_CMD_DELAY; EvRequest (_address this) 1 true; EvAvailable n.1]
  else
    Run (Next (busy_status (uint8 b.1)))
        (with_status (busy_status (uint8 b.1)) (with_rawData 0 b.1 this)) b.2
        [EvDelay AHTXX_CMD_DELAY; EvRequest (_address this) 1 true; EvAvailable n.1;
         EvRead b.1].
Proof.
  intros Hwf. cbv zeta. unfold _getBusy.
  change (bool_decide (AHTXX_FORCE_READ_DATA = AHTXX_FORCE_READ_DATA)) with true.
  cbv iota. erewrite call_eq; [|run; reflexivity].
  rewrite rawData_at_same by (done || lia).
  unfold busy_status.
  case_bool_decide; [done|]. by destruct (busy _).
Qed.
End GetBusy.

Ltac step_in E :=
  first
    [ rewrite step_assoc in E
    | rewrite step_if in E
    | rewrite step_ret in E
    | rewrite step_skip in E
    | rewrite step_return in E
    | rewrite step_get in E
    | rewrite step_set_status in E
    | rewrite step_set_rawData in E
    | rewrite step_beginTransmission in E
    | rewrite step_write in E
    | rewrite step_endTransmission in E
    | rewrite step_requestFrom in E
    | rewrite step_available in E
    | rewrite step_read in E
    | rewrite step_delay in E
    | rewrite last_ret in E
    | rewrite last_skip in E
    | rewrite last_return in E
    | rewrite last_get in E
    | rewrite last_set_status in E
    | rewrite last_if in E ].

Ltac tidy_in E :=
  rewrite ?flow_of_after, ?this_of_after, ?bus_of_after, ?trace_of_after, ?after_Run in E;
  cbn [flow_of this_of bus_of trace_of result fst snd app] in E.

Ltac run_in E :=
  repeat (first [step_in E | progress autorewrite with session in E | progress tidy_in E]).

(** Names the run of the body of a called function. *)
Ltac enter r E :=
  unfold call;
  match goal with
  | |- context [this_of (?body ?this ?w)] => remember (body this w) as r eqn:E
  end.

(** ** The loop that copies the frame *)

Section ReadLoop.
Context {W : Type} {env : Arduino W} {R : Type}.

Lemma read_loop (n : nat) (i : Z) (this : AHTxx) (w : W) :
  ∃ bytes w',
    for_each (R:=R) (seqZ i (Z.of_nat n)) (λ i, b ← Wire_read; set_rawData i b) this w =
    Run (Next tt) (store i bytes this) w' (EvRead <$> bytes) ∧
    length bytes = n.
Proof.
  revert i this w. induction n as [|n IH]; intros i this w.
  - exists [], w. by rewrite seqZ_nil.
  - rewrite seqZ_cons by lia. cbn [for_each]. run.
    replace (Z.pred (Z.of_nat (S n))) with (Z.of_nat n) by lia.
    destruct (IH (Z.succ i) (with_rawData i (bus_read w).1 this) (bus_read w).2)
      as (bytes & w' & -> & <-).
    exists ((bus_read w).1 :: bytes), w'. tidy.
    rewrite fmap_cons. cbn [store length]. by rewrite Z.add_1_r.
Qed.
End ReadLoop.

(** ** The measurement transaction follows its protocol *)

Section Transaction.
Context {hdr : Header} {W : Type} {env : Arduino W}.

Lemma transaction_short_frame' this b k t this' :
  k ≠ frame_length (_sensorType this) →
  t = trigger (_address this) 0 ++ status_request (_address this) 1 ++ [EvRead b] ++
      wait b ++ frame_request (_address this) (frame_length (_sensorType this)) k →
  this' = with_status AHTXX_DATA_ERROR (with_rawData 0 b this) →
  transaction this t this'.
Proof. intros ? -> ->. by constructor. Qed.

Lemma transaction_frame' this b bytes t this' :
  Z.of_nat (length bytes) = frame_length (_sensorType this) →
  t = trigger (_address this) 0 ++ status_request (_address this) 1 ++ [EvRead b] ++
      wait b ++
      frame_request (_address this) (frame_length (_sensorType this))
                    (frame_length (_sensorType this)) ++
      (EvRead <$> bytes) →
  this' = with_status (verdict (store 0 bytes (with_rawData 0 b this)))
                      (store 0 bytes (with_rawData 0 b this)) →
  transaction this t this'.
Proof. intros ? -> ->. by constructor. Qed.

Lemma readMeasurement_flow {R} (this : AHTxx) (w : W) :
  flow_of (_readMeasurement (R:=R) this w) = Next tt.
Proof. unfold _readMeasurement, call. cbn [flow_of]. by destruct (result _). Qed.

Lemma readMeasurement_transaction {R} (this : AHTxx) (w : W) :
  wf this →
  transaction this (trace_of (_readMeasurement (R:=R) this w))
                   (this_of (_readMeasurement (R:=R) this w)).
Proof.
  intros Hwf. unfold _readMeasurement. enter r E. cbn [trace_of this_of].
  run_in E.
  destruct (bus_end true _) as [rc w1]. tidy_in E.
  case_bool_decide as Hrc.
  { run_in E. subst r. tidy. by apply transaction_nack. }
  subst rc. run_in E.
  rewrite step_bind, getBusy_forced in E by done. cbv zeta in E.
  destruct (bus_available _) as [n w2]. tidy_in E.
  case_bool_decide as Hn.
  { run_in E.
    rewrite (bool_decide_false (AHTXX_DATA_ERROR = AHTXX_BUSY_ERROR)) in E by done.
    rewrite (bool_decide_true (AHTXX_DATA_ERROR ≠ AHTXX_NO_ERROR)) in E by done.
    run_in E. subst r. tidy. by apply transaction_no_status. }
  subst n. destruct (bus_read w2) as [b w3]. run_in E.
  unfold busy_status in E. destruct (busy (uint8 b)) eqn:Hb.
  1: rewrite (bool_decide_true (AHTXX_BUSY_ERROR = AHTXX_BUSY_ERROR)) in E by done.
  2: rewrite (bool_decide_false (AHTXX_NO_ERROR = AHTXX_BUSY_ERROR)),
       (bool_decide_false (AHTXX_NO_ERROR ≠ AHTXX_NO_ERROR)) in E by (done || auto).
  all: destruct (bus_available _) as [k w4]; tidy_in E.
  all: case_bool_decide as Hk.
  1, 3: run_in E; subst r; tidy;
    eapply (transaction_short_frame' _ b k); [done | unfold wait; by rewrite Hb | done].
  all: subst k; unfold for_range in E; rewrite Z.sub_0_r in E.
  all: match type of E with context [(for_each _ _ ≫= _) ?t ?w] =>
         destruct (read_loop (R:=unit) (Z.to_nat (frame_length (_sensorType this))) 0 t w)
           as (bytes & w5 & Hloop & Hlen) end.
  all: rewrite Z2Nat.id in Hloop by apply frame_length_nonneg.
  all: rewrite (step_run _ _ _ _ _ _ _ _ Hloop) in E.
  all: rewrite step_bind, getBusy_buffered in E; run_in E.
  all: unfold busy_status in E.
  all: destruct (busy (rawData_at _ 0)) eqn:Hb'.
  all: rewrite ?(bool_decide_true (AHTXX_BUSY_ERROR ≠ AHTXX_NO_ERROR)),
         ?(bool_decide_false (AHTXX_NO_ERROR ≠ AHTXX_NO_ERROR)) in E by (done || auto).
  all: try destruct (_ && _) eqn:Hcrc.
  all: run_in E; subst r; tidy; rewrite ?app_nil_r.
  all: eapply (transaction_frame' _ b bytes);
    [ rewrite Hlen; apply Z2Nat.id, frame_length_nonneg
    | unfold wait; by rewrite Hb
    | unfold verdict; rewrite Hb', ?Hcrc; done ].
Qed.
End Transaction.

(** ** Adjacent events of a trace *)

Lemma follows_nil e e' : ¬ follows [] e e'.
Proof. by intros [i [? _]]. Qed.

Lemma follows_cons x t e e' :
  follows (x :: t) e e' ↔ (x = e ∧ head t = Some e') ∨ follows t e e'.
Proof.
  split.
  - intros [[|i] [H1 H2]].
    + left. simpl in H1. split; [congruence|]. by destruct t.
    + right. by exists i.
  - intros [[-> H]|[i [H1 H2]]].
    + exists 0%nat. split; [done|]. by destruct t.
    + by exists (S i).
Qed.

Lemma follows_reads bytes e e' :
  follows (EvRead <$> bytes) e e' → is_bus_read e = true ∧ ∃ b, e = EvRead b.
Proof.
  intros [i [H _]]. apply list_lookup_fmap_Some in H as (b & -> & _). eauto.
Qed.

(** All the places of a trace where [e] is directly followed by [e']. *)
Ltac follows_cases H :=
  repeat (apply follows_cons in H as [[? ?]|H]);
  try (apply follows_nil in H; destruct H).

Section Transaction_properties.
Context {hdr : Header} {W : Type} {env : Arduino W} {R : Type}.

Lemma transaction_wf this t this' : wf this → transaction this t this' → wf this'.
Proof.
  intros Hwf [].
  all: auto using wf_with_status, wf_with_rawData, wf_store.
Qed.

(** C1, amended: when the frame request comes back with a byte count
    other than the frame length, the status code becomes
    [AHTXX_DATA_ERROR] and bytes 1 to 6 of the raw frame are as they
    were; byte 0 holds the status byte read after the trigger. *)
Theorem short_frame_keeps_measurement (this : AHTxx) (w : W) (k : Z) :
  wf this →
  let r := _readMeasurement (R:=R) this w in
  follows (trace_of r)
          (EvRequest (_address this) (frame_length (_sensorType this)) true)
          (EvAvailable k) →
  k ≠ frame_length (_sensorType this) →
  _status (this_of r) = AHTXX_DATA_ERROR ∧
  (∀ i, 1 ≤ i → rawData_at (this_of r) i = rawData_at this i) ∧
  (∃ b, trace_of r !! 8%nat = Some (EvRead b) ∧ rawData_at (this_of r) 0 = uint8 b).
Proof.
  intros Hwf r Hk Hne.
  pose proof (readMeasurement_transaction (R:=R) this w Hwf) as Ht.
  fold r in Ht. clearbody r. revert Hk.
  pose proof (frame_length_cases (_sensorType this)) as Hlen.
  destruct Ht as [rc Hrc|n Hn|b k' Hk'|b bytes Hlen']; intros Hk.
  - unfold trigger in Hk. follows_cases Hk; simplify_eq; lia.
  - unfold trigger, status_request in Hk. cbn [app] in Hk.
    follows_cases Hk; simplify_eq; lia.
  - unfold trigger, status_request, frame_request, wait in *.
    destruct (busy (uint8 b)); cbn [app] in *.
    all: follows_cases Hk; simplify_eq/=.
    all: split; [done|]; split; [|exists b; split; [done|by apply rawData_at_same]].
    all: intros i Hi; autorewrite with session; apply rawData_at_other; lia.
  - unfold trigger, status_request, frame_request, wait in *.
    destruct (busy (uint8 b)); cbn [app] in *.
    all: follows_cases Hk; simplify_eq/=.
    all: apply follows_reads in Hk as [_ [? ?]]; simplify_eq.
Qed.
End Transaction_properties.

(** C1, as the specification states it, does not hold: the status byte
    read after the trigger is already stored in [_rawData[0]] when the
    frame request comes back short. *)
Lemma short_frame_changes_byte0 :
  ¬ (∀ (hdr : Header) (W : Type) (env : Arduino W) (this : AHTxx) (w : W) (k : Z),
       wf this →
       let r := _readMeasurement (R:=unit) this w in
       follows (trace_of r)
               (EvRequest (_address this) (frame_length (_sensorType this)) true)
               (EvAvailable k) →
       k ≠ frame_length (_sensorType this) →
       _status (this_of r) = AHTXX_DATA_ERROR ∧
       ∀ i, 0 ≤ i < 7 → rawData_at (this_of r) i = rawData_at this i).
Proof.
  intros claim.
  destruct (claim Script.datasheet Script.bus Script.arduino
                  (Script.fresh AHT1x_SENSOR)
                  (Script.Bus [] [[0x18]; [0x18; 0x73; 0x33]] []) 3) as [_ Hraw].
  - split; [done|]. repeat constructor; done.
  - exists 9%nat. by vm_compute.
  - by vm_compute.
  - specialize (Hraw 0 ltac:(lia)). vm_compute in Hraw. discriminate.
Qed.

Lemma filter_delay_reads bytes : List.filter is_delay (EvRead <$> bytes) = [].
Proof. induction bytes; simpl; auto. Qed.

Section Busy.
Context {hdr : Header} {W : Type} {env : Arduino W} {R : Type}.

(** C5: when the status byte read after the trigger has the busy bit
    set, [_getBusy] sets status Busy, the driver sleeps once, for
    [AHTXX_MEASUREMENT_DELAY - AHTXX_CMD_DELAY], and goes on to request
    the frame; the check after the frame read looks at the buffered
    byte 0 and touches no bus; no other delay or status request occurs. *)
Theorem busy_waits_once (this : AHTxx) (w : W) (b : Z) :
  wf this →
  let r := _readMeasurement (R:=R) this w in
  let a := _address this in
  let len := frame_length (_sensorType this) in
  trace_of r !! 4%nat = Some (EvEnd true 0) →
  trace_of r !! 7%nat = Some (EvAvailable 1) →
  trace_of r !! 8%nat = Some (EvRead b) →
  busy (uint8 b) = true →
  (* the status check after the trigger sets status Busy *)
  (∀ (this1 : AHTxx) (w1 : W),
     wf this1 →
     let g := _getBusy (R:=R) AHTXX_FORCE_READ_DATA this1 w1 in
     trace_of g !! 2%nat = Some (EvAvailable 1) →
     trace_of g !! 3%nat = Some (EvRead b) →
     flow_of g = Next AHTXX_BUSY_ERROR ∧ _status (this_of g) = AHTXX_BUSY_ERROR) ∧
  (* one sleep, then the frame request; nothing is polled again *)
  (∃ k bytes,
     trace_of r =
       trigger a 0 ++ status_request a 1 ++
       [EvRead b; EvDelay (AHTXX_MEASUREMENT_DELAY - AHTXX_CMD_DELAY)] ++
       frame_request a len k ++ (EvRead <$> bytes) ∧
     (k ≠ len → bytes = [] ∧ _status (this_of r) = AHTXX_DATA_ERROR) ∧
     (k = len → Z.of_nat (length bytes) = len ∧
                _status (this_of r) = verdict (this_of r))) ∧
  List.filter is_delay (trace_of r) =
    [EvDelay AHTXX_CMD_DELAY; EvDelay (AHTXX_MEASUREMENT_DELAY - AHTXX_CMD_DELAY)] ∧
  (* the check after the frame read looks at the buffered byte only *)
  (∀ (this1 : AHTxx) (w1 : W),
     _getBusy (R:=R) AHTXX_USE_READ_DATA this1 w1 =
     Run (Next (busy_status (rawData_at this1 0)))
         (with_status (busy_status (rawData_at this1 0)) this1) w1 []).
Proof.
  intros Hwf r a len H4 H7 H8 Hb.
  split; [|split; [|split]].
  - intros this1 w1 Hwf1 g. subst g. rewrite getBusy_forced by done. cbv zeta.
    destruct (bus_available _) as [n w2]. destruct (bus_read _) as [b' w3]. tidy.
    case_bool_decide; tidy; [by intros [= <-]|].
    intros _ [= ->]. unfold busy_status. by rewrite Hb.
  - pose proof (readMeasurement_transaction (R:=R) this w Hwf) as Ht.
    fold r in Ht. clearbody r. revert H4 H7 H8.
    destruct Ht as [rc Hrc|n Hn|b' k' Hk'|b' bytes Hlen']; unfold trigger, status_request.
    all: cbn [app lookup list_lookup]; intros; simplify_eq.
    + exists k', []. unfold wait. rewrite Hb. unfold frame_request. simpl.
      fold a len. split; [done|]. split; [done|]. by intros ->.
    + exists len, bytes. unfold wait. rewrite Hb. unfold frame_request. simpl.
      fold a len. split; [done|]. split; [done|]. intros _. split; [done|].
      autorewrite with session. unfold verdict. by autorewrite with session.
  - pose proof (readMeasurement_transaction (R:=R) this w Hwf) as Ht.
    fold r in Ht. clearbody r. revert H4 H7 H8.
    destruct Ht as [rc Hrc|n Hn|b' k' Hk'|b' bytes Hlen']; unfold trigger, status_request.
    all: cbn [app lookup list_lookup]; intros; simplify_eq.
    all: unfold wait, frame_request; rewrite Hb; simpl; try done.
    by rewrite filter_delay_reads.
  - intros. apply getBusy_buffered.
Qed.
End Busy.

(** ** The integrity check *)

Lemma land_0x80 (c : Z) : Z.land c 0x80 ≠ 0 ↔ Z.testbit c 7 = true.
Proof.
  change 0x80 with (2 ^ 7).
  assert (H : Z.land c (2 ^ 7) = if Z.testbit c 7 then 2 ^ 7 else 0).
  { apply Z.bits_inj'. intros n Hn. rewrite Z.land_spec, Z.pow2_bits_eqb by lia.
    destruct (Z.eqb_spec 7 n) as [<-|Hne].
    - rewrite andb_true_r. destruct (Z.testbit c 7); [|by rewrite Z.bits_0].
      by rewrite Z.pow2_bits_true.
    - rewrite andb_false_r. destruct (Z.testbit c 7); [|by rewrite Z.bits_0].
      by rewrite Z.pow2_bits_false. }
  rewrite H. destruct (Z.testbit c 7); split; try done. 
Qed.

Lemma crc_shift_crc8_shift (c : Z) : crc_shift c = crc8_shift c.
Proof.
  unfold crc_shift, crc8_shift, uint8.
  destruct (Z.testbit c 7) eqn:E.
  - rewrite bool_decide_true; [done|]. by apply land_0x80.
  - rewrite bool_decide_false; [done|]. rewrite land_0x80. congruence.
Qed.

Lemma crc_bits_crc8 (c : Z) : crc_bits c = Nat.iter 8 crc8_shift c.
Proof.
  unfold crc_bits. change (reverse (seqZ 1 8)) with [8; 7; 6; 5; 4; 3; 2; 1].
  cbn [foldl Nat.iter nat_rect]. by rewrite !crc_shift_crc8_shift.
Qed.

Lemma crc_bytes_crc8 (this : AHTxx) :
  length (_rawData this) = 7%nat →
  crc_bytes this = crc8 (take 6 (_rawData this)).
Proof.
  intros Hlen. unfold crc_bytes, crc8, rawData_at.
  destruct (_rawData this) as [|b0 [|b1 [|b2 [|b3 [|b4 [|b5 [|b6 [|]]]]]]]]; try done.
  change (seqZ 0 6) with [0; 1; 2; 3; 4; 5].
  cbn [take foldl]. unfold crc8_update, uint8.
  rewrite !crc_bits_crc8. reflexivity.
Qed.

Lemma checkCRC8_spec (this : AHTxx) :
  length (_rawData this) = 7%nat →
  _checkCRC8 this = true ↔
  _sensorType this = AHT1x_SENSOR ∨ crc8 (take 6 (_rawData this)) = rawData_at this 6.
Proof.
  intros Hlen. unfold _checkCRC8. rewrite crc_bytes_crc8 by done.
  destruct (decide (_sensorType this = AHT2x_SENSOR)) as [E|E].
  - rewrite bool_decide_eq_true, E. split; [by right | by intros [?|?]].
  - split; [|done]. intros _. left. by destruct (_sensorType this).
Qed.

Ltac follows_here :=
  repeat (apply follows_cons; first [left; split; reflexivity | right]).

Section Integrity.
Context {hdr : Header} {W : Type} {env : Arduino W} {R : Type}.

(** C4: [_checkCRC8] computes the CRC-8 of bytes 0 to 5 with initial
    value 0xFF and polynomial 0x31, most significant bit first, no final
    XOR, and compares it with byte 6; the transaction of an AHT2x ends
    with status [AHTXX_CRC8_ERROR] exactly when the frame arrived, the
    sensor is not busy and the two differ; for an AHT1x the check always
    passes. *)
Theorem integrity_check (this : AHTxx) (w : W) :
  wf this →
  let r := _readMeasurement (R:=R) this w in
  let frame_arrived :=
    follows (trace_of r)
            (EvRequest (_address this) (frame_length (_sensorType this)) true)
            (EvAvailable (frame_length (_sensorType this))) in
  let crc := crc8 (take 6 (_rawData (this_of r))) in
  (* the code computes the checksum of the specification *)
  (∀ s : AHTxx, wf s → crc_bytes s = crc8 (take 6 (_rawData s))) ∧
  (∀ s : AHTxx, wf s →
     _checkCRC8 s = true ↔
     _sensorType s = AHT1x_SENSOR ∨ crc8 (take 6 (_rawData s)) = rawData_at s 6) ∧
  (* the status it yields *)
  (_status (this_of r) = AHTXX_CRC8_ERROR ↔
     _sensorType this = AHT2x_SENSOR ∧ frame_arrived ∧
     busy (rawData_at (this_of r) 0) = false ∧
     crc ≠ rawData_at (this_of r) 6) ∧
  (_status (this_of r) = AHTXX_NO_ERROR ↔
     frame_arrived ∧
     busy (rawData_at (this_of r) 0) = false ∧
     (_sensorType this = AHT1x_SENSOR ∨ crc = rawData_at (this_of r) 6)).
Proof.
  intros Hwf r frame_arrived crc.
  split; [by intros s [? _]; apply crc_bytes_crc8|].
  split; [by intros s [? _]; apply checkCRC8_spec|].
  pose proof (readMeasurement_transaction (R:=R) this w Hwf) as Ht.
  fold r in Ht. clearbody r.
  pose proof (frame_length_cases (_sensorType this)) as Hlen.
  subst frame_arrived crc.
  destruct Ht as [rc Hrc|n Hn|b k Hk|b bytes Hbytes].
  - split; (split; [done|]); intros H; [destruct H as (_ & H & _)|destruct H as (H & _)].
    all: unfold trigger in H; follows_cases H; simplify_eq; try lia.
  - split; (split; [done|]); intros H; [destruct H as (_ & H & _)|destruct H as (H & _)].
    all: unfold trigger, status_request in H; cbn [app] in H; follows_cases H; simplify_eq; try lia.
  - split; (split; [done|]); intros H; [destruct H as (_ & H & _)|destruct H as (H & _)].
    all: unfold trigger, status_request, frame_request, wait in H.
    all: destruct (busy (uint8 b)); cbn [app] in H; follows_cases H; simplify_eq/=;
      done || lia.
  - set (this' := store 0 bytes (with_rawData 0 b this)).
    assert (Hwf' : wf this') by by apply wf_store, wf_with_rawData.
    assert (Hty : _sensorType this' = _sensorType this)
      by (unfold this'; by rewrite sensorType_store).
    assert (Harr : follows
      (trigger (_address this) 0 ++ status_request (_address this) 1 ++ [EvRead b] ++
       wait b ++
       frame_request (_address this) (frame_length (_sensorType this))
                     (frame_length (_sensorType this)) ++ (EvRead <$> bytes))
      (EvRequest (_address this) (frame_length (_sensorType this)) true)
      (EvAvailable (frame_length (_sensorType this)))).
    { unfold trigger, status_request, frame_request, wait.
      destruct (busy (uint8 b)); cbn [app]; follows_here. }
    autorewrite with session. unfold verdict. rewrite Hty.
    pose proof (checkCRC8_spec this' (proj1 Hwf')) as Hcrc. rewrite Hty in Hcrc.
    destruct (busy (rawData_at this' 0)).
    { split; (split; [done|]); intros H'; decompose [and] H'; done. }
    destruct (_checkCRC8 this').
    + rewrite andb_false_r. destruct Hcrc as [Hcrc _]. specialize (Hcrc eq_refl).
      split; (split; [done|]).
      * intros (Hs & _ & _ & Hne). destruct Hcrc as [Hc|Hc]; congruence.
      * done.
    + rewrite andb_true_r. destruct Hcrc as [_ Hcrc].
      assert (Hs : _sensorType this = AHT2x_SENSOR).
      { destruct (_sensorType this); [|done]. by discriminate Hcrc; left. }
      assert (Hne : crc8 (take 6 (_rawData this')) ≠ rawData_at this' 6).
      { intros Hc. by discriminate Hcrc; right. }
      rewrite bool_decide_true by done.
      split; (split; [done|]).
      * done.
      * intros (_ & _ & [Hc|Hc]); congruence.
Qed.
End Integrity.

(** ** The accessors *)

Section Accessors.
Context {hdr : Header} {W : Type} {env : Arduino W}.

Lemma readHumidity_buffered {R} (this : AHTxx) (w : W) :
  readHumidity (R:=R) AHTXX_USE_READ_DATA this w =
  Run (Next (if bool_decide (_status this ≠ AHTXX_NO_ERROR)
             then float_of_int AHTXX_ERROR
             else humidity_float (humidity_bits this))) this w [].
Proof.
  unfold readHumidity.
  change (bool_decide (AHTXX_USE_READ_DATA = AHTXX_FORCE_READ_DATA)) with false.
  cbv iota. enter r E. run_in E. subst r.
  case_bool_decide; reflexivity.
Qed.

Lemma readTemperature_buffered {R} (this : AHTxx) (w : W) :
  readTemperature (R:=R) AHTXX_USE_READ_DATA this w =
  Run (Next (if bool_decide (_status this ≠ AHTXX_NO_ERROR)
             then float_of_int AHTXX_ERROR
             else temperature_float (temperature_bits this))) this w [].
Proof.
  unfold readTemperature.
  change (bool_decide (AHTXX_USE_READ_DATA = AHTXX_FORCE_READ_DATA)) with false.
  cbv iota. enter r E. run_in E. subst r.
  case_bool_decide; reflexivity.
Qed.

Lemma readHumidity_forced {R} (this : AHTxx) (w : W) :
  let m := _readMeasurement (R:=float) this w in
  readHumidity (R:=R) AHTXX_FORCE_READ_DATA this w =
  Run (Next (if bool_decide (_status (this_of m) ≠ AHTXX_NO_ERROR)
             then float_of_int AHTXX_ERROR
             else humidity_float (humidity_bits (this_of m))))
      (this_of m) (bus_of m) (trace_of m).
Proof.
  cbv zeta. unfold readHumidity.
  change (bool_decide (AHTXX_FORCE_READ_DATA = AHTXX_FORCE_READ_DATA)) with true.
  cbv iota. enter r E. rewrite step_bind in E.
  pose proof (readMeasurement_flow (R:=float) this w) as Hm.
  destruct (_readMeasurement this w) as [f this' w' t].
  cbn [flow_of] in Hm. subst f. run_in E. subst r.
  repeat case_bool_decide; try done; tidy; rewrite ?app_nil_r; reflexivity.
Qed.

Lemma readTemperature_forced {R} (this : AHTxx) (w : W) :
  let m := _readMeasurement (R:=float) this w in
  readTemperature (R:=R) AHTXX_FORCE_READ_DATA this w =
  Run (Next (if bool_decide (_status (this_of m) ≠ AHTXX_NO_ERROR)
             then float_of_int AHTXX_ERROR
             else temperature_float (temperature_bits (this_of m))))
      (this_of m) (bus_of m) (trace_of m).
Proof.
  cbv zeta. unfold readTemperature.
  change (bool_decide (AHTXX_FORCE_READ_DATA = AHTXX_FORCE_READ_DATA)) with true.
  cbv iota. enter r E. rewrite step_bind in E.
  pose proof (readMeasurement_flow (R:=float) this w) as Hm.
  destruct (_readMeasurement this w) as [f this' w' t].
  cbn [flow_of] in Hm. subst f. run_in E. subst r.
  repeat case_bool_decide; try done; tidy; rewrite ?app_nil_r; reflexivity.
Qed.
End Accessors.

(** ** Mode and reset controls *)

Section Controls.
Context {hdr : Header} {W : Type} {env : Arduino W}.

Lemma setInitializationRegister_run {R} (value : Z) (this : AHTxx) (w : W) :
  let reg := if decide (_sensorType this = AHT1x_SENSOR)
             then AHT1X_INIT_REG else AHT2X_INIT_REG in
  let answer :=
    bus_end true
      (bus_write AHTXX_INIT_CTRL_NOP
         (bus_write (uint8 value)
            (bus_write reg
               (bus_begin (_address this) (clock_delay AHTXX_CMD_DELAY w))))) in
  _setInitializationRegister (R:=R) value this w =
  Run (Next (bool_decide (answer.1 = 0))) this answer.2
      [EvDelay AHTXX_CMD_DELAY; EvBegin (_address this); EvWrite reg;
       EvWrite (uint8 value); EvWrite AHTXX_INIT_CTRL_NOP; EvEnd true answer.1].
Proof.
  unfold _setInitializationRegister. cbv zeta. enter r E. run_in E.
  case_decide; run_in E; subst r; reflexivity.
Qed.




End Controls.

(** ** Trigger failure *)

Section Trigger.
Context {hdr : Header} {W : Type} {env : Arduino W} {R : Type}.

(** C6: when [endTransmission] of the trigger reports a result code other
    than 0, the transaction sets AckError and returns at once: nothing is
    read from the bus and the raw frame is as it was. *)
Theorem trigger_nack_aborts (this : AHTxx) (w : W) (rc : Z) :
  let r := _readMeasurement (R:=R) this w in
  trace_of r !! 4%nat = Some (EvEnd true rc) →
  rc ≠ 0 →
  _status (this_of r) = AHTXX_ACK_ERROR ∧
  _rawData (this_of r) = _rawData this ∧
  this_of r = with_status AHTXX_ACK_ERROR this ∧
  trace_of r = trigger (_address this) rc ∧
  Forall (λ e, is_bus_read e = false) (trace_of r).
Proof.
  cbv zeta. unfold _readMeasurement. enter r E. cbn [trace_of this_of].
  run_in E. destruct (bus_end true _) as [rc' w']. tidy_in E.
  case_bool_decide as Hrc; run_in E; subst r; tidy.
  - intros [= ->] _. repeat split. repeat constructor.
  - intros [= <-] Hne. done.
Qed.
End Trigger.

(** ** Status and the mode and reset controls *)


Section Status.
Context {hdr : Header} {W : Type} {env : Arduino W} {R : Type}.


End Status.

(** ** The 20-bit fields of the frame *)

Lemma uint32_id x : 0 ≤ x < 2 ^ 32 → uint32 x = x.
Proof. intros. by apply Z.mod_small. Qed.

Lemma lor_bound n a b : 0 ≤ a < 2 ^ n → 0 ≤ b < 2 ^ n → 0 ≤ Z.lor a b < 2 ^ n.
Proof.
  intros [Ha Ha'] [Hb Hb']. split; [by apply Z.lor_nonneg|].
  destruct (decide (a = 0)) as [->|Hna]; [by rewrite Z.lor_0_l|].
  destruct (decide (b = 0)) as [->|Hnb]; [by rewrite Z.lor_0_r|].
  assert (0 < Z.lor a b).
  { assert (0 ≤ Z.lor a b) by by apply Z.lor_nonneg.
    enough (Z.lor a b ≠ 0) by lia. intros H0. apply Z.lor_eq_0_iff in H0. lia. }
  apply Z.log2_lt_pow2; [done|]. rewrite Z.log2_lor by lia.
  apply Z.max_lub_lt; apply Z.log2_lt_pow2; lia.
Qed.

Lemma testbit_above n x m : 0 ≤ x < 2 ^ n → n ≤ m → Z.testbit x m = false.
Proof.
  intros Hx Hm. destruct (decide (0 ≤ n)) as [Hn|Hn].
  - rewrite <-(Z.mod_small x (2 ^ n)) by done. apply Z.mod_pow2_bits_high. lia.
  - rewrite Z.pow_neg_r in Hx by lia. lia.
Qed.

Section Fields.
Variable this : AHTxx.
Hypothesis Hwf : wf this.

Let r1 := rawData_at this 1.
Let r2 := rawData_at this 2.
Let r3 := rawData_at this 3.
Let r4 := rawData_at this 4.
Let r5 := rawData_at this 5.

Local Lemma bytes_in_range :
  is_uint8 r1 ∧ is_uint8 r2 ∧ is_uint8 r3 ∧ is_uint8 r4 ∧ is_uint8 r5.
Proof. repeat split; apply rawData_at_is_uint8; done || lia. Qed.

(** The five assignments of [readHumidity] build the word the
    specification writes in one expression. *)
Lemma humidity_bits_spec :
  humidity_bits this = Z.lor (Z.lor (r1 ≪ 12) (r2 ≪ 4)) (r3 ≫ 4).
Proof.
  destruct bytes_in_range as (H1 & H2 & H3 & _). unfold is_uint8 in *.
  unfold humidity_bits. fold r1 r2 r3. cbv zeta.
  assert (0 ≤ r1 ≪ 8 < 2 ^ 16) by (rewrite Z.shiftl_mul_pow2 by lia; lia).
  rewrite (uint32_id (r1 ≪ 8)) by lia.
  assert (0 ≤ Z.lor (r1 ≪ 8) r2 < 2 ^ 16) by (apply lor_bound; lia).
  rewrite uint32_id by (rewrite (Z.shiftl_mul_pow2 (Z.lor _ _)) by lia; lia).
  by rewrite Z.shiftl_lor, Z.shiftl_shiftl by lia.
Qed.

Lemma temperature_bits_spec :
  temperature_bits this = Z.lor (Z.lor (Z.land r3 0x0F ≪ 16) (r4 ≪ 8)) r5.
Proof.
  destruct bytes_in_range as (_ & _ & H3 & H4 & H5). unfold is_uint8 in *.
  unfold temperature_bits. fold r3 r4 r5. cbv zeta.
  assert (0 ≤ Z.land r3 0x0F < 2 ^ 4).
  { change 0x0F with (Z.ones 4). rewrite Z.land_ones by lia.
    apply Z.mod_pos_bound. lia. }
  assert (0 ≤ Z.land r3 0x0F ≪ 8 < 2 ^ 12) by (rewrite Z.shiftl_mul_pow2 by lia; lia).
  rewrite (uint32_id (Z.land r3 0x0F ≪ 8)) by lia.
  assert (0 ≤ Z.lor (Z.land r3 0x0F ≪ 8) r4 < 2 ^ 12) by (apply lor_bound; lia).
  rewrite uint32_id by (rewrite (Z.shiftl_mul_pow2 (Z.lor _ _)) by lia; lia).
  by rewrite Z.shiftl_lor, Z.shiftl_shiftl by lia.
Qed.

Lemma humidity_bits_range : 0 ≤ humidity_bits this < 2 ^ 20.
Proof.
  destruct bytes_in_range as (H1 & H2 & H3 & _). unfold is_uint8 in *.
  rewrite humidity_bits_spec.
  repeat apply lor_bound.
  - rewrite Z.shiftl_mul_pow2 by lia. lia.
  - rewrite Z.shiftl_mul_pow2 by lia. lia.
  - rewrite Z.shiftr_div_pow2 by lia. split; [apply Z.div_pos; lia|].
    apply Z.div_lt_upper_bound; lia.
Qed.

Lemma temperature_bits_range : 0 ≤ temperature_bits this < 2 ^ 20.
Proof.
  destruct bytes_in_range as (_ & _ & H3 & H4 & H5). unfold is_uint8 in *.
  rewrite temperature_bits_spec.
  assert (0 ≤ Z.land r3 0x0F < 2 ^ 4).
  { change 0x0F with (Z.ones 4). rewrite Z.land_ones by lia.
    apply Z.mod_pos_bound. lia. }
  repeat apply lor_bound.
  - rewrite Z.shiftl_mul_pow2 by lia. lia.
  - rewrite Z.shiftl_mul_pow2 by lia. lia.
  - lia.
Qed.
End Fields.

(** A frame that holds the bits of [h] and [t] decodes to [h] and [t]. *)
Lemma bits_of_encoded (this : AHTxx) (h t : Z) :
  0 ≤ h < 2 ^ 20 → 0 ≤ t < 2 ^ 20 → encodes this h t →
  Z.lor (Z.lor (rawData_at this 1 ≪ 12) (rawData_at this 2 ≪ 4)) (rawData_at this 3 ≫ 4) = h ∧
  Z.lor (Z.lor (Z.land (rawData_at this 3) 0x0F ≪ 16) (rawData_at this 4 ≪ 8))
        (rawData_at this 5) = t.
Proof.
  intros Hh Ht (-> & -> & -> & -> & ->).
  change 0xFF with (Z.ones 8). change 0xF with (Z.ones 4). change 0x0F with (Z.ones 4).
  rewrite !Z.land_ones by lia.
  assert (Hcases : ∀ n, 0 ≤ n → n < 4 ∨ 4 ≤ n < 8 ∨ 8 ≤ n < 12 ∨ 12 ≤ n < 16 ∨
                                16 ≤ n < 20 ∨ 20 ≤ n) by lia.
  split; apply Z.bits_inj'; intros n Hn.
  all: destruct (Hcases n Hn) as [?|[?|[?|[?|[?|?]]]]].
  all: repeat first
    [ rewrite Z.lor_spec
    | rewrite Z.shiftl_spec_low by lia
    | rewrite Z.shiftl_spec_high by lia
    | rewrite Z.shiftr_spec by lia
    | rewrite Z.mod_pow2_bits_low by lia
    | rewrite Z.mod_pow2_bits_high by lia
    | rewrite (testbit_above 20 h) by lia
    | rewrite (testbit_above 20 t) by lia
    | rewrite orb_false_r
    | rewrite orb_false_l ].
  all: try reflexivity.
  all: f_equal; lia.
Qed.
(** ** Rounding in binary32 *)

Lemma digits2_pos_bounds (p : positive) :
  2 ^ (Z.pos (digits2_pos p) - 1) ≤ Z.pos p < 2 ^ Z.pos (digits2_pos p).
Proof.
  induction p as [p IH|p IH|]; cbn [digits2_pos].
  - rewrite Pos2Z.inj_succ, (Pos2Z.inj_xI p).
    replace (Z.succ (Z.pos (digits2_pos p)) - 1) with (Z.succ (Z.pos (digits2_pos p) - 1)) by lia.
    rewrite !Z.pow_succ_r by lia.
    revert IH. generalize (2 ^ (Z.pos (digits2_pos p) - 1)), (2 ^ Z.pos (digits2_pos p)). lia.
  - rewrite Pos2Z.inj_succ, (Pos2Z.inj_xO p).
    replace (Z.succ (Z.pos (digits2_pos p)) - 1) with (Z.succ (Z.pos (digits2_pos p) - 1)) by lia.
    rewrite !Z.pow_succ_r by lia.
    revert IH. generalize (2 ^ (Z.pos (digits2_pos p) - 1)), (2 ^ Z.pos (digits2_pos p)). lia.
  - done.
Qed.

Lemma digits2_pos_unique (p : positive) (k : Z) :
  2 ^ (k - 1) ≤ Z.pos p < 2 ^ k → Z.pos (digits2_pos p) = k.
Proof.
  intros [Hlo Hhi]. pose proof (digits2_pos_bounds p) as [Hlo' Hhi'].
  set (d := Z.pos (digits2_pos p)) in *.
  assert (0 < k).
  { destruct (decide (0 < k)); [done|]. rewrite Z.pow_neg_r in Hlo by lia.
    destruct (decide (k = 0)) as [->|]; [simpl in Hhi; lia|].
    rewrite Z.pow_neg_r in Hhi by lia. lia. }
  assert (d - 1 < k) by (apply (Z.pow_lt_mono_r_iff 2); lia).
  assert (k - 1 < d) by (apply (Z.pow_lt_mono_r_iff 2); lia).
  lia.
Qed.

Lemma shifted_0 m : shifted m 0 (Build_shr_record m false false).
Proof.
  unfold shifted; simpl. rewrite Z.div_1_r, Z.mod_1_r. repeat split; try done; lia.
Qed.

Lemma shifted_step m k mrs :
  0 ≤ m → 0 ≤ k → shifted m k mrs → shifted m (k + 1) (shr_1 mrs).
Proof.
  intros Hm Hk (Hq & Hr & Hs). destruct mrs as [q r s]. cbn [shr_m shr_r shr_s] in *.
  assert (Hpow : 2 ^ (k + 1) = 2 * 2 ^ k) by (rewrite Z.pow_add_r by lia; lia).
  assert (0 < 2 ^ k) by (apply Z.pow_pos_nonneg; lia).
  pose proof (Z.mod_pos_bound m (2 ^ k) ltac:(lia)) as Hrem.
  assert (Hdiv : m / 2 ^ (k + 1) = q / 2).
  { rewrite Hpow, Hq. rewrite (Z.mul_comm 2), Z.div_div by lia. done. }
  assert (Hmod : m mod 2 ^ (k + 1) = (q mod 2) * 2 ^ k + m mod 2 ^ k).
  { rewrite Hpow, Hq. rewrite (Z.mul_comm 2), Z.rem_mul_r by lia. lia. }
  pose proof (Z.mod_pos_bound q 2 ltac:(lia)) as Hq2.
  assert (Hshr : shr_1 (Build_shr_record q r s) =
                 Build_shr_record (q / 2) (Z.odd q) (r || s)).
  { assert (0 ≤ q) by (subst q; apply Z.div_pos; lia).
    destruct q as [|[p|p|]|p]; try done; try lia.
    - cbn [shr_1]. f_equal. rewrite (Pos2Z.inj_xI p).
      apply (Z.div_unique _ _ _ 1); lia.
    - cbn [shr_1]. f_equal. rewrite (Pos2Z.inj_xO p).
      apply (Z.div_unique _ _ _ 0); lia. }
  rewrite Hshr. unfold shifted. cbn [shr_m shr_r shr_s].
  rewrite Hdiv, Hmod, Hpow.
  assert (Hodd : Z.odd q = true ↔ q mod 2 = 1).
  { rewrite Zmod_odd. destruct (Z.odd q); split; done || lia. }
  split; [done|].
  assert (q mod 2 = 0 ∨ q mod 2 = 1) as [H2|H2] by lia; rewrite H2 in *.
  all: split; split.
  all: rewrite ?orb_true_iff, ?Hodd, ?Hr, ?Hs; lia.
Qed.

Lemma shifted_iter m p k mrs :
  0 ≤ m → 0 ≤ k → shifted m k mrs → shifted m (k + Z.pos p) (SpecFloat.iter_pos shr_1 p mrs).
Proof.
  intros Hm. revert k mrs. induction p as [p IH|p IH|]; intros k mrs Hk H; cbn [SpecFloat.iter_pos].
  - replace (k + Z.pos p~1) with (k + 1 + Z.pos p + Z.pos p) by lia.
    apply IH; [lia|]. apply IH; [lia|]. by apply shifted_step.
  - replace (k + Z.pos p~0) with (k + Z.pos p + Z.pos p) by lia.
    apply IH; [lia|]. by apply IH.
  - by apply shifted_step.
Qed.

Lemma shifted_round m k mrs :
  0 ≤ k → shifted m k mrs →
  round_nearest_even (shr_m mrs) (loc_of_shr_record mrs) = rne m k.
Proof.
  intros Hk (Hq & Hr & Hs). destruct mrs as [q r s]. cbn [shr_m shr_r shr_s] in *.
  unfold rne. cbv zeta. rewrite <-Hq.
  assert (0 < 2 ^ k) by (apply Z.pow_pos_nonneg; lia).
  pose proof (Z.mod_pos_bound m (2 ^ k) ltac:(lia)) as Hrem.
  destruct (Z.compare_spec (2 * (m mod 2 ^ k)) (2 ^ k)) as [Heq|Hlt|Hgt].
  - assert (r = true) as -> by (apply Hr; lia).
    assert (s = false) as ->.
    { destruct s; [|done]. destruct Hs as [Hs _]. destruct (Hs eq_refl). lia. }
    done.
  - assert (r = false) as ->.
    { destruct r; [|done]. destruct Hr as [Hr _]. specialize (Hr eq_refl). lia. }
    by destruct s.
  - assert (r = true) as -> by (apply Hr; lia).
    assert (s = true) as -> by (apply Hs; lia).
    done.
Qed.

Lemma rne_bounds m n : 0 ≤ n → m / 2 ^ n ≤ rne m n ≤ m / 2 ^ n + 1.
Proof.
  intros Hn. unfold rne. cbv zeta.
  destruct (_ ?= _); [destruct (Z.even _)|..]; lia.
Qed.

Lemma rne_0 m : rne m 0 = m.
Proof. unfold rne. cbv zeta. rewrite Z.pow_0_r, Z.div_1_r, Z.mod_1_r. done. Qed.

Lemma rne_exact m n : 0 ≤ n → m mod 2 ^ n = 0 → rne m n = m / 2 ^ n.
Proof.
  intros Hn Hrem. unfold rne. cbv zeta. rewrite Hrem.
  assert (0 < 2 ^ n) by (apply Z.pow_pos_nonneg; lia).
  destruct (Z.compare_spec (2 * 0) (2 ^ n)); lia.
Qed.

Lemma shifted_mantissa (m : positive) (d n : Z) :
  Z.pos (digits2_pos m) = d → 0 ≤ n → n = d - 24 →
  2 ^ 23 ≤ Z.pos m / 2 ^ n < 2 ^ 24.
Proof.
  intros Hd Hn ->. pose proof (digits2_pos_bounds m) as [Hlo Hhi]. rewrite Hd in *.
  assert (0 < 2 ^ (d - 24)) by (apply Z.pow_pos_nonneg; lia).
  assert (E1 : 2 ^ (d - 1) = 2 ^ 23 * 2 ^ (d - 24))
    by (rewrite <-Z.pow_add_r by lia; f_equal; lia).
  assert (E2 : 2 ^ d = 2 ^ 24 * 2 ^ (d - 24))
    by (rewrite <-Z.pow_add_r by lia; f_equal; lia).
  rewrite E1 in Hlo. rewrite E2 in Hhi.
  split.
  - apply Z.div_le_lower_bound; lia.
  - apply Z.div_lt_upper_bound; lia.
Qed.

(** [binary_round_aux] on a mantissa of [d] digits, in the range of the
    normal numbers: the mantissa is shifted right by [d - 24] digits and
    rounded to nearest even. *)
Lemma round_aux_normal (s : bool) (m : positive) (e : Z) :
  let d := Z.pos (digits2_pos m) in
  let n := Z.max 0 (d - 24) in
  -149 ≤ d + e - 24 → e + n + 1 ≤ 104 →
  binary_round_aux prec32 emax32 s (Z.pos m) e loc_Exact =
  if rne (Z.pos m) n =? 2 ^ 24
  then S754_finite s (Z.to_pos (2 ^ 23)) (e + n + 1)
  else S754_finite s (Z.to_pos (rne (Z.pos m) n)) (e + n).
Proof.
  intros d n Hlo Hhi.
  pose proof (digits2_pos_bounds m) as Hm. fold d in Hm.
  unfold binary_round_aux, shr_fexp, fexp, emin, prec32, emax32.
  cbn [Zdigits2]. fold d.
  replace (Z.max (d + e - 24) (3 - 128 - 24)) with (d + e - 24) by lia.
  replace (d + e - 24 - e) with (d - 24) by lia.
  destruct (d - 24) as [|p|p] eqn:Hshift.
  - (* exactly 24 digits *)
    assert (n = 0) as -> by lia. rewrite rne_0, Z.add_0_r.
    cbn [shr shr_record_of_loc shr_m loc_of_shr_record round_nearest_even Zdigits2]. fold d.
    replace (Z.max (d + e - 24) (3 - 128 - 24) - e) with 0 by lia.
    cbn [shr shr_m]. rewrite (proj2 (Z.leb_le e (128 - 24))) by lia.
    replace (Z.pos m =? 2 ^ 24) with false; [done|].
    symmetry. apply Z.eqb_neq. replace d with 24 in Hm by lia. lia.
  - (* more than 24 digits *)
    assert (n = Z.pos p) as -> by lia.
    cbn [shr shr_record_of_loc].
    pose proof (shifted_iter (Z.pos m) p 0 _ ltac:(lia) ltac:(lia) (shifted_0 _)) as Hsh.
    rewrite Z.add_0_l in Hsh.
    rewrite (shifted_round (Z.pos m) (Z.pos p) _ ltac:(lia) Hsh).
    pose proof (rne_bounds (Z.pos m) (Z.pos p) ltac:(lia)) as Hq.
    pose proof (shifted_mantissa m d (Z.pos p) eq_refl ltac:(lia) ltac:(lia)) as Hq0.
    set (q := rne (Z.pos m) (Z.pos p)) in *.
    destruct (Z.eqb_spec q (2 ^ 24)) as [Heq|Hne].
    + rewrite Heq. change (2 ^ 24) with 16777216. change (2 ^ 23) with 8388608.
      change (Zdigits2 16777216) with 25.
      replace (Z.max (25 + (e + Z.pos p) - 24) (3 - 128 - 24) - (e + Z.pos p)) with 1 by lia.
      cbn [shr SpecFloat.iter_pos shr_1 shr_m Z.to_pos].
      rewrite (proj2 (Z.leb_le _ (128 - 24))) by lia. done.
    + destruct q as [|q'|q'] eqn:Eq; try lia.
      cbn [Zdigits2]. rewrite (digits2_pos_unique q' 24) by lia.
      replace (Z.max (24 + (e + Z.pos p) - 24) (3 - 128 - 24) - (e + Z.pos p)) with 0 by lia.
      cbn [shr shr_record_of_loc shr_m]. rewrite (proj2 (Z.leb_le _ (128 - 24))) by lia.
      done.
  - (* fewer than 24 digits: no shift *)
    assert (n = 0) as -> by lia. rewrite rne_0, Z.add_0_r.
    cbn [shr shr_record_of_loc shr_m loc_of_shr_record round_nearest_even Zdigits2]. fold d.
    replace (Z.max (d + e - 24) (3 - 128 - 24)) with (d + e - 24) by lia.
    replace (d + e - 24 - e) with (Z.neg p) by lia.
    cbn [shr shr_m]. rewrite (proj2 (Z.leb_le e (128 - 24))) by lia.
    replace (Z.pos m =? 2 ^ 24) with false; [done|].
    symmetry. apply Z.eqb_neq.
    assert (2 ^ d ≤ 2 ^ 23) by (apply Z.pow_le_mono_r; lia). lia.
Qed.

Lemma pos_iter_xO (p k : positive) : Z.pos (Pos.iter xO p k) = Z.pos p * 2 ^ Z.pos k.
Proof.
  induction k as [|k IH] using Pos.peano_ind.
  - cbn [Pos.iter]. lia.
  - rewrite Pos.iter_succ, Pos2Z.inj_succ, Z.pow_succ_r, (Pos2Z.inj_xO (Pos.iter _ _ _)), IH by lia.
    lia.
Qed.

(** [binary_round]: a mantissa of fewer than 24 digits is first padded
    with zeros. *)
Lemma round_normal (s : bool) (m : positive) (e : Z) :
  let d := Z.pos (digits2_pos m) in
  -149 ≤ d + e - 24 → d + e - 24 + 1 ≤ 104 →
  binary_round prec32 emax32 s m e =
  if d <? 24 then S754_finite s (Z.to_pos (Z.pos m * 2 ^ (24 - d))) (d + e - 24)
  else binary_round_aux prec32 emax32 s (Z.pos m) e loc_Exact.
Proof.
  intros d Hlo Hhi.
  pose proof (digits2_pos_bounds m) as Hm. fold d in Hm.
  unfold binary_round, shl_align, fexp, emin, prec32, emax32. fold d.
  replace (Z.max (d + e - 24) (3 - 128 - 24)) with (d + e - 24) by lia.
  replace (d + e - 24 - e) with (d - 24) by lia.
  destruct (Z.ltb_spec d 24) as [Hd|Hd].
  - destruct (d - 24) as [|k|k] eqn:Hk; try lia.
    assert (Hmz : Z.pos (Pos.iter xO m k) = Z.pos m * 2 ^ (24 - d)).
    { rewrite pos_iter_xO. do 2 f_equal. lia. }
    assert (0 < 2 ^ (24 - d)) by (apply Z.pow_pos_nonneg; lia).
    assert (Hdz : Z.pos (digits2_pos (Pos.iter xO m k)) = 24).
    { apply digits2_pos_unique. rewrite Hmz.
      assert (E1 : 2 ^ (24 - 1) = 2 ^ (d - 1) * 2 ^ (24 - d))
        by (rewrite <-Z.pow_add_r by lia; f_equal; lia).
      assert (E2 : 2 ^ 24 = 2 ^ d * 2 ^ (24 - d))
        by (rewrite <-Z.pow_add_r by lia; f_equal; lia).
      rewrite E1, E2. nia. }
    pose proof (round_aux_normal s (Pos.iter xO m k) (d + e - 24)) as Hr.
    cbv zeta in Hr. unfold prec32, emax32 in Hr. rewrite Hdz in Hr. change (Z.max 0 (24 - 24)) with 0 in Hr.
    rewrite rne_0, Z.add_0_r in Hr. rewrite Hr by lia.
    rewrite Hmz. replace (_ =? 2 ^ 24) with false; [by rewrite <-Hmz|].
    symmetry. apply Z.eqb_neq. rewrite <-Hmz.
    pose proof (digits2_pos_bounds (Pos.iter xO m k)) as Hb. rewrite Hdz in Hb. lia.
  - destruct (d - 24) as [|k|k] eqn:Hk; try lia; reflexivity.
Qed.

(** ** The float operations of the accessors *)

Lemma Zdigits2_bounds h : 0 < h → 2 ^ (Zdigits2 h - 1) ≤ h < 2 ^ Zdigits2 h.
Proof. destruct h as [|p|p]; try lia. intros _. apply digits2_pos_bounds. Qed.

Lemma Zdigits2_le h k : 0 < h < 2 ^ k → 0 < Zdigits2 h ≤ k.
Proof.
  intros [Hh Hk]. pose proof (Zdigits2_bounds h Hh) as [Hlo _].
  destruct h as [|p|p]; try lia. cbn [Zdigits2] in *. split; [lia|].
  destruct (decide (Z.pos (digits2_pos p) ≤ k)); [done|].
  assert (2 ^ k ≤ 2 ^ (Z.pos (digits2_pos p) - 1)) by (apply Z.pow_le_mono_r; lia). lia.
Qed.

Lemma mantissa_bounds h : 0 < h < 2 ^ 24 → 2 ^ 23 ≤ mantissa h < 2 ^ 24.
Proof.
  intros Hh. pose proof (Zdigits2_bounds h ltac:(lia)) as [Hlo Hhi].
  pose proof (Zdigits2_le h 24 Hh) as Hd. unfold mantissa.
  set (d := Zdigits2 h) in *.
  assert (0 < 2 ^ (24 - d)) by (apply Z.pow_pos_nonneg; lia).
  assert (E1 : 2 ^ 23 = 2 ^ (d - 1) * 2 ^ (24 - d))
    by (rewrite <-Z.pow_add_r by lia; f_equal; lia).
  assert (E2 : 2 ^ 24 = 2 ^ d * 2 ^ (24 - d))
    by (rewrite <-Z.pow_add_r by lia; f_equal; lia).
  rewrite E1, E2. nia.
Qed.

(** [(float)h] is exact. *)
Lemma float_of_int_exact (h : Z) :
  0 < h < 2 ^ 24 →
  float_of_int h = S754_finite false (Z.to_pos (mantissa h)) (exponent h).
Proof.
  intros Hh. pose proof (Zdigits2_le h 24 Hh) as Hd.
  pose proof (mantissa_bounds h Hh) as Hm. unfold mantissa, exponent in *.
  destruct h as [|p|p]; try lia. cbn [Zdigits2] in *.
  unfold float_of_int, binary_normalize.
  rewrite round_normal by lia. rewrite Z.add_0_r.
  destruct (Z.ltb_spec (Z.pos (digits2_pos p)) 24) as [Hlt|Hge]; [done|].
  assert (Hd24 : Z.pos (digits2_pos p) = 24) by lia.
  rewrite round_aux_normal by lia. rewrite Hd24.
  change (Z.max 0 (24 - 24)) with 0. rewrite rne_0.
  rewrite Hd24 in Hm. change (24 - 24) with 0 in *. rewrite Z.pow_0_r, Z.mul_1_r in *.
  rewrite (proj2 (Z.eqb_neq _ _)) by lia. done.
Qed.

(** Division by [0x100000] is exact: it lowers the exponent by 20. *)
Lemma fdiv_0x100000 (s : bool) (m : positive) (e : Z) :
  Z.pos (digits2_pos m) = 24 → -100 ≤ e ≤ 100 →
  fdiv (S754_finite s m e) (float_of_int 0x100000) = S754_finite s m (e - 20).
Proof.
  intros Hd He. pose proof (digits2_pos_bounds m) as Hm. rewrite Hd in Hm.
  change (float_of_int 0x100000) with (S754_finite false 8388608 (-3)).
  unfold fdiv, SFdiv, SFdiv_core_binary, fexp, emin, prec32, emax32.
  cbn [Zdigits2]. rewrite Hd. change (Z.pos (digits2_pos 8388608)) with 24.
  replace (Z.min (Z.max (24 + e - (24 + -3) - 24) (3 - 128 - 24)) (e - -3))
    with (e - 21) by lia.
  replace (e - -3 - (e - 21)) with 24 by lia.
  assert (Hdiv : Z.div_eucl (Z.pos m ≪ 24) 8388608 = (Z.pos m~0, 0)).
  { rewrite Z.shiftl_mul_pow2 by lia.
    pose proof (Z.div_eucl_eq (Z.pos m * 2 ^ 24) 8388608 ltac:(lia)) as Heq.
    pose proof (Z.mod_pos_bound (Z.pos m * 2 ^ 24) 8388608 ltac:(lia)) as Hmod.
    unfold Z.modulo in Hmod.
    destruct (Z.div_eucl (Z.pos m * 2 ^ 24) 8388608) as [q r].
    change (2 ^ 24) with 16777216 in Heq. f_equal; lia. }
  cbv zeta. change (Z.pos m ≪ 24) with (Z.shiftl (Z.pos m) 24) in Hdiv.
  cbn [Z.shiftl] in Hdiv |- *. rewrite Hdiv.
  change (new_location 8388608 0) with loc_Exact.
  fold prec32 emax32. rewrite round_aux_normal.
  - cbn [digits2_pos]. rewrite Pos2Z.inj_succ, Hd. change (Z.max 0 (Z.succ 24 - 24)) with 1.
    rewrite rne_exact by (lia || (rewrite (Pos2Z.inj_xO m), Z.mul_comm; apply Z.mod_mul; lia)).
    replace (Z.pos m~0 / 2 ^ 1) with (Z.pos m)
      by (rewrite (Pos2Z.inj_xO m), Z.mul_comm, Z.div_mul; lia).
    rewrite (proj2 (Z.eqb_neq _ _)) by lia. rewrite xorb_false_r. cbn [Z.to_pos].
    f_equal. lia.
  - cbn [digits2_pos]. rewrite Pos2Z.inj_succ, Hd. lia.
  - cbn [digits2_pos]. rewrite Pos2Z.inj_succ, Hd. lia.
Qed.

(** ** Values, scaled by [2^60] *)

Lemma rne_error m n : 0 ≤ n → 2 * Z.abs (rne m n * 2 ^ n - m) ≤ 2 ^ n.
Proof.
  intros Hn. unfold rne. cbv zeta.
  assert (0 < 2 ^ n) by (apply Z.pow_pos_nonneg; lia).
  pose proof (Z.div_mod m (2 ^ n) ltac:(lia)) as Hdm.
  pose proof (Z.mod_pos_bound m (2 ^ n) ltac:(lia)) as Hrem.
  destruct (Z.compare_spec (2 * (m mod 2 ^ n)) (2 ^ n)); [destruct (Z.even _)|..]; nia.
Qed.

Lemma rne_le m n c : 0 ≤ n → m ≤ c * 2 ^ n → rne m n ≤ c.
Proof.
  intros Hn Hm.
  assert (0 < 2 ^ n) by (apply Z.pow_pos_nonneg; lia).
  pose proof (Z.div_mod m (2 ^ n) ltac:(lia)) as Hdm.
  pose proof (Z.mod_pos_bound m (2 ^ n) ltac:(lia)) as Hrem.
  pose proof (rne_bounds m n Hn) as Hb.
  destruct (decide (m / 2 ^ n < c)); [lia|].
  assert (m / 2 ^ n = c) by nia.
  rewrite rne_exact; [lia|lia|nia].
Qed.

Lemma rne_ge m n c : 0 ≤ n → c * 2 ^ n ≤ m → c ≤ rne m n.
Proof.
  intros Hn Hm.
  assert (0 < 2 ^ n) by (apply Z.pow_pos_nonneg; lia).
  pose proof (rne_bounds m n Hn) as Hb.
  assert (c ≤ m / 2 ^ n) by (apply Z.div_le_lower_bound; lia). lia.
Qed.

(** Rounding a mantissa of [d] digits at exponent [e]. *)
Lemma rne_rounds_to (m : positive) (e : Z) :
  let n := Z.max 0 (Z.pos (digits2_pos m) - 24) in
  -60 ≤ e →
  rounds_to (Z.pos m * 2 ^ (e + 60)) (rne (Z.pos m) n * 2 ^ (e + n + 60)).
Proof.
  intros n He. pose proof (digits2_pos_bounds m) as [Hlo Hhi].
  set (d := Z.pos (digits2_pos m)) in *.
  assert (Hn : 0 ≤ n) by lia.
  assert (Hnd : n = 0 ∨ d - 1 = 23 + n) by lia.
  clearbody n d.
  assert (HU : 0 < 2 ^ (e + 60)) by (apply Z.pow_pos_nonneg; lia).
  assert (EU : 2 ^ (e + n + 60) = 2 ^ n * 2 ^ (e + 60))
    by (rewrite <-Z.pow_add_r by lia; f_equal; lia).
  rewrite EU. clear EU.
  destruct (decide (n = 0)) as [->|Hn0].
  { rewrite rne_0, Z.pow_0_r, Z.mul_1_l. split.
    - rewrite Z.sub_diag. simpl. lia.
    - done. }
  destruct Hnd as [?|Hd]; [done|].
  assert (HN : 0 < 2 ^ n) by (apply Z.pow_pos_nonneg; lia).
  pose proof (rne_error (Z.pos m) n Hn) as Herr.
  assert (Hbig : 8388608 * 2 ^ n ≤ Z.pos m).
  { rewrite Hd in Hlo. by rewrite Z.pow_add_r in Hlo by lia. }
  assert (Hexp : ∀ J, Z.pos m * 2 ^ (e + 60) < 2 ^ J → e + n + 60 ≤ J - 24).
  { intros J HT.
    assert (2 ^ (23 + n + (e + 60)) < 2 ^ J) as Hlt.
    { rewrite !Z.pow_add_r by lia. change (2 ^ 23) with 8388608. nia. }
    apply Z.pow_lt_mono_r_iff in Hlt; try lia.
    destruct (decide (0 ≤ J)); [done|]. rewrite (Z.pow_neg_r 2 J) in Hlt by lia.
    assert (0 < 2 ^ (23 + n + (e + 60))) by (apply Z.pow_pos_nonneg; lia). lia. }
  assert (Hlift : ∀ J, e + n + 60 ≤ J - 24 →
            2 ^ (J - 24) = 2 ^ (J - 24 - (e + n + 60)) * (2 ^ n * 2 ^ (e + 60)) ∧
            0 < 2 ^ (J - 24 - (e + n + 60))).
  { intros J HJ. split; [|apply Z.pow_pos_nonneg; lia].
    rewrite <-!Z.pow_add_r by lia. f_equal. lia. }
  pose proof (λ c, rne_le (Z.pos m) n c Hn) as Hle.
  pose proof (λ c, rne_ge (Z.pos m) n c Hn) as Hge.
  revert Herr Hbig Hexp Hlift Hle Hge.
  generalize (rne (Z.pos m) n) (2 ^ (e + 60)) (2 ^ n) HU HN.
  intros R U N HU' HN' Herr Hbig Hexp Hlift Hle Hge.
  split.
  - change (2 ^ 24) with 16777216.
    replace (R * (N * U) - Z.pos m * U) with ((R * N - Z.pos m) * U) by ring.
    rewrite Z.abs_mul, (Z.abs_eq U) by lia. nia.
  - intros J c HJ HT. specialize (Hexp J HT). destruct (Hlift J Hexp) as [-> HK].
    revert HK. generalize (2 ^ (J - 24 - (e + n + 60))). intros K HK.
    split; intros Hc.
    + replace (c * (K * (N * U))) with (c * K * (N * U)) in * by ring.
      apply Z.mul_le_mono_nonneg_r; [nia|]. apply Hle. nia.
    + replace (c * (K * (N * U))) with (c * K * (N * U)) in * by ring.
      apply Z.mul_le_mono_nonneg_r; [nia|]. apply Hge. nia.
Qed.

Lemma round_aux_rounds (s : bool) (m : positive) (e : Z) :
  -60 ≤ e → Z.pos m * 2 ^ (e + 60) < 2 ^ 120 →
  ∃ m' e' V,
    binary_round_aux prec32 emax32 s (Z.pos m) e loc_Exact = S754_finite s m' e' ∧
    e + Z.max 0 (Z.pos (digits2_pos m) - 24) ≤ e' ≤ 104 ∧
    Z.pos m' * 2 ^ (e' + 60) = V ∧
    rounds_to (Z.pos m * 2 ^ (e + 60)) V.
Proof.
  intros He HT. pose proof (rne_rounds_to m e He) as Hr.
  pose proof (digits2_pos_bounds m) as [Hlo Hhi].
  pose proof (round_aux_normal s m e) as Hn. cbv zeta in *.
  set (d := Z.pos (digits2_pos m)) in *.
  set (n := Z.max 0 (d - 24)) in *.
  assert (Hd0 : 0 < d) by (unfold d; lia).
  assert (Hmag : d + e + 60 ≤ 120).
  { assert (2 ^ (d - 1 + (e + 60)) < 2 ^ 120) as Hlt.
    { rewrite Z.pow_add_r by lia.
      assert (0 < 2 ^ (e + 60)) by (apply Z.pow_pos_nonneg; lia). nia. }
    apply Z.pow_lt_mono_r_iff in Hlt; lia. }
  rewrite Hn by lia. clear Hn.
  pose proof (rne_bounds (Z.pos m) n ltac:(lia)) as Hb.
  assert (Hq : 0 < rne (Z.pos m) n).
  { assert (0 < Z.pos m / 2 ^ n); [|lia].
    apply Z.div_str_pos. split; [apply Z.pow_pos_nonneg; lia|].
    destruct (decide (n = 0)) as [->|]; [simpl; lia|].
    assert (2 ^ n ≤ 2 ^ (d - 1)) by (apply Z.pow_le_mono_r; lia). lia. }
  destruct (Z.eqb_spec (rne (Z.pos m) n) (2 ^ 24)) as [Heq|Hne].
  - eexists _, _, _. split; [done|]. split; [lia|]. split; [|done].
    rewrite Heq. change (Z.pos (Z.to_pos (2 ^ 23))) with (2 ^ 23).
    replace (e + n + 1 + 60) with (1 + (e + n + 60)) by lia.
    rewrite (Z.pow_add_r 2 1) by lia. change (2 ^ 24) with (2 ^ 23 * 2 ^ 1). ring.
  - eexists _, _, _. split; [done|]. split; [lia|]. split; [|done].
    by rewrite Z2Pos.id by lia.
Qed.

Lemma round_rounds (s : bool) (m : positive) (e : Z) :
  -36 ≤ e → Z.pos m * 2 ^ (e + 60) < 2 ^ 120 →
  ∃ m' e' V,
    binary_round prec32 emax32 s m e = S754_finite s m' e' ∧
    -60 ≤ e' ≤ 104 ∧
    Z.pos m' * 2 ^ (e' + 60) = V ∧
    rounds_to (Z.pos m * 2 ^ (e + 60)) V.
Proof.
  intros He HT. pose proof (digits2_pos_bounds m) as [Hlo Hhi].
  pose proof (round_normal s m e) as Hn. cbv zeta in Hn.
  set (d := Z.pos (digits2_pos m)) in *.
  assert (Hd0 : 0 < d) by (unfold d; lia).
  assert (Hmag : d + e + 60 ≤ 120).
  { assert (2 ^ (d - 1 + (e + 60)) < 2 ^ 120) as Hlt.
    { rewrite Z.pow_add_r by lia.
      assert (0 < 2 ^ (e + 60)) by (apply Z.pow_pos_nonneg; lia). nia. }
    apply Z.pow_lt_mono_r_iff in Hlt; lia. }
  rewrite Hn by lia. clear Hn.
  destruct (Z.ltb_spec d 24) as [Hd|Hd].
  - pose proof (rne_rounds_to m e ltac:(lia)) as Hr. cbv zeta in Hr. fold d in Hr.
    replace (Z.max 0 (d - 24)) with 0 in Hr by lia.
    rewrite rne_0, Z.add_0_r in Hr.
    assert (0 < 2 ^ (24 - d)) by (apply Z.pow_pos_nonneg; lia).
    eexists _, _, _. split; [done|]. split; [lia|]. split; [|done].
    rewrite Z2Pos.id by lia.
    rewrite <-Z.mul_assoc, <-Z.pow_add_r by lia. do 2 f_equal. lia.
  - destruct (round_aux_rounds s m e ltac:(lia) HT) as (m' & e' & V & -> & He' & HV & Hr).
    eexists _, _, _. split; [done|]. split; [lia|]. done.
Qed.

(** A product of two 24-digit mantissas, rounded. *)
Lemma fmul_rounds (sx sy : bool) (mx my : positive) (ex ey : Z) :
  Z.pos (digits2_pos mx) = 24 → Z.pos (digits2_pos my) = 24 →
  -60 ≤ ex + ey ≤ 0 →
  ∃ m' e' V,
    fmul (S754_finite sx mx ex) (S754_finite sy my ey) = S754_finite (xorb sx sy) m' e' ∧
    ex + ey + 23 ≤ e' ≤ 104 ∧
    Z.pos m' * 2 ^ (e' + 60) = V ∧
    rounds_to (Z.pos mx * Z.pos my * 2 ^ (ex + ey + 60)) V.
Proof.
  intros Hdx Hdy He.
  pose proof (digits2_pos_bounds mx) as Hx. rewrite Hdx in Hx.
  pose proof (digits2_pos_bounds my) as Hy. rewrite Hdy in Hy.
  change (2 ^ 24) with 16777216 in *. change (2 ^ (24 - 1)) with 8388608 in *.
  assert (Hp : 2 ^ 46 ≤ Z.pos (mx * my) < 2 ^ 48).
  { rewrite Pos2Z.inj_mul. change (2 ^ 46) with (8388608 * 8388608).
    change (2 ^ 48) with (16777216 * 16777216). nia. }
  assert (Hd : 47 ≤ Z.pos (digits2_pos (mx * my))).
  { pose proof (digits2_pos_bounds (mx * my)) as [_ Hhi].
    destruct (decide (47 ≤ Z.pos (digits2_pos (mx * my)))); [done|].
    assert (2 ^ Z.pos (digits2_pos (mx * my)) ≤ 2 ^ 46) by (apply Z.pow_le_mono_r; lia).
    lia. }
  destruct (round_aux_rounds (xorb sx sy) (mx * my) (ex + ey)) as (m' & e' & V & Hr & He' & HV & Hrnd).
  - lia.
  - assert (2 ^ (ex + ey + 60) ≤ 2 ^ 60) by (apply Z.pow_le_mono_r; lia).
    change (2 ^ 120) with (2 ^ 48 * 2 ^ 60 * 2 ^ 12).
    assert (0 < 2 ^ (ex + ey + 60)) by (apply Z.pow_pos_nonneg; lia).
    change (2 ^ 60) with 1152921504606846976 in *. change (2 ^ 12) with 4096.
    nia.
  - exists m', e', V. unfold fmul, SFmul. rewrite Hr. rewrite <-Pos2Z.inj_mul.
    split; [done|]. split; [lia|]. done.
Qed.

Lemma shl_align_fst (m : positive) (e ez : Z) :
  ez ≤ e → Z.pos (shl_align m e ez).1 = Z.pos m * 2 ^ (e - ez).
Proof.
  intros He. unfold shl_align. destruct (ez - e) as [|k|k] eqn:Hk; try lia.
  - replace (e - ez) with 0 by lia. simpl. lia.
  - cbn [fst]. rewrite pos_iter_xO. do 2 f_equal. lia.
Qed.

(** A difference, rounded. *)
Lemma fsub_rounds (sx sy : bool) (mx my : positive) (ex ey : Z) :
  -36 ≤ ex ≤ 104 → -36 ≤ ey ≤ 104 →
  let T := scaled (S754_finite sx mx ex) - scaled (S754_finite sy my ey) in
  let r := fsub (S754_finite sx mx ex) (S754_finite sy my ey) in
  Z.abs T < 2 ^ 120 →
  in_range r ∧
  (T = 0 → scaled r = 0) ∧
  (T ≠ 0 → ∃ V, scaled r = Z.sgn T * V ∧ rounds_to (Z.abs T) V).
Proof.
  intros Hx Hy T r HT.
  set (ez := Z.min ex ey).
  assert (HU : 0 < 2 ^ (ez + 60)) by (apply Z.pow_pos_nonneg; lia).
  assert (Hr : r = binary_normalize prec32 emax32
                 (sgn sx * (Z.pos mx * 2 ^ (ex - ez)) - sgn sy * (Z.pos my * 2 ^ (ey - ez)))
                 ez false).
  { subst r. unfold fsub, SFsub. fold ez.
    rewrite !shl_align_fst by lia.
    unfold prec32, emax32. f_equal. destruct sx, sy; cbn [cond_Zopp sgn]; lia. }
  assert (HT' : T = (sgn sx * (Z.pos mx * 2 ^ (ex - ez)) -
                     sgn sy * (Z.pos my * 2 ^ (ey - ez))) * 2 ^ (ez + 60)).
  { subst T. cbn [scaled].
    assert (E1 : 2 ^ (ex + 60) = 2 ^ (ex - ez) * 2 ^ (ez + 60))
      by (rewrite <-Z.pow_add_r by lia; f_equal; lia).
    assert (E2 : 2 ^ (ey + 60) = 2 ^ (ey - ez) * 2 ^ (ez + 60))
      by (rewrite <-Z.pow_add_r by lia; f_equal; lia).
    rewrite E1, E2. ring. }
  revert Hr HT'. generalize (sgn sx * (Z.pos mx * 2 ^ (ex - ez)) -
                             sgn sy * (Z.pos my * 2 ^ (ey - ez))).
  intros D Hr HT'. clearbody T. subst T. rewrite Hr. clear Hr r.
  destruct D as [|p|p]; cbn [binary_normalize].
  - split; [done|]. split; [done|]. by intros [].
  - destruct (round_rounds false p ez ltac:(lia)) as (m' & e' & V & -> & He' & HV & Hrnd).
    { rewrite Z.abs_eq in HT by lia. done. }
    split; [done|]. split; [lia|]. intros _. exists V.
    rewrite Z.abs_eq by lia. split; [|done].
    cbn [scaled sgn]. rewrite HV, Z.sgn_pos by lia. done.
  - destruct (round_rounds true p ez ltac:(lia)) as (m' & e' & V & -> & He' & HV & Hrnd).
    { rewrite Z.abs_neq in HT by lia. lia. }
    split; [done|]. split; [lia|]. intros _. exists V.
    rewrite Z.abs_neq by lia. split.
    + cbn [scaled sgn]. rewrite HV, Z.sgn_neg by lia. done.
    + replace (- (Z.neg p * 2 ^ (ez + 60))) with (Z.pos p * 2 ^ (ez + 60)) by lia. done.
Qed.

(** ** The two conversions, in units of [2^-60] *)

Lemma mantissa_digits (h : Z) :
  0 < h < 2 ^ 24 → Z.pos (digits2_pos (Z.to_pos (mantissa h))) = 24.
Proof.
  intros Hh. pose proof (mantissa_bounds h Hh) as Hm.
  apply digits2_pos_unique. rewrite Z2Pos.id by lia.
  change (2 ^ (24 - 1)) with (2 ^ 23). lia.
Qed.

Lemma mantissa_scaled (h k : Z) :
  0 < h < 2 ^ 24 → 24 ≤ k →
  mantissa h * 2 ^ (exponent h + k) = h * 2 ^ k.
Proof.
  intros Hh Hk. pose proof (Zdigits2_le h 24 Hh) as Hd.
  unfold mantissa, exponent. rewrite <-Z.mul_assoc, <-Z.pow_add_r by lia.
  do 2 f_equal. lia.
Qed.

(** [(float)n / 0x100000] is exact for a 20-bit [n]. *)
Lemma ratio_exact (n : Z) :
  0 < n < 2 ^ 20 →
  fdiv (float_of_int n) (float_of_int 0x100000) =
  S754_finite false (Z.to_pos (mantissa n)) (exponent n - 20).
Proof.
  intros Hn. assert (Hn' : 0 < n < 2 ^ 24) by (change (2 ^ 20) with 1048576 in Hn; change (2 ^ 24) with 16777216; lia).
  pose proof (Zdigits2_le n 24 Hn') as Hd.
  rewrite float_of_int_exact by done.
  rewrite fdiv_0x100000; [done|by apply mantissa_digits|unfold exponent; lia].
Qed.

Lemma humidity_float_scaled (h : Z) :
  0 ≤ h < 2 ^ 20 →
  in_range (humidity_float h) ∧
  2 ^ 24 * Z.abs (scaled (humidity_float h) - 100 * h * 2 ^ 40) ≤ 100 * h * 2 ^ 40 ∧
  0 ≤ scaled (humidity_float h) < 100 * 2 ^ 60.
Proof.
  intros Hh. destruct (decide (h = 0)) as [->|Hne].
  { vm_compute. repeat split; congruence. }
  assert (Hh' : 0 < h < 2 ^ 24) by (change (2 ^ 20) with 1048576 in Hh; change (2 ^ 24) with 16777216; lia).
  pose proof (Zdigits2_le h 24 Hh') as Hd.
  pose proof (mantissa_bounds h Hh') as Hm.
  unfold humidity_float. rewrite ratio_exact by lia.
  change (float_of_int 100) with (S754_finite false 13107200 (-17)).
  destruct (fmul_rounds false false (Z.to_pos (mantissa h)) 13107200 (exponent h - 20) (-17))
    as (m' & e' & V & -> & He' & HV & [Herr Hmono]).
  { by apply mantissa_digits. } { done. } { unfold exponent. lia. }
  assert (HT : Z.pos (Z.to_pos (mantissa h)) * 13107200 * 2 ^ (exponent h - 20 + -17 + 60)
               = 100 * h * 2 ^ 40).
  { rewrite Z2Pos.id by lia. unfold mantissa, exponent.
    assert (E : 2 ^ (24 - Zdigits2 h) * 2 ^ (Zdigits2 h - 24 - 20 + -17 + 60) = 2 ^ 23)
      by (rewrite <-Z.pow_add_r by lia; f_equal; lia).
    revert E. generalize (2 ^ (24 - Zdigits2 h)), (2 ^ (Zdigits2 h - 24 - 20 + -17 + 60)).
    intros a b E. change (2 ^ 40) with (131072 * 2 ^ 23). change 13107200 with (100 * 131072).
    rewrite <-E. ring. }
  rewrite HT in Herr, Hmono. clear HT.
  cbn [in_range scaled xorb sgn]. rewrite HV.
  split; [unfold exponent in He'; lia|]. split; [lia|].
  pose proof (Hmono 67 0 ltac:(lia)) as H0.
  pose proof (Hmono 67 (100 * 2 ^ 17 - 1) ltac:(lia)) as H1.
  change (2 ^ 20) with 1048576 in Hh.
  change (2 ^ 40) with 1099511627776 in *. change (2 ^ 60) with 1152921504606846976.
  change (2 ^ 67) with 147573952589676412928 in *.
  change (2 ^ (67 - 24)) with 8796093022208 in *. change (2 ^ 17) with 131072 in *.
  lia.
Qed.

Lemma temperature_float_scaled (t : Z) :
  0 ≤ t < 2 ^ 20 →
  in_range (temperature_float t) ∧
  Z.abs (scaled (temperature_float t) - (200 * t * 2 ^ 40 - 50 * 2 ^ 60)) ≤ 2 ^ 45 ∧
  -50 * 2 ^ 60 ≤ scaled (temperature_float t) < 150 * 2 ^ 60.
Proof.
  intros Ht. destruct (decide (t = 0)) as [->|Hne].
  { vm_compute. repeat split; congruence. }
  assert (Ht' : 0 < t < 2 ^ 24) by (change (2 ^ 20) with 1048576 in Ht; change (2 ^ 24) with 16777216; lia).
  pose proof (Zdigits2_le t 24 Ht') as Hd.
  pose proof (mantissa_bounds t Ht') as Hm.
  unfold temperature_float. rewrite ratio_exact by lia.
  change (float_of_int 200) with (S754_finite false 13107200 (-16)).
  change (float_of_int 50) with (S754_finite false 13107200 (-18)).
  destruct (fmul_rounds false false (Z.to_pos (mantissa t)) 13107200 (exponent t - 20) (-16))
    as (m1 & e1 & V1 & -> & He1 & HV1 & [Herr1 Hmono1]).
  { by apply mantissa_digits. } { done. } { unfold exponent. lia. }
  assert (HT : Z.pos (Z.to_pos (mantissa t)) * 13107200 * 2 ^ (exponent t - 20 + -16 + 60)
               = 200 * t * 2 ^ 40).
  { rewrite Z2Pos.id by lia. unfold mantissa, exponent.
    assert (E : 2 ^ (24 - Zdigits2 t) * 2 ^ (Zdigits2 t - 24 - 20 + -16 + 60) = 2 ^ 24)
      by (rewrite <-Z.pow_add_r by lia; f_equal; lia).
    revert E. generalize (2 ^ (24 - Zdigits2 t)), (2 ^ (Zdigits2 t - 24 - 20 + -16 + 60)).
    intros a b E. change (2 ^ 40) with (65536 * 2 ^ 24). change 13107200 with (200 * 65536).
    rewrite <-E. ring. }
  rewrite HT in Herr1, Hmono1. clear HT. cbn [xorb].
  pose proof (Hmono1 68 0 ltac:(lia)) as H0.
  pose proof (Hmono1 68 (200 * 2 ^ 16 - 1) ltac:(lia)) as H1.
  pose proof (fsub_rounds false false m1 13107200 e1 (-18)) as Hsub.
  cbv zeta in Hsub. cbn [scaled sgn] in Hsub. rewrite HV1 in Hsub.
  change (Z.pos 13107200 * 2 ^ (-18 + 60)) with (50 * 2 ^ 60) in Hsub.
  change (2 ^ 20) with 1048576 in Ht.
  change (2 ^ 68) with 295147905179352825856 in *.
  change (2 ^ (68 - 24)) with 17592186044416 in *. change (2 ^ 16) with 65536 in *.
  change (2 ^ 24) with 16777216 in *.
  change (2 ^ 40) with 1099511627776 in *. change (2 ^ 60) with 1152921504606846976 in *.
  change (2 ^ 45) with 35184372088832.
  destruct Hsub as (Hin & Hz & Hnz).
  { unfold exponent in He1. lia. } { lia. }
  { change (2 ^ 120) with 1329227995784915872903807060280344576. lia. }
  split; [done|].
  destruct (decide (1 * V1 - 1 * (50 * 1152921504606846976) = 0)) as [E0|E0].
  { rewrite (Hz E0). lia. }
  destruct (Hnz E0) as (V2 & -> & [Herr2 Hmono2]).
  change (2 ^ 24) with 16777216 in Herr2.
  destruct (Z.lt_trichotomy (1 * V1 - 1 * (50 * 1152921504606846976)) 0) as [Hneg|[?|Hpos]]; [|done|].
  - rewrite Z.sgn_neg by done. rewrite (Z.abs_neq (1 * V1 - _)) in Herr2, Hmono2 by lia.
    pose proof (Hmono2 67 0 ltac:(lia)) as G0.
    pose proof (Hmono2 67 (50 * 2 ^ 17) ltac:(lia)) as G1.
    change (2 ^ 67) with 147573952589676412928 in *.
    change (2 ^ (67 - 24)) with 8796093022208 in *. change (2 ^ 17) with 131072 in *.
    lia.
  - rewrite Z.sgn_pos by done. rewrite (Z.abs_eq (1 * V1 - _)) in Herr2, Hmono2 by lia.
    pose proof (Hmono2 68 0 ltac:(lia)) as G0.
    pose proof (Hmono2 68 (150 * 2 ^ 16 - 1) ltac:(lia)) as G1.
    change (2 ^ 68) with 295147905179352825856 in *.
    change (2 ^ (68 - 24)) with 17592186044416 in *. change (2 ^ 16) with 65536 in *.
    lia.
Qed.

(** ** From units of [2^-60] to rationals *)

Lemma Qpower_2_scaled (e : Z) :
  -60 ≤ e → (2 ^ e == inject_Z (2 ^ (e + 60)) / inject_Z (2 ^ 60))%Q.
Proof.
  intros He. rewrite Zpower_Qpower by lia.
  change (inject_Z 2) with 2%Q. rewrite Qpower_plus by done.
  change ((2:Q) ^ 60)%Q with (inject_Z (2 ^ 60)).
  field. done.
Qed.

Lemma float_val_scaled (x : float) :
  in_range x → (float_val x == inject_Z (scaled x) / inject_Z (2 ^ 60))%Q.
Proof.
  destruct x as [s| | |s m e]; cbn [in_range float_val scaled]; try done.
  intros [He _].
  destruct s; cbn [sgn]; rewrite (Qpower_2_scaled e) by done; rewrite !inject_Z_mult; [change (inject_Z (-1)) with (-1)%Q|change (inject_Z 1) with 1%Q]; field; done.
Qed.

Lemma inject_Z_sub (a b : Z) : (inject_Z (a - b) == inject_Z a - inject_Z b)%Q.
Proof. unfold Z.sub. by rewrite inject_Z_plus, inject_Z_opp. Qed.

Ltac to_Q H :=
  rewrite ?Zle_Qle, ?Zlt_Qlt in H;
  repeat first [rewrite inject_Z_opp in H | rewrite inject_Z_mult in H
               |rewrite inject_Z_sub in H | rewrite inject_Z_plus in H].

Lemma in_range_is_finite (x : float) : in_range x → is_finite x = true.
Proof. by destruct x. Qed.

(** The humidity conversion is within one part in [2^24] of the exact
    value, and lands in [0, 100). *)
Lemma humidity_float_close (h : Z) :
  0 ≤ h < 2 ^ 20 →
  is_finite (humidity_float h) = true ∧
  (Qabs (float_val (humidity_float h) - humidity_percent h)
     <= humidity_percent h / inject_Z (2 ^ 24))%Q ∧
  (0 <= float_val (humidity_float h))%Q ∧
  (float_val (humidity_float h) < 100)%Q.
Proof.
  intros Hh. destruct (humidity_float_scaled h Hh) as (Hin & Herr & Hhi).
  split; [by apply in_range_is_finite|].
  rewrite (float_val_scaled _ Hin). unfold humidity_percent.
  revert Herr Hhi. generalize (scaled (humidity_float h)). intros S Herr Hhi.
  change (2 ^ 24) with 16777216 in *. change (2 ^ 40) with 1099511627776 in *.
  change (2 ^ 60) with 1152921504606846976 in *. change (2 ^ 20) with 1048576 in *.
  assert (Herr1 : - (100 * h * 1099511627776) ≤ 16777216 * (S - 100 * h * 1099511627776)) by lia.
  assert (Herr2 : 16777216 * (S - 100 * h * 1099511627776) ≤ 100 * h * 1099511627776) by lia.
  clear Herr. destruct Hhi as [Hlo Hhi].
  to_Q Herr1. to_Q Herr2. to_Q Hlo. to_Q Hhi.
  revert Herr1 Herr2 Hlo Hhi. generalize (inject_Z S), (inject_Z h). intros s q.
  unfold inject_Z. intros Herr1 Herr2 Hlo Hhi.
  unfold Qdiv, Qinv; cbn [Qnum Qden].
  split; [apply Qabs_Qle_condition; split|split]; lra.
Qed.

(** The temperature conversion is within [2^-15] of the exact value, and
    lands in [-50, 150). *)
Lemma temperature_float_close (t : Z) :
  0 ≤ t < 2 ^ 20 →
  is_finite (temperature_float t) = true ∧
  (Qabs (float_val (temperature_float t) - temperature_celsius t)
     <= 1 / inject_Z (2 ^ 15))%Q ∧
  (-50 <= float_val (temperature_float t))%Q ∧
  (float_val (temperature_float t) < 150)%Q.
Proof.
  intros Ht. destruct (temperature_float_scaled t Ht) as (Hin & Herr & Hhi).
  split; [by apply in_range_is_finite|].
  rewrite (float_val_scaled _ Hin). unfold temperature_celsius.
  revert Herr Hhi. generalize (scaled (temperature_float t)). intros S Herr Hhi.
  change (2 ^ 15) with 32768. change (2 ^ 40) with 1099511627776 in *.
  change (2 ^ 60) with 1152921504606846976 in *. change (2 ^ 20) with 1048576 in *.
  change (2 ^ 45) with 35184372088832 in *.
  assert (Herr1 : - 35184372088832 ≤
                  S - (200 * t * 1099511627776 - 50 * 1152921504606846976)) by lia.
  assert (Herr2 : S - (200 * t * 1099511627776 - 50 * 1152921504606846976)
                  ≤ 35184372088832) by lia.
  clear Herr. destruct Hhi as [Hlo Hhi].
  to_Q Herr1. to_Q Herr2. to_Q Hlo. to_Q Hhi.
  revert Herr1 Herr2 Hlo Hhi. generalize (inject_Z S), (inject_Z t). intros s q.
  unfold inject_Z. intros Herr1 Herr2 Hlo Hhi.
  unfold Qdiv, Qinv; cbn [Qnum Qden].
  split; [apply Qabs_Qle_condition; split|split]; lra.
Qed.

(** The error value is 255, as a float. *)
Lemma error_value : float_of_int AHTXX_ERROR = S754_finite false 16711680 (-16).
Proof. reflexivity. Qed.

Lemma error_value_val : (float_val (float_of_int AHTXX_ERROR) == 255)%Q.
Proof. reflexivity. Qed.

(** ** What the accessors return *)

Lemma humidity_percent_range (h : Z) :
  0 ≤ h < 2 ^ 20 → (0 <= humidity_percent h)%Q ∧ (humidity_percent h < 100)%Q.
Proof.
  intros [Hlo Hhi]. unfold humidity_percent. change (2 ^ 20) with 1048576 in *.
  to_Q Hlo. to_Q Hhi. revert Hlo Hhi. generalize (inject_Z h). intros q.
  unfold inject_Z. intros Hlo Hhi. unfold Qdiv, Qinv; cbn [Qnum Qden]. split; lra.
Qed.

Lemma temperature_celsius_range (t : Z) :
  0 ≤ t < 2 ^ 20 → (-50 <= temperature_celsius t)%Q ∧ (temperature_celsius t < 150)%Q.
Proof.
  intros [Hlo Hhi]. unfold temperature_celsius. change (2 ^ 20) with 1048576 in *.
  to_Q Hlo. to_Q Hhi. revert Hlo Hhi. generalize (inject_Z t). intros q.
  unfold inject_Z. intros Hlo Hhi. unfold Qdiv, Qinv; cbn [Qnum Qden]. split; lra.
Qed.

(** No frame decodes to the error value. *)
Lemma humidity_float_no_error (h : Z) :
  0 ≤ h < 2 ^ 20 → humidity_float h ≠ float_of_int AHTXX_ERROR.
Proof.
  intros Hh E. destruct (humidity_float_close h Hh) as (_ & _ & _ & Hlt).
  rewrite E, error_value_val in Hlt. lra.
Qed.

Lemma temperature_float_no_error (t : Z) :
  0 ≤ t < 2 ^ 20 → temperature_float t ≠ float_of_int AHTXX_ERROR.
Proof.
  intros Ht E. destruct (temperature_float_close t Ht) as (_ & _ & _ & Hlt).
  rewrite E, error_value_val in Hlt. lra.
Qed.

Section Decoding.
Context {hdr : Header} {W : Type} {env : Arduino W} {R : Type}.

Lemma getStatus_run (this : AHTxx) (w : W) :
  getStatus (R:=R) this w = Run (Next (_status this)) this w [].
Proof. unfold getStatus. enter r E. run_in E. by subst r. Qed.

Lemma readMeasurement_wf {R'} (this : AHTxx) (w : W) :
  wf this → wf (this_of (_readMeasurement (R:=R') this w)).
Proof.
  intros Hwf. eapply transaction_wf; [done|].
  by apply readMeasurement_transaction.
Qed.

(** C2: with status [AHTXX_NO_ERROR], [readHumidity] answers
    [((float)n / 0x100000) * 100] for the 20-bit integer
    [n = (frame[1] << 12) | (frame[2] << 4) | (frame[3] >> 4)], of the
    buffered frame without any bus access, or of the frame just read
    when a refresh is forced; a frame whose humidity bits encode [h]
    gives [n = h]; the float is finite and within one part in [2^24] of
    [n / 2^20 * 100]. *)
Theorem readHumidity_decodes (this : AHTxx) (w : W) :
  wf this →
  let bits (s : AHTxx) :=
    Z.lor (Z.lor (rawData_at s 1 ≪ 12) (rawData_at s 2 ≪ 4)) (rawData_at s 3 ≫ 4) in
  let m := _readMeasurement (R:=float) this w in
  (_status this = AHTXX_NO_ERROR →
     readHumidity (R:=R) AHTXX_USE_READ_DATA this w =
     Run (Next (humidity_float (bits this))) this w []) ∧
  (_status (this_of m) = AHTXX_NO_ERROR →
     readHumidity (R:=R) AHTXX_FORCE_READ_DATA this w =
     Run (Next (humidity_float (bits (this_of m)))) (this_of m) (bus_of m) (trace_of m)) ∧
  (∀ h t, 0 ≤ h < 2 ^ 20 → 0 ≤ t < 2 ^ 20 → encodes this h t → bits this = h) ∧
  0 ≤ bits this < 2 ^ 20 ∧
  (∀ n, 0 ≤ n < 2 ^ 20 →
     is_finite (humidity_float n) = true ∧
     (Qabs (float_val (humidity_float n) - humidity_percent n)
        <= humidity_percent n / inject_Z (2 ^ 24))%Q).
Proof.
  intros Hwf bits m. subst bits. cbv beta.
  rewrite <-(humidity_bits_spec this Hwf).
  rewrite <-(humidity_bits_spec (this_of m) (readMeasurement_wf (R':=float) this w Hwf)).
  split; [|split; [|split; [|split]]].
  - intros Hok. rewrite readHumidity_buffered.
    by rewrite bool_decide_false by (by intros ?).
  - intros Hok. rewrite readHumidity_forced. cbv zeta. fold m.
    by rewrite bool_decide_false by (by intros ?).
  - intros h t Hh Ht Henc. rewrite humidity_bits_spec by done.
    by destruct (bits_of_encoded this h t Hh Ht Henc).
  - by apply humidity_bits_range.
  - intros n Hn. destruct (humidity_float_close n Hn) as (? & ? & _). done.
Qed.

(** C3: with status [AHTXX_NO_ERROR], [readTemperature] answers
    [((float)n / 0x100000) * 200 - 50] for the 20-bit integer
    [n = ((frame[3] & 0x0F) << 16) | (frame[4] << 8) | frame[5]], of the
    buffered frame without any bus access, or of the frame just read
    when a refresh is forced; a frame whose temperature bits encode [t]
    gives [n = t]; the float is finite and within [2^-15] of
    [n / 2^20 * 200 - 50]. *)
Theorem readTemperature_decodes (this : AHTxx) (w : W) :
  wf this →
  let bits (s : AHTxx) :=
    Z.lor (Z.lor (Z.land (rawData_at s 3) 0x0F ≪ 16) (rawData_at s 4 ≪ 8))
          (rawData_at s 5) in
  let m := _readMeasurement (R:=float) this w in
  (_status this = AHTXX_NO_ERROR →
     readTemperature (R:=R) AHTXX_USE_READ_DATA this w =
     Run (Next (temperature_float (bits this))) this w []) ∧
  (_status (this_of m) = AHTXX_NO_ERROR →
     readTemperature (R:=R) AHTXX_FORCE_READ_DATA this w =
     Run (Next (temperature_float (bits (this_of m)))) (this_of m) (bus_of m) (trace_of m)) ∧
  (∀ h t, 0 ≤ h < 2 ^ 20 → 0 ≤ t < 2 ^ 20 → encodes this h t → bits this = t) ∧
  0 ≤ bits this < 2 ^ 20 ∧
  (∀ n, 0 ≤ n < 2 ^ 20 →
     is_finite (temperature_float n) = true ∧
     (Qabs (float_val (temperature_float n) - temperature_celsius n)
        <= 1 / inject_Z (2 ^ 15))%Q).
Proof.
  intros Hwf bits m. subst bits. cbv beta.
  rewrite <-(temperature_bits_spec this Hwf).
  rewrite <-(temperature_bits_spec (this_of m) (readMeasurement_wf (R':=float) this w Hwf)).
  split; [|split; [|split; [|split]]].
  - intros Hok. rewrite readTemperature_buffered.
    by rewrite bool_decide_false by (by intros ?).
  - intros Hok. rewrite readTemperature_forced. cbv zeta. fold m.
    by rewrite bool_decide_false by (by intros ?).
  - intros h t Hh Ht Henc. rewrite temperature_bits_spec by done.
    by destruct (bits_of_encoded this h t Hh Ht Henc).
  - by apply temperature_bits_range.
  - intros n Hn. destruct (temperature_float_close n Hn) as (? & ? & _). done.
Qed.

(** C7: whenever the status code is not [AHTXX_NO_ERROR] at the check,
    [readHumidity] and [readTemperature] both answer the float of
    [AHTXX_ERROR], whatever the raw frame holds; that float is 255, above
    the range -40 to 125, and no frame decodes to it. *)
Theorem error_status_gives_sentinel (this : AHTxx) (w : W) :
  let m := _readMeasurement (R:=float) this w in
  (_status this ≠ AHTXX_NO_ERROR →
     readHumidity (R:=R) AHTXX_USE_READ_DATA this w =
       Run (Next (float_of_int AHTXX_ERROR)) this w [] ∧
     readTemperature (R:=R) AHTXX_USE_READ_DATA this w =
       Run (Next (float_of_int AHTXX_ERROR)) this w []) ∧
  (_status (this_of m) ≠ AHTXX_NO_ERROR →
     flow_of (readHumidity (R:=R) AHTXX_FORCE_READ_DATA this w) =
       Next (float_of_int AHTXX_ERROR) ∧
     flow_of (readTemperature (R:=R) AHTXX_FORCE_READ_DATA this w) =
       Next (float_of_int AHTXX_ERROR)) ∧
  (float_val (float_of_int AHTXX_ERROR) == 255)%Q ∧
  (125 < float_val (float_of_int AHTXX_ERROR))%Q ∧
  float_of_int AHTXX_ERROR ≠ float_of_int 0 ∧
  (∀ s : AHTxx, wf s →
     humidity_float (humidity_bits s) ≠ float_of_int AHTXX_ERROR ∧
     temperature_float (temperature_bits s) ≠ float_of_int AHTXX_ERROR).
Proof.
  intros m. split; [|split; [|split; [|split; [|split]]]].
  - intros Hst. rewrite readHumidity_buffered, readTemperature_buffered.
    by rewrite bool_decide_true by done.
  - intros Hst. rewrite readHumidity_forced, readTemperature_forced.
    cbv zeta. fold m. cbn [flow_of]. by rewrite bool_decide_true by done.
  - apply error_value_val.
  - rewrite error_value_val. reflexivity.
  - rewrite error_value. discriminate.
  - intros s Hs. split.
    + apply humidity_float_no_error. by apply humidity_bits_range.
    + apply temperature_float_no_error. by apply temperature_bits_range.
Qed.

(** C9: a session just constructed has status [AHTXX_NO_ERROR]; its
    buffered accessors do not answer the error value: they decode the
    frame memory as the constructor found it. *)
Theorem fresh_session_decodes
    (address : Z) (sensorType : AHTXX_I2C_SENSOR) (mem : list Z) (w : W) :
  let this := AHTxx_new address sensorType mem in
  getStatus (R:=R) this w = Run (Next AHTXX_NO_ERROR) this w [] ∧
  _rawData this = mem ∧
  readHumidity (R:=R) AHTXX_USE_READ_DATA this w =
    Run (Next (humidity_float (humidity_bits this))) this w [] ∧
  readTemperature (R:=R) AHTXX_USE_READ_DATA this w =
    Run (Next (temperature_float (temperature_bits this))) this w [] ∧
  (wf this →
     humidity_float (humidity_bits this) ≠ float_of_int AHTXX_ERROR ∧
     temperature_float (temperature_bits this) ≠ float_of_int AHTXX_ERROR).
Proof.
  intros this. split; [|split; [|split; [|split]]].
  - by rewrite getStatus_run.
  - done.
  - by rewrite readHumidity_buffered.
  - by rewrite readTemperature_buffered.
  - intros Hwf. split.
    + apply humidity_float_no_error. by apply humidity_bits_range.
    + apply temperature_float_no_error. by apply temperature_bits_range.
Qed.
End Decoding.

(** C10: for every raw frame the two 20-bit integers are below [2^20], so
    [raw / 2^20 * 100] lies in [0, 100) and [raw / 2^20 * 200 - 50] lies in
    [-50, 150) over the rationals; the floats the accessors compute lie in
    the same intervals. *)
Theorem decoded_ranges (this : AHTxx) :
  wf this →
  0 ≤ humidity_bits this < 2 ^ 20 ∧
  0 ≤ temperature_bits this < 2 ^ 20 ∧
  ((0 <= humidity_percent (humidity_bits this))%Q ∧
   (humidity_percent (humidity_bits this) < 100)%Q) ∧
  ((-50 <= temperature_celsius (temperature_bits this))%Q ∧
   (temperature_celsius (temperature_bits this) < 150)%Q) ∧
  ((0 <= float_val (humidity_float (humidity_bits this)))%Q ∧
   (float_val (humidity_float (humidity_bits this)) < 100)%Q) ∧
  ((-50 <= float_val (temperature_float (temperature_bits this)))%Q ∧
   (float_val (temperature_float (temperature_bits this)) < 150)%Q).
Proof.
  intros Hwf.
  pose proof (humidity_bits_range this Hwf) as Hh.
  pose proof (temperature_bits_range this Hwf) as Ht.
  split; [done|]. split; [done|].
  split; [by apply humidity_percent_range|].
  split; [by apply temperature_celsius_range|].
  destruct (humidity_float_close _ Hh) as (_ & _ & ? & ?).
  destruct (temperature_float_close _ Ht) as (_ & _ & ? & ?).
  done.
Qed.

(** ** Concrete runs

    The theorems above, on the scripted bus. *)

Lemma short_frame_keeps_measurement_witness :
  let this := Script.fresh AHT1x_SENSOR in
  let w := Script.Bus [] [[0x18]; [0x18; 0x73; 0x33]] [] in
  let r := Script.exec (λ _ _, _readMeasurement) this w in
  wf this ∧
  follows (trace_of r) (EvRequest 0x38 6 true) (EvAvailable 3) ∧
  3 ≠ frame_length AHT1x_SENSOR ∧
  _status (this_of r) = AHTXX_DATA_ERROR ∧
  (∀ i, 1 ≤ i → rawData_at (this_of r) i = rawData_at this i) ∧
  (∃ b, trace_of r !! 8%nat = Some (EvRead b) ∧ rawData_at (this_of r) 0 = uint8 b).
Proof.
  intros this w r.
  assert (Hwf : wf this) by (split; [done|]; repeat constructor; done).
  assert (Hf : follows (trace_of r) (EvRequest 0x38 6 true) (EvAvailable 3))
    by (exists 9%nat; by vm_compute).
  assert (Hne : 3 ≠ frame_length AHT1x_SENSOR) by (by vm_compute).
  split; [exact Hwf|]. split; [exact Hf|]. split; [exact Hne|].
  exact (short_frame_keeps_measurement
           (hdr:=Script.datasheet) (env:=Script.arduino) (R:=unit) this w 3 Hwf Hf Hne).
Defined.

Lemma readHumidity_decodes_witness :
  let this := AHTxx_new 0x38 AHT1x_SENSOR Script.reading in
  let w := Script.Bus [] [] [] in
  wf this ∧
  _status this = AHTXX_NO_ERROR ∧
  Script.exec (λ _ _, readHumidity AHTXX_USE_READ_DATA) this w =
    Run (Next (humidity_float 0x73333)) this w [].
Proof.
  intros this w.
  assert (Hwf : wf this) by (split; [done|]; repeat constructor; done).
  split; [exact Hwf|]. split; [reflexivity|].
  exact (proj1 (readHumidity_decodes
                  (hdr:=Script.datasheet) (env:=Script.arduino) (R:=float) this w Hwf)
               eq_refl).
Defined.

Lemma readTemperature_decodes_witness :
  let this := AHTxx_new 0x38 AHT1x_SENSOR Script.reading in
  let w := Script.Bus [] [] [] in
  wf this ∧
  _status this = AHTXX_NO_ERROR ∧
  Script.exec (λ _ _, readTemperature AHTXX_USE_READ_DATA) this w =
    Run (Next (temperature_float 0x5E148)) this w [].
Proof.
  intros this w.
  assert (Hwf : wf this) by (split; [done|]; repeat constructor; done).
  split; [exact Hwf|]. split; [reflexivity|].
  exact (proj1 (readTemperature_decodes
                  (hdr:=Script.datasheet) (env:=Script.arduino) (R:=float) this w Hwf)
               eq_refl).
Defined.

Lemma integrity_check_witness :
  let this := Script.fresh AHT2x_SENSOR in
  let w := Script.Bus [] [[0x18]; Script.reading] [] in
  let r := Script.exec (λ _ _, _readMeasurement) this w in
  wf this ∧ _status (this_of r) = AHTXX_NO_ERROR.
Proof.
  intros this w r.
  assert (Hwf : wf this) by (split; [done|]; repeat constructor; done).
  split; [exact Hwf|].
  apply (proj2 (proj2 (proj2 (integrity_check
           (hdr:=Script.datasheet) (env:=Script.arduino) (R:=unit) this w Hwf)))).
  split; [exists 9%nat; by vm_compute|]. split; [by vm_compute|].
  right. by vm_compute.
Defined.

Lemma busy_waits_once_witness :
  let this := Script.fresh AHT1x_SENSOR in
  let w := Script.Bus [] [[0x98]; Script.reading] [] in
  let r := Script.exec (λ _ _, _readMeasurement) this w in
  wf this ∧
  trace_of r !! 4%nat = Some (EvEnd true 0) ∧
  trace_of r !! 7%nat = Some (EvAvailable 1) ∧
  trace_of r !! 8%nat = Some (EvRead 0x98) ∧
  busy (uint8 0x98) = true ∧
  List.filter is_delay (trace_of r) = [EvDelay 10; EvDelay (80 - 10)].
Proof.
  intros this w r.
  assert (Hwf : wf this) by (split; [done|]; repeat constructor; done).
  split; [exact Hwf|]. do 4 (split; [by vm_compute|]).
  refine (proj1 (proj2 (proj2 (busy_waits_once
            (hdr:=Script.datasheet) (env:=Script.arduino) (R:=unit) this w 0x98
            Hwf _ _ _ _)))); by vm_compute.
Defined.

Lemma trigger_nack_aborts_witness :
  let this := Script.fresh AHT1x_SENSOR in
  let w := Script.Bus [2] [] [] in
  let r := Script.exec (λ _ _, _readMeasurement) this w in
  trace_of r !! 4%nat = Some (EvEnd true 2) ∧
  2 ≠ 0 ∧
  _status (this_of r) = AHTXX_ACK_ERROR ∧
  _rawData (this_of r) = _rawData this.
Proof.
  intros this w r.
  assert (H4 : trace_of r !! 4%nat = Some (EvEnd true 2)) by (by vm_compute).
  assert (Hne : 2 ≠ 0) by lia.
  split; [exact H4|]. split; [exact Hne|].
  destruct (trigger_nack_aborts
              (hdr:=Script.datasheet) (env:=Script.arduino) (R:=unit) this w 2 H4 Hne)
    as (Hst & Hraw & _).
  split; [exact Hst|exact Hraw].
Defined.

Lemma error_status_gives_sentinel_witness :
  let this := with_status AHTXX_CRC8_ERROR (AHTxx_new 0x38 AHT2x_SENSOR Script.reading) in
  let w := Script.Bus [] [] [] in
  _status this ≠ AHTXX_NO_ERROR ∧
  Script.exec (λ _ _, readHumidity AHTXX_USE_READ_DATA) this w =
    Run (Next (float_of_int AHTXX_ERROR)) this w [] ∧
  Script.exec (λ _ _, readTemperature AHTXX_USE_READ_DATA) this w =
    Run (Next (float_of_int AHTXX_ERROR)) this w [].
Proof.
  intros this w.
  assert (Hst : _status this ≠ AHTXX_NO_ERROR) by (by vm_compute).
  split; [exact Hst|].
  exact (proj1 (error_status_gives_sentinel
                  (hdr:=Script.datasheet) (env:=Script.arduino) (R:=float) this w) Hst).
Defined.

Lemma fresh_session_decodes_witness :
  let this := AHTxx_new 0x38 AHT1x_SENSOR [0; 0; 0; 0; 0; 0; 0] in
  wf this ∧
  humidity_float (humidity_bits this) ≠ float_of_int AHTXX_ERROR ∧
  temperature_float (temperature_bits this) ≠ float_of_int AHTXX_ERROR.
Proof.
  intros this.
  assert (Hwf : wf this) by (split; [done|]; repeat constructor; done).
  split; [exact Hwf|].
  exact (proj2 (proj2 (proj2 (proj2 (fresh_session_decodes
           (hdr:=Script.datasheet) (env:=Script.arduino) (R:=float)
           0x38 AHT1x_SENSOR [0; 0; 0; 0; 0; 0; 0] (Script.Bus [] [] []))))) Hwf).
Defined.

Lemma decoded_ranges_witness :
  let this := AHTxx_new 0x38 AHT1x_SENSOR Script.reading in
  wf this ∧
  0 ≤ humidity_bits this < 2 ^ 20 ∧
  0 ≤ temperature_bits this < 2 ^ 20.
Proof.
  intros this.
  assert (Hwf : wf this) by (split; [done|]; repeat constructor; done).
  split; [exact Hwf|].
  destruct (decoded_ranges this Hwf) as (Hh & Ht & _).
  split; [exact Hh|exact Ht].
Defined.


(** * Further properties of the driver *)

(** ** The frame after a transaction *)

Lemma rawData_at_store (bytes : list Z) (i : Z) (this : AHTxx) (j : Z) :
  wf this → 0 ≤ i → i + Z.of_nat (length bytes) ≤ 7 → 0 ≤ j < 7 →
  rawData_at (store i bytes this) j =
  if decide (i ≤ j < i + Z.of_nat (length bytes))
  then uint8 (bytes !!! Z.to_nat (j - i))
  else rawData_at this j.
Proof.
  revert i this. induction bytes as [|b bytes IH]; intros i this Hwf Hi Hlen Hj.
  - cbn [store length]. rewrite decide_False by (simpl; lia). done.
  - cbn [store length]. cbn [length] in Hlen. rewrite IH by (auto using wf_with_rawData; lia).
    destruct (decide (j = i)) as [->|Hne].
    + rewrite decide_False by lia. rewrite decide_True by lia.
      rewrite rawData_at_same by (done || lia).
      by replace (Z.to_nat (i - i)) with 0%nat by lia.
    + rewrite rawData_at_other by lia.
      destruct (decide (i + 1 ≤ j < i + 1 + Z.of_nat (length bytes))).
      * rewrite decide_True by lia.
        replace (Z.to_nat (j - i)) with (S (Z.to_nat (j - (i + 1)))) by lia. done.
      * by rewrite decide_False by lia.
Qed.

Lemma filter_write_reads bytes : List.filter is_write (EvRead <$> bytes) = [].
Proof. induction bytes; simpl; auto. Qed.

Lemma filter_request_reads bytes : List.filter is_request (EvRead <$> bytes) = [].
Proof. induction bytes; simpl; auto. Qed.

Section Outcomes.
Context {hdr : Header} {W : Type} {env : Arduino W} {R : Type}.

(** X1: When the request for the status byte is answered with a byte count
    other than 1, the transaction ends there: status [AHTXX_DATA_ERROR],
    the raw frame as it was, no byte read and no frame request made. *)
Theorem status_read_failure (this : AHTxx) (w : W) (n : Z) :
  wf this →
  let r := _readMeasurement (R:=R) this w in
  trace_of r !! 7%nat = Some (EvAvailable n) →
  n ≠ 1 →
  this_of r = with_status AHTXX_DATA_ERROR this ∧
  _rawData (this_of r) = _rawData this ∧
  trace_of r = trigger (_address this) 0 ++ status_request (_address this) n.
Proof.
  intros Hwf r H7 Hn.
  pose proof (readMeasurement_transaction (R:=R) this w Hwf) as Ht.
  fold r in Ht. clearbody r. revert H7.
  destruct Ht as [rc Hrc|n' Hn'|b k Hk|b bytes Hlen]; unfold trigger, status_request.
  all: cbn [app lookup list_lookup]; intros; simplify_eq; done.
Qed.

(** X2: When the frame request is answered with the full frame, every byte of
    the frame is the byte read at its position, the status byte included;
    byte 6 of an AHT1x, which has no seventh byte to read, keeps its value. *)
Theorem frame_refreshed (this : AHTxx) (w : W) :
  wf this →
  let r := _readMeasurement (R:=R) this w in
  let len := frame_length (_sensorType this) in
  follows (trace_of r) (EvRequest (_address this) len true) (EvAvailable len) →
  ∃ bytes : list Z,
    Z.of_nat (length bytes) = len ∧
    (∃ t, trace_of r = t ++ [EvRequest (_address this) len true; EvAvailable len] ++
                       (EvRead <$> bytes)) ∧
    (∀ i, 0 ≤ i < len → rawData_at (this_of r) i = uint8 (bytes !!! Z.to_nat i)) ∧
    (∀ i, len ≤ i < 7 → rawData_at (this_of r) i = rawData_at this i) ∧
    _status (this_of r) = verdict (this_of r).
Proof.
  intros Hwf r len Harr.
  pose proof (readMeasurement_transaction (R:=R) this w Hwf) as Ht.
  fold r in Ht. clearbody r. revert Harr.
  pose proof (frame_length_cases (_sensorType this)) as Hcases. fold len in Hcases.
  destruct Ht as [rc Hrc|n Hn|b k Hk|b bytes Hlen]; intros Harr.
  - unfold trigger in Harr. follows_cases Harr; simplify_eq; lia.
  - unfold trigger, status_request in Harr. cbn [app] in Harr.
    follows_cases Harr; simplify_eq; lia.
  - unfold trigger, status_request, frame_request, wait in Harr.
    destruct (busy (uint8 b)); cbn [app] in Harr.
    all: follows_cases Harr; simplify_eq/=; done || lia.
  - fold len in Hlen. exists bytes. split; [done|]. split.
    { eexists. fold len. unfold frame_request. rewrite !app_assoc. done. }
    assert (Hwf0 : wf (with_rawData 0 b this)) by by apply wf_with_rawData.
    split; [|split].
    + intros i Hi. autorewrite with session.
      rewrite rawData_at_store by (done || lia).
      rewrite decide_True by lia. by rewrite Z.sub_0_r.
    + intros i Hi. autorewrite with session.
      rewrite rawData_at_store by (done || lia).
      rewrite decide_False by lia. apply rawData_at_other; lia.
    + autorewrite with session. unfold verdict. by autorewrite with session.
Qed.
End Outcomes.

Ltac in_list := repeat (first [apply list_elem_of_here | apply list_elem_of_further]).

Lemma verdict_cases (this : AHTxx) :
  verdict this = AHTXX_BUSY_ERROR ∧ busy (rawData_at this 0) = true ∨
  verdict this = AHTXX_CRC8_ERROR ∧ busy (rawData_at this 0) = false ∧
    _sensorType this = AHT2x_SENSOR ∨
  verdict this = AHTXX_NO_ERROR ∧ busy (rawData_at this 0) = false.
Proof.
  unfold verdict. destruct (busy _); [by left|right].
  case_bool_decide as Hty; cbn [andb]; [|by right].
  destruct (_checkCRC8 this); cbn [negb]; [by right|by left].
Qed.

Lemma transaction_no_crc_error `{hdr : Header} this t this' :
  transaction this t this' → _sensorType this = AHT1x_SENSOR →
  _status this' ≠ AHTXX_CRC8_ERROR.
Proof.
  intros [rc Hrc|n Hn|b k Hk|b bytes Hlen] Hty; autorewrite with session; try done.
  destruct (verdict_cases (store 0 bytes (with_rawData 0 b this)))
    as [[-> _]|[(-> & _ & Hty')|[-> _]]]; try done.
  rewrite sensorType_store in Hty'. autorewrite with session in Hty'. congruence.
Qed.

Section Status_codes.
Context {hdr : Header} {W : Type} {env : Arduino W} {R : Type}.

(** X3: Whatever the bus answers, a transaction leaves one of the five status
    codes [getStatus] documents, never [AHTXX_CRC8_ERROR] for an AHT1x, and
    it changes neither the address nor the sensor type. *)
Theorem measurement_status_range (this : AHTxx) (w : W) :
  wf this →
  let r := _readMeasurement (R:=R) this w in
  _status (this_of r) ∈
    [AHTXX_NO_ERROR; AHTXX_BUSY_ERROR; AHTXX_ACK_ERROR; AHTXX_DATA_ERROR; AHTXX_CRC8_ERROR] ∧
  (_sensorType this = AHT1x_SENSOR → _status (this_of r) ≠ AHTXX_CRC8_ERROR) ∧
  _address (this_of r) = _address this ∧
  _sensorType (this_of r) = _sensorType this.
Proof.
  intros Hwf r.
  pose proof (readMeasurement_transaction (R:=R) this w Hwf) as Ht.
  fold r in Ht. clearbody r.
  destruct Ht as [rc Hrc|n Hn|b k Hk|b bytes Hlen]; autorewrite with session.
  1-3: split; [in_list|]; split; [by intros _|done].
  rewrite address_store, sensorType_store. autorewrite with session.
  destruct (verdict_cases (store 0 bytes (with_rawData 0 b this)))
    as [[-> _]|[(-> & _ & Hty)|[-> _]]].
  - split; [in_list|]. split; [by intros _|done].
  - rewrite sensorType_store in Hty. autorewrite with session in Hty.
    split; [in_list|]. split; [|done]. intros Hty'. congruence.
  - split; [in_list|]. split; [by intros _|done].
Qed.

(** X4: What each error status of a transaction means: [AHTXX_ACK_ERROR], the
    trigger was not acknowledged; [AHTXX_DATA_ERROR], the status byte or
    the frame came with a wrong byte count; [AHTXX_BUSY_ERROR], the frame
    arrived and its status byte still has the busy bit. *)
Theorem measurement_status_causes (this : AHTxx) (w : W) :
  wf this →
  let r := _readMeasurement (R:=R) this w in
  let a := _address this in
  let len := frame_length (_sensorType this) in
  (_status (this_of r) = AHTXX_ACK_ERROR ↔
     ∃ rc, rc ≠ 0 ∧ trace_of r !! 4%nat = Some (EvEnd true rc)) ∧
  (_status (this_of r) = AHTXX_DATA_ERROR ↔
     (∃ n, n ≠ 1 ∧ trace_of r !! 7%nat = Some (EvAvailable n)) ∨
     (∃ k, k ≠ len ∧ follows (trace_of r) (EvRequest a len true) (EvAvailable k))) ∧
  (_status (this_of r) = AHTXX_BUSY_ERROR ↔
     follows (trace_of r) (EvRequest a len true) (EvAvailable len) ∧
     busy (rawData_at (this_of r) 0) = true).
Proof.
  intros Hwf r a len. subst a len.
  pose proof (readMeasurement_transaction (R:=R) this w Hwf) as Ht.
  fold r in Ht. clearbody r.
  pose proof (frame_length_cases (_sensorType this)) as Hcases.
  destruct Ht as [rc Hrc|n Hn|b k Hk|b bytes Hlen].
  all: set (a := _address this) in *; set (len := frame_length (_sensorType this)) in *.
  - autorewrite with session. unfold trigger. cbn [lookup list_lookup].
    split; [|split].
    + split; [intros _; by exists rc|done].
    + split; [done|]. intros [(n & _ & ?)|(k & _ & H)]; [done|].
      follows_cases H; simplify_eq.
    + split; [done|]. intros [H _]. follows_cases H; simplify_eq.
  - autorewrite with session. unfold trigger, status_request.
    cbn [app lookup list_lookup]. split; [|split].
    + split; [done|]. intros (rc & Hrc & [= <-]). done.
    + split; [intros _; left; by exists n|done].
    + split; [done|]. intros [H _]. follows_cases H; simplify_eq; lia.
  - autorewrite with session. unfold trigger, status_request, frame_request, wait.
    split; [|split].
    + split; [done|]. destruct (busy (uint8 b)); cbn [app lookup list_lookup].
      all: intros (rc & Hrc & [= <-]); done.
    + split; [|done]. intros _. right. exists k. split; [done|].
      destruct (busy (uint8 b)); cbn [app]; follows_here.
    + split; [done|]. intros [H _].
      destruct (busy (uint8 b)); cbn [app] in H; follows_cases H; simplify_eq/=; done || lia.
  - autorewrite with session.
    set (this' := store 0 bytes (with_rawData 0 b this)).
    assert (Harr : follows
      (trigger a 0 ++ status_request a 1 ++ [EvRead b] ++ wait b ++
       frame_request a len len ++ (EvRead <$> bytes))
      (EvRequest a len true) (EvAvailable len)).
    { unfold trigger, status_request, frame_request, wait.
      destruct (busy (uint8 b)); cbn [app]; follows_here. }
    assert (Hnack : ¬ ∃ rc, rc ≠ 0 ∧
      (trigger a 0 ++ status_request a 1 ++ [EvRead b] ++ wait b ++
       frame_request a len len ++ (EvRead <$> bytes)) !! 4%nat = Some (EvEnd true rc)).
    { unfold trigger. cbn [app lookup list_lookup]. intros (rc & Hrc & [= <-]). done. }
    assert (Hdata : ¬ ((∃ n, n ≠ 1 ∧
      (trigger a 0 ++ status_request a 1 ++ [EvRead b] ++ wait b ++
       frame_request a len len ++ (EvRead <$> bytes)) !! 7%nat = Some (EvAvailable n)) ∨
      (∃ k, k ≠ len ∧ follows
      (trigger a 0 ++ status_request a 1 ++ [EvRead b] ++ wait b ++
       frame_request a len len ++ (EvRead <$> bytes))
      (EvRequest a len true) (EvAvailable k)))).
    { unfold trigger, status_request, frame_request, wait.
      intros [(n & Hn & H)|(k & Hk & H)].
      - cbn [app lookup list_lookup] in H. by simplify_eq.
      - destruct (busy (uint8 b)); cbn [app] in H; follows_cases H; simplify_eq/=;
          try lia.
        all: apply follows_reads in H as [_ [? ?]]; simplify_eq. }
    destruct (verdict_cases this') as [[-> Hb]|[(-> & Hb & _)|[-> Hb]]].
    all: split; [split; [done|by intros ?]|].
    all: split; [split; [done|by intros ?]|].
    + split; [done|]. intros _. done.
    + split; [done|]. intros [_ ?]. congruence.
    + split; [done|]. intros [_ ?]. congruence.
Qed.
End Status_codes.

Section Recovery.
Context {hdr : Header} {W : Type} {env : Arduino W} {R : Type}.

(** X5: A transaction does not look at the status code it finds: after any
    error the next transaction runs, and ends, as it would from a session
    without error. *)
Theorem measurement_ignores_old_status (this : AHTxx) (w : W) (v : Z) :
  wf this →
  _readMeasurement (R:=R) (with_status v this) w = _readMeasurement (R:=R) this w.
Proof.
  intros Hwf. pose proof (wf_with_status v this Hwf) as Hwf'.
  unfold _readMeasurement, call.
  match goal with
  | |- context [this_of (?body (with_status v this) w)] =>
      cut (body (with_status v this) w = body this w); [by intros ->|];
      remember (body (with_status v this) w) as r' eqn:E';
      remember (body this w) as r eqn:E
  end.
  run_in E. run_in E'.
  destruct (bus_end true _) as [rc w1]. tidy_in E. tidy_in E'.
  case_bool_decide as Hrc.
  { run_in E. run_in E'. by subst r r'. }
  subst rc. run_in E. run_in E'.
  rewrite step_bind, getBusy_forced in E by done.
  rewrite step_bind, getBusy_forced in E' by done.
  cbv zeta in E, E'. autorewrite with session in E'.
  destruct (bus_available _) as [n w2]. tidy_in E. tidy_in E'.
  case_bool_decide as Hn.
  { run_in E. run_in E'. by subst r r'. }
  run_in E. run_in E'. by subst r r'.
Qed.
End Recovery.

Lemma wf_with_sensorType t this : wf this → wf (with_sensorType t this).
Proof. done. Qed.

Section Traffic.
Context {hdr : Header} {W : Type} {env : Arduino W} {R : Type}.

(** X6: The bus traffic of a transaction is bounded: it opens with the
    trigger, writes the three command bytes and nothing else, makes at
    most two read requests and leaves at most 19 events. *)
Theorem measurement_traffic (this : AHTxx) (w : W) :
  wf this →
  let t := trace_of (_readMeasurement (R:=R) this w) in
  (∃ rc, take 5 t = trigger (_address this) rc) ∧
  List.filter is_write t =
    [EvWrite AHTXX_START_MEASUREMENT_REG; EvWrite AHTXX_START_MEASUREMENT_CTRL;
     EvWrite AHTXX_START_MEASUREMENT_CTRL_NOP] ∧
  (length (List.filter is_request t) ≤ 2)%nat ∧
  (length t ≤ 19)%nat.
Proof.
  intros Hwf t.
  pose proof (readMeasurement_transaction (R:=R) this w Hwf) as Ht.
  fold t in Ht. clearbody t.
  pose proof (frame_length_cases (_sensorType this)) as Hcases.
  destruct Ht as [rc Hrc|n Hn|b k Hk|b bytes Hlen].
  all: unfold trigger, status_request, frame_request, wait.
  1-2: split; [eexists; reflexivity|]; cbn; split; [done|]; lia.
  - destruct (busy (uint8 b)).
    all: split; [eexists; reflexivity|]; cbn; split; [done|]; lia.
  - destruct (busy (uint8 b)); cbn [app].
    all: split; [eexists; reflexivity|].
    all: cbn [List.filter is_write is_request length].
    all: rewrite filter_write_reads, filter_request_reads.
    all: split; [done|]; split; [cbn; lia|].
    all: rewrite length_fmap; lia.
Qed.
End Traffic.

Section Accessor_results.
Context {hdr : Header} {W : Type} {env : Arduino W} {R : Type}.

Lemma setType_run (t : AHTXX_I2C_SENSOR) (this : AHTxx) (w : W) :
  setType (R:=R) t this w = Run (Next tt) (with_sensorType t this) w [].
Proof. reflexivity. Qed.

Lemma readHumidity_run (force : bool) (this : AHTxx) (w : W) :
  let m := if force then _readMeasurement (R:=float) this w
           else Run (Next tt) this w [] in
  readHumidity (R:=R) force this w =
  Run (Next (if bool_decide (_status (this_of m) ≠ AHTXX_NO_ERROR)
             then float_of_int AHTXX_ERROR
             else humidity_float (humidity_bits (this_of m))))
      (this_of m) (bus_of m) (trace_of m).
Proof.
  destruct force.
  - apply readHumidity_forced.
  - apply readHumidity_buffered.
Qed.

Lemma readTemperature_run (force : bool) (this : AHTxx) (w : W) :
  let m := if force then _readMeasurement (R:=float) this w
           else Run (Next tt) this w [] in
  readTemperature (R:=R) force this w =
  Run (Next (if bool_decide (_status (this_of m) ≠ AHTXX_NO_ERROR)
             then float_of_int AHTXX_ERROR
             else temperature_float (temperature_bits (this_of m))))
      (this_of m) (bus_of m) (trace_of m).
Proof.
  destruct force.
  - apply readTemperature_forced.
  - apply readTemperature_buffered.
Qed.

(** X8: An accessor answers the error value exactly when it leaves a status
    other than [AHTXX_NO_ERROR]; [getStatus] then reports that status. *)
Theorem error_value_iff_status (this : AHTxx) (w : W) (force : bool) :
  wf this →
  let h := readHumidity (R:=R) force this w in
  let t := readTemperature (R:=R) force this w in
  (flow_of h = Next (float_of_int AHTXX_ERROR) ↔ _status (this_of h) ≠ AHTXX_NO_ERROR) ∧
  (flow_of t = Next (float_of_int AHTXX_ERROR) ↔ _status (this_of t) ≠ AHTXX_NO_ERROR) ∧
  flow_of (getStatus (R:=R) (this_of h) (bus_of h)) = Next (_status (this_of h)) ∧
  flow_of (getStatus (R:=R) (this_of t) (bus_of t)) = Next (_status (this_of t)).
Proof.
  intros Hwf h t. subst h t.
  rewrite readHumidity_run, readTemperature_run. cbv zeta. cbn [this_of flow_of bus_of].
  rewrite !getStatus_run. cbn [flow_of].
  set (m := if force then _ else _).
  assert (Hm : wf (this_of m)).
  { subst m. destruct force; [by apply readMeasurement_wf|done]. }
  split; [|split; [|done]].
  - case_bool_decide as Hst; [done|]. split; [|done]. intros [= E].
    exfalso. revert E. apply humidity_float_no_error. by apply humidity_bits_range.
  - case_bool_decide as Hst; [done|]. split; [|done]. intros [= E].
    exfalso. revert E. apply temperature_float_no_error. by apply temperature_bits_range.
Qed.

(** X9: One transaction serves both values: after a forced [readHumidity], a
    buffered [readTemperature] touches no bus, leaves the session as it
    is, and decodes the frame that transaction read (or answers the error
    value when it failed). *)
Theorem forced_then_buffered (this : AHTxx) (w : W) :
  let m := _readMeasurement (R:=float) this w in
  let h := readHumidity (R:=R) AHTXX_FORCE_READ_DATA this w in
  let t := readTemperature (R:=R) AHTXX_USE_READ_DATA (this_of h) (bus_of h) in
  trace_of h = trace_of m ∧
  trace_of t = [] ∧
  this_of t = this_of m ∧
  bus_of t = bus_of m ∧
  (_status (this_of m) = AHTXX_NO_ERROR →
     flow_of h = Next (humidity_float (humidity_bits (this_of m))) ∧
     flow_of t = Next (temperature_float (temperature_bits (this_of m)))) ∧
  (_status (this_of m) ≠ AHTXX_NO_ERROR →
     flow_of h = Next (float_of_int AHTXX_ERROR) ∧
     flow_of t = Next (float_of_int AHTXX_ERROR)).
Proof.
  intros m h t. subst h t.
  rewrite readHumidity_forced. cbv zeta. fold m. cbn [this_of bus_of trace_of flow_of].
  rewrite readTemperature_buffered. cbn [this_of bus_of trace_of flow_of].
  repeat (split; [done|]). split; intros Hst.
  - by rewrite bool_decide_false by (by intros ?).
  - by rewrite bool_decide_true by done.
Qed.
End Accessor_results.

(** ** The status register and the reset *)

Section Status_register.
Context {hdr : Header} {W : Type} {env : Arduino W}.

Lemma readStatusRegister_run {R} (this : AHTxx) (w : W) :
  let a := _address this in
  let e := bus_end true (bus_write AHTXX_STATUS_REG
                           (bus_begin a (clock_delay AHTXX_CMD_DELAY w))) in
  let n := bus_available (bus_request a 1 true e.2) in
  let b := bus_read n.2 in
  _readStatusRegister (R:=R) this w =
  if bool_decide (e.1 ≠ 0) then
    Run (Next AHTXX_ERROR) this e.2
        [EvDelay AHTXX_CMD_DELAY; EvBegin a; EvWrite AHTXX_STATUS_REG; EvEnd true e.1]
  else if bool_decide (n.1 = 1) then
    Run (Next (uint8 b.1)) this b.2
        [EvDelay AHTXX_CMD_DELAY; EvBegin a; EvWrite AHTXX_STATUS_REG; EvEnd true e.1;
         EvRequest a 1 true; EvAvailable n.1; EvRead b.1]
  else
    Run (Next AHTXX_ERROR) this n.2
        [EvDelay AHTXX_CMD_DELAY; EvBegin a; EvWrite AHTXX_STATUS_REG; EvEnd true e.1;
         EvRequest a 1 true; EvAvailable n.1].
Proof.
  cbv zeta. unfold _readStatusRegister.
  erewrite call_eq; [|run; reflexivity].
  case_bool_decide; [done|]. by case_bool_decide.
Qed.
End Status_register.

Lemma land_0x08 (c : Z) :
  Z.land c AHTXX_STATUS_CTRL_CAL_ON = if Z.testbit c 3 then AHTXX_STATUS_CTRL_CAL_ON else 0.
Proof.
  change AHTXX_STATUS_CTRL_CAL_ON with (2 ^ 3).
  apply Z.bits_inj'. intros n Hn. rewrite Z.land_spec, Z.pow2_bits_eqb by lia.
  destruct (Z.eqb_spec 3 n) as [<-|Hne].
  - rewrite andb_true_r. destruct (Z.testbit c 3); [|by rewrite Z.bits_0].
    by rewrite Z.pow2_bits_true.
  - rewrite andb_false_r. destruct (Z.testbit c 3); [|by rewrite Z.bits_0].
    by rewrite Z.pow2_bits_false.
Qed.

Lemma testbit_uint8 (b n : Z) : 0 ≤ n < 8 → Z.testbit (uint8 b) n = Z.testbit b n.
Proof. intros Hn. unfold uint8. apply Z.mod_pow2_bits_low. lia. Qed.

Section Calibration.
Context {hdr : Header} {W : Type} {env : Arduino W}.

Lemma getCalibration_run {R} (this : AHTxx) (w : W) :
  let s := _readStatusRegister (R:=Z) this w in
  let v := result (flow_of s) in
  _getCalibration (R:=R) this w =
  Run (Next (if bool_decide (v ≠ AHTXX_ERROR)
             then Z.land v AHTXX_STATUS_CTRL_CAL_ON else AHTXX_ERROR))
      this (bus_of s) (trace_of s).
Proof.
  cbv zeta. unfold _getCalibration.
  erewrite call_eq; [|rewrite step_bind, readStatusRegister_run; reflexivity].
  rewrite readStatusRegister_run. cbv zeta.
  repeat case_bool_decide; tidy; run; rewrite ?app_nil_r.
  all: repeat case_bool_decide; try done.
Qed.

(** X10: [_getCalibration] answers 0x08, 0x00 or [AHTXX_ERROR] and leaves the
    session as it is.  It answers 0x08 exactly when a status byte other
    than 0xFF was read and has bit 3 set; it answers [AHTXX_ERROR] when
    the register address was not acknowledged, when the byte count is not
    1, and also when the status byte read is 0xFF. *)
Theorem calibration_result {R} (this : AHTxx) (w : W) :
  let r := _getCalibration (R:=R) this w in
  this_of r = this ∧
  (flow_of r = Next AHTXX_STATUS_CTRL_CAL_ON ∨ flow_of r = Next 0 ∨
   flow_of r = Next AHTXX_ERROR) ∧
  (flow_of r = Next AHTXX_STATUS_CTRL_CAL_ON ↔
     ∃ b, trace_of r !! 6%nat = Some (EvRead b) ∧
          uint8 b ≠ AHTXX_ERROR ∧ Z.testbit b 3 = true) ∧
  (flow_of r = Next AHTXX_ERROR ↔
     (∃ rc, rc ≠ 0 ∧ trace_of r !! 3%nat = Some (EvEnd true rc)) ∨
     (∃ n, n ≠ 1 ∧ trace_of r !! 5%nat = Some (EvAvailable n)) ∨
     (∃ b, trace_of r !! 6%nat = Some (EvRead b) ∧ uint8 b = AHTXX_ERROR)).
Proof.
  intros r. subst r. rewrite getCalibration_run, readStatusRegister_run. cbv zeta.
  destruct (bus_end true _) as [rc w1]. cbn [fst snd].
  destruct (bus_available _) as [n w2]. cbn [fst snd].
  destruct (bus_read _) as [b w3]. cbn [fst snd].
  destruct (decide (rc = 0)) as [->|Hrc]; [destruct (decide (n = 1)) as [->|Hn]|].
  - rewrite (bool_decide_false (0 ≠ 0)), (bool_decide_true (1 = 1)) by (done || auto).
    cbn [flow_of this_of trace_of result lookup list_lookup].
    pose proof (land_0x08 (uint8 b)) as Hland. rewrite testbit_uint8 in Hland by lia.
    case_bool_decide as Hb.
    + rewrite Hland. split; [done|]. split; [destruct (Z.testbit b 3); auto|]. split.
      * destruct (Z.testbit b 3) eqn:Hbit; split; try done.
        -- intros _. by exists b.
        -- intros (? & [= <-] & _ & ?). congruence.
      * split; [by destruct (Z.testbit b 3)|].
        intros [(? & ? & [= <-])|[(? & ? & [= <-])|(? & [= <-] & ?)]]; done.
    + split; [done|]. split; [auto|]. split.
      * split; [done|]. by intros (? & [= <-] & ? & _).
      * split; [|done]. intros _. right. right. exists b. split; [done|].
        destruct (decide (uint8 b = AHTXX_ERROR)); [done|]. by destruct Hb.
  - rewrite (bool_decide_false (0 ≠ 0)), (bool_decide_false (n = 1)) by (done || auto).
    cbn [flow_of this_of trace_of result lookup list_lookup].
    rewrite bool_decide_false by (by intros ?).
    split; [done|]. split; [auto|]. split.
    + split; [done|]. by intros (? & ? & _).
    + split; [|done]. intros _. right. left. by exists n.
  - rewrite (bool_decide_true (rc ≠ 0)) by done.
    cbn [flow_of this_of trace_of result lookup list_lookup].
    rewrite bool_decide_false by (by intros ?).
    split; [done|]. split; [auto|]. split.
    + split; [done|]. by intros (? & ? & _).
    + split; [|done]. intros _. left. by exists rc.
Qed.
End Calibration.

Section Reset.
Context {hdr : Header} {W : Type} {env : Arduino W}.

Lemma setNormalMode_run {R} (this : AHTxx) (w : W) :
  let reg := if decide (_sensorType this = AHT1x_SENSOR)
             then AHT1X_INIT_REG else AHT2X_INIT_REG in
  let value := uint8 (Z.lor AHTXX_INIT_CTRL_CAL_ON AHT1X_INIT_CTRL_NORMAL_MODE) in
  let answer :=
    bus_end true
      (bus_write AHTXX_INIT_CTRL_NOP
         (bus_write value
            (bus_write reg
               (bus_begin (_address this) (clock_delay AHTXX_CMD_DELAY w))))) in
  setNormalMode (R:=R) this w =
  Run (Next (bool_decide (answer.1 = 0))) this answer.2
      [EvDelay AHTXX_CMD_DELAY; EvBegin (_address this); EvWrite reg;
       EvWrite value; EvWrite AHTXX_INIT_CTRL_NOP; EvEnd true answer.1].
Proof.
  cbv zeta. unfold setNormalMode, call. by rewrite setInitializationRegister_run.
Qed.

Lemma softReset_run {R} (this : AHTxx) (w : W) :
  let a := _address this in
  let e := bus_end true (bus_write AHTXX_SOFT_RESET_REG (bus_begin a w)) in
  let m := setNormalMode (R:=bool) this (clock_delay AHTXX_SOFT_RESET_DELAY e.2) in
  let c := _getCalibration (R:=bool) this (bus_of m) in
  softReset (R:=R) this w =
  if bool_decide (e.1 ≠ 0) then
    Run (Next false) this e.2 [EvBegin a; EvWrite AHTXX_SOFT_RESET_REG; EvEnd true e.1]
  else if result (flow_of m) then
    Run (Next (match flow_of c with
               | Next cal => bool_decide (cal = AHTXX_STATUS_CTRL_CAL_ON)
               | Return v => v
               end)) this (bus_of c)
        ([EvBegin a; EvWrite AHTXX_SOFT_RESET_REG; EvEnd true e.1;
          EvDelay AHTXX_SOFT_RESET_DELAY] ++ trace_of m ++ trace_of c)
  else
    Run (Next false) this (bus_of m)
        ([EvBegin a; EvWrite AHTXX_SOFT_RESET_REG; EvEnd true e.1;
          EvDelay AHTXX_SOFT_RESET_DELAY] ++ trace_of m).
Proof.
  cbv zeta. unfold softReset. enter r E. run_in E.
  destruct (bus_end true _) as [rc w1]. tidy_in E. cbn [fst snd].
  case_bool_decide as Hrc; run_in E; [by subst r|].
  rewrite step_bind in E. rewrite !setNormalMode_run in *. cbv zeta in *.
  destruct (bus_end true _) as [rc' w2]. cbn [fst snd flow_of this_of bus_of trace_of result] in *.
  destruct (bool_decide (rc' = 0)); run_in E; [|by subst r].
  rewrite step_bind in E. rewrite !getCalibration_run in *. cbv zeta in *.
  cbn [flow_of this_of bus_of trace_of result] in *. run_in E.
  subst r. tidy. by rewrite app_nil_r.
Qed.
End Reset.

Section Reset_result.
Context {hdr : Header} {W : Type} {env : Arduino W}.

(** X11: [softReset] leaves the session as it is.  When the reset command is
    not acknowledged it answers [false] at once; when the mode set that
    follows the reset delay is not acknowledged it answers [false] without
    reading the status register; it answers [true] exactly when both are
    acknowledged and the status byte then read is not 0xFF and has the
    calibration bit. *)
Theorem softReset_result {R} (this : AHTxx) (w : W) :
  let r := softReset (R:=R) this w in
  this_of r = this ∧
  (∀ rc, rc ≠ 0 → trace_of r !! 2%nat = Some (EvEnd true rc) →
     flow_of r = Next false ∧ length (trace_of r) = 3%nat) ∧
  (∀ rc, rc ≠ 0 → trace_of r !! 9%nat = Some (EvEnd true rc) →
     flow_of r = Next false ∧ length (trace_of r) = 10%nat) ∧
  (flow_of r = Next true ↔
     ∃ b, trace_of r !! 2%nat = Some (EvEnd true 0) ∧
          trace_of r !! 3%nat = Some (EvDelay AHTXX_SOFT_RESET_DELAY) ∧
          trace_of r !! 9%nat = Some (EvEnd true 0) ∧
          trace_of r !! 16%nat = Some (EvRead b) ∧
          uint8 b ≠ AHTXX_ERROR ∧ Z.testbit b 3 = true).
Proof.
  intros r. subst r. rewrite softReset_run. cbv zeta.
  rewrite setNormalMode_run, getCalibration_run, readStatusRegister_run. cbv zeta.
  destruct (bus_end true _) as [rc1 w1]. cbn [fst snd].
  destruct (bus_end true _) as [rc2 w2]. cbn [fst snd flow_of bus_of trace_of result].
  destruct (bus_end true _) as [rc3 w3]. cbn [fst snd].
  destruct (bus_available _) as [n w4]. cbn [fst snd].
  destruct (bus_read _) as [b w5]. cbn [fst snd].
  destruct (decide (rc1 = 0)) as [->|Hrc1].
  2: { rewrite (bool_decide_true (rc1 ≠ 0)) by done.
       cbn [flow_of this_of trace_of lookup list_lookup length].
       split; [done|]. split; [done|]. split; [by intros|].
       split; [done|]. intros (? & [= ?] & _). congruence. }
  rewrite (bool_decide_false (0 ≠ 0)) by auto.
  destruct (decide (rc2 = 0)) as [->|Hrc2].
  2: { rewrite (bool_decide_false (rc2 = 0)) by done.
       cbn [flow_of this_of trace_of lookup list_lookup length app].
       split; [done|]. split; [by intros ? ? [= <-]|]. split; [by intros|].
       split; [done|]. intros (? & _ & _ & [= ?] & _). congruence. }
  rewrite (bool_decide_true (0 = 0)) by done.
  destruct (decide (rc3 = 0)) as [->|Hrc3]; [destruct (decide (n = 1)) as [->|Hn]|].
  - rewrite (bool_decide_false (0 ≠ 0)), (bool_decide_true (1 = 1)) by (done || auto).
    cbn [flow_of this_of trace_of result lookup list_lookup length app].
    split; [done|]. split; [by intros ? ? [= <-]|]. split; [by intros ? ? [= <-]|].
    pose proof (land_0x08 (uint8 b)) as Hland. rewrite testbit_uint8 in Hland by lia.
    destruct (decide (uint8 b = AHTXX_ERROR)) as [Hb|Hb].
    + rewrite (bool_decide_false (uint8 b ≠ AHTXX_ERROR)) by auto.
      rewrite bool_decide_false by done. split; [done|].
      intros (? & _ & _ & _ & [= <-] & ? & _). done.
    + rewrite (bool_decide_true (uint8 b ≠ AHTXX_ERROR)) by done.
      rewrite Hland. destruct (Z.testbit b 3) eqn:Hbit.
      * rewrite bool_decide_true by done. split; [|done]. intros _. by exists b.
      * rewrite bool_decide_false by done. split; [done|].
        intros (? & _ & _ & _ & [= <-] & _ & ?). congruence.
  - rewrite (bool_decide_false (0 ≠ 0)), (bool_decide_false (n = 1)) by (done || auto).
    cbn [flow_of this_of trace_of result lookup list_lookup length app].
    rewrite (bool_decide_false (AHTXX_ERROR ≠ AHTXX_ERROR)) by auto.
    rewrite bool_decide_false by done.
    split; [done|]. split; [by intros ? ? [= <-]|]. split; [by intros ? ? [= <-]|].
    split; [done|]. by intros (? & _ & _ & _ & ? & _).
  - rewrite (bool_decide_true (rc3 ≠ 0)) by done.
    cbn [flow_of this_of trace_of result lookup list_lookup length app].
    rewrite (bool_decide_false (AHTXX_ERROR ≠ AHTXX_ERROR)) by auto.
    rewrite bool_decide_false by done.
    split; [done|]. split; [by intros ? ? [= <-]|]. split; [by intros ? ? [= <-]|].
    split; [done|]. by intros (? & _ & _ & _ & ? & _).
Qed.
End Reset_result.

(** ** What the integrity check detects *)

Lemma crc8_shift_range (c : Z) : is_uint8 (crc8_shift c).
Proof.
  unfold crc8_shift, is_uint8. change (2 ^ 8) with 256.
  destruct (Z.testbit c 7); apply Z.mod_pos_bound; lia.
Qed.

Lemma crc8_bits_range (c : Z) : is_uint8 (Nat.iter 8 crc8_shift c).
Proof. cbn [Nat.iter nat_rect]. apply crc8_shift_range. Qed.

Lemma crc8_bits_unshift (c : Z) :
  is_uint8 c → Nat.iter 8 crc_unshift (Nat.iter 8 crc8_shift c) = c.
Proof.
  intros Hc. unfold is_uint8 in Hc. change (2 ^ 8) with (0 + 256) in Hc.
  revert c Hc. apply (Forall_seqZ (λ c, Nat.iter 8 crc_unshift (Nat.iter 8 crc8_shift c) = c)).
  assert (H : bool_decide
    (Forall (λ c, Nat.iter 8 crc_unshift (Nat.iter 8 crc8_shift c) = c) (seqZ 0 256)) = true)
    by (vm_compute; reflexivity).
  by apply bool_decide_eq_true_1 in H.
Qed.

Lemma lxor_uint8 (a b : Z) : is_uint8 a → is_uint8 b → is_uint8 (Z.lxor a b).
Proof.
  unfold is_uint8. intros Ha Hb.
  assert (E : Z.lxor a b = Z.lxor a b mod 2 ^ 8).
  { apply Z.bits_inj'. intros n Hn. destruct (decide (n < 8)).
    - by rewrite Z.mod_pow2_bits_low by lia.
    - rewrite Z.mod_pow2_bits_high, Z.lxor_spec by lia.
      by rewrite (testbit_above 8 a), (testbit_above 8 b) by lia. }
  rewrite E. apply Z.mod_pos_bound. lia.
Qed.

Lemma lxor_cancel_r (a a' b : Z) : Z.lxor a b = Z.lxor a' b → a = a'.
Proof.
  intros E. apply (f_equal (λ x, Z.lxor x b)) in E.
  by rewrite !Z.lxor_assoc, Z.lxor_nilpotent, !Z.lxor_0_r in E.
Qed.

Lemma crc8_update_range (c r : Z) : is_uint8 (crc8_update c r).
Proof. apply crc8_bits_range. Qed.

Lemma crc8_update_lxor (c c' r r' : Z) :
  is_uint8 c → is_uint8 c' → is_uint8 r → is_uint8 r' →
  crc8_update c r = crc8_update c' r' → Z.lxor c r = Z.lxor c' r'.
Proof.
  intros Hc Hc' Hr Hr' E. unfold crc8_update in E.
  pose proof (lxor_uint8 c r Hc Hr) as H1. pose proof (lxor_uint8 c' r' Hc' Hr') as H2.
  rewrite !Z.mod_small in E by done.
  apply (f_equal (Nat.iter 8 crc_unshift)) in E.
  by rewrite !crc8_bits_unshift in E.
Qed.

Lemma crc8_foldl_range (l : list Z) (c : Z) : is_uint8 c → is_uint8 (foldl crc8_update c l).
Proof.
  revert c. induction l as [|x l IH]; intros c Hc; [done|].
  cbn [foldl]. apply IH, crc8_update_range.
Qed.

Lemma crc8_foldl_inj (l : list Z) (c c' : Z) :
  Forall is_uint8 l → is_uint8 c → is_uint8 c' →
  foldl crc8_update c l = foldl crc8_update c' l → c = c'.
Proof.
  revert c c'. induction l as [|x l IH]; intros c c' Hl Hc Hc' E; [done|].
  apply Forall_cons in Hl as [Hx Hl]. cbn [foldl] in E.
  apply IH in E; [|done|apply crc8_update_range..].
  apply crc8_update_lxor in E; [|done..]. by apply lxor_cancel_r in E.
Qed.

(** The checksums of two byte strings that differ in one byte differ. *)
Lemma crc8_one_byte (l1 l2 : list Z) (x x' : Z) :
  Forall is_uint8 l1 → Forall is_uint8 l2 → is_uint8 x → is_uint8 x' →
  crc8 (l1 ++ x :: l2) = crc8 (l1 ++ x' :: l2) → x = x'.
Proof.
  intros Hl1 Hl2 Hx Hx' E. unfold crc8 in E. rewrite !foldl_app in E. cbn [foldl] in E.
  assert (Hc : is_uint8 (foldl crc8_update 255 l1)).
  { apply crc8_foldl_range. unfold is_uint8. lia. }
  apply crc8_foldl_inj in E; [|done|apply crc8_update_range..].
  apply crc8_update_lxor in E; [|done..].
  rewrite (Z.lxor_comm _ x), (Z.lxor_comm _ x') in E. by apply lxor_cancel_r in E.
Qed.

(** X12: On an AHT2x, a frame that passes [_checkCRC8] fails it after any
    change of one of its seven bytes. *)
Theorem checkCRC8_detects_byte_error (this : AHTxx) (i v : Z) :
  wf this → _sensorType this = AHT2x_SENSOR →
  0 ≤ i < 7 → uint8 v ≠ rawData_at this i →
  _checkCRC8 this = true →
  _checkCRC8 (with_rawData i v this) = false.
Proof.
  intros Hwf Hty Hi Hv Hok.
  pose proof (wf_with_rawData i v this Hwf) as Hwf'.
  destruct Hwf as [Hlen Hall]. destruct Hwf' as [Hlen' Hall'].
  apply checkCRC8_spec in Hok as [Hok|Hok]; [congruence| |done].
  destruct (_checkCRC8 (with_rawData i v this)) eqn:E; [exfalso|done].
  apply checkCRC8_spec in E as [E|E]; [rewrite sensorType_with_rawData in E; congruence| |done].
  destruct (decide (i = 6)) as [->|Hi6].
  - rewrite rawData_at_same in E by (done || lia).
    unfold with_rawData in E. cbn [_rawData] in E.
    rewrite take_insert_ge in E by (simpl; lia). congruence.
  - rewrite rawData_at_other in E by lia.
    unfold with_rawData in E. cbn [_rawData] in E.
    rewrite <-Hok in E. clear Hok. apply Hv.
    assert (Hi' : (Z.to_nat i < length (take 6 (_rawData this)))%nat)
      by (rewrite length_take; lia).
    rewrite take_insert_lt in E by lia.
    rewrite insert_take_drop in E by done.
    rewrite <-(take_drop_middle (take 6 (_rawData this)) (Z.to_nat i) (rawData_at this i))
      in E at 3.
    + apply crc8_one_byte in E; [done|..].
      * by apply Forall_take, Forall_take.
      * by apply Forall_drop, Forall_take.
      * apply uint8_is_uint8.
      * apply rawData_at_is_uint8; [done|lia].
    + rewrite lookup_take_lt by lia. unfold rawData_at.
      apply list_lookup_lookup_total_lt. lia.
Qed.

(** ** The bit fields determine the bytes *)

Ltac bits :=
  repeat first
    [ rewrite Z.lor_spec
    | rewrite Z.land_spec
    | rewrite Z.shiftl_spec_low by lia
    | rewrite Z.shiftl_spec_high by lia
    | rewrite Z.shiftr_spec by lia
    | rewrite Z.mod_pow2_bits_low by lia
    | rewrite Z.mod_pow2_bits_high by lia
    | rewrite orb_false_r
    | rewrite orb_false_l
    | rewrite andb_false_r
    | rewrite andb_true_r ].

(** X13: Bytes 1 to 5 of a frame are what the two 20-bit integers the
    accessors extract say they are: the extraction loses no bit, and two
    frames with the same two integers have the same five bytes. *)
Theorem bits_determine_bytes (this : AHTxx) :
  wf this →
  encodes this (humidity_bits this) (temperature_bits this) ∧
  (∀ s : AHTxx, wf s →
     humidity_bits s = humidity_bits this →
     temperature_bits s = temperature_bits this →
     ∀ i, 1 ≤ i ≤ 5 → rawData_at s i = rawData_at this i).
Proof.
  assert (Henc : ∀ s, wf s → encodes s (humidity_bits s) (temperature_bits s)).
  { intros s Hwf.
    rewrite (humidity_bits_spec s Hwf), (temperature_bits_spec s Hwf).
    pose proof (rawData_at_is_uint8 s 1 Hwf ltac:(lia)) as H1.
    pose proof (rawData_at_is_uint8 s 2 Hwf ltac:(lia)) as H2.
    pose proof (rawData_at_is_uint8 s 3 Hwf ltac:(lia)) as H3.
    pose proof (rawData_at_is_uint8 s 4 Hwf ltac:(lia)) as H4.
    pose proof (rawData_at_is_uint8 s 5 Hwf ltac:(lia)) as H5.
    unfold is_uint8 in *. unfold encodes.
    generalize dependent (rawData_at s 1). intros r1 H1.
    generalize dependent (rawData_at s 2). intros r2 H2.
    generalize dependent (rawData_at s 3). intros r3 H3.
    generalize dependent (rawData_at s 4). intros r4 H4.
    generalize dependent (rawData_at s 5). intros r5 H5.
    change 0xFF with (Z.ones 8). change 0xF with (Z.ones 4). change 0x0F with (Z.ones 4).
    rewrite !Z.land_ones by lia.
    assert (Hcases : ∀ n, 0 ≤ n → n < 4 ∨ 4 ≤ n < 8 ∨ 8 ≤ n) by lia.
    repeat split; apply Z.bits_inj'; intros n Hn.
    all: destruct (Hcases n Hn) as [?|[?|?]].
    all: bits.
    all: repeat first
      [ rewrite (testbit_above 8 r1) by lia
      | rewrite (testbit_above 8 r2) by lia
      | rewrite (testbit_above 8 r3) by lia
      | rewrite (testbit_above 8 r4) by lia
      | rewrite (testbit_above 8 r5) by lia
      | rewrite orb_false_r
      | rewrite orb_false_l ].
    all: try reflexivity.
    all: try (f_equal; lia). }
  intros Hwf. split; [by apply Henc|].
  intros s Hs Hh Ht i Hi.
  destruct (Henc s Hs) as (E1 & E2 & E3 & E4 & E5).
  destruct (Henc this Hwf) as (F1 & F2 & F3 & F4 & F5).
  rewrite Hh, Ht in *.
  assert (i = 1 ∨ i = 2 ∨ i = 3 ∨ i = 4 ∨ i = 5) as [->|[->|[->|[->| ->]]]] by lia;
    congruence.
Qed.

(** ** The conversions keep the order of the readings *)

(** The humidity conversion does not cross a multiple of [2^-17]. *)
Lemma humidity_float_grid (h g : Z) :
  0 ≤ h < 2 ^ 20 →
  (100 * h * 2 ^ 40 ≤ g * 2 ^ 43 → scaled (humidity_float h) ≤ g * 2 ^ 43) ∧
  (g * 2 ^ 43 ≤ 100 * h * 2 ^ 40 → g * 2 ^ 43 ≤ scaled (humidity_float h)).
Proof.
  intros Hh. destruct (decide (h = 0)) as [->|Hne].
  { change (scaled (humidity_float 0)) with 0. lia. }
  assert (Hh' : 0 < h < 2 ^ 24)
    by (change (2 ^ 20) with 1048576 in Hh; change (2 ^ 24) with 16777216; lia).
  pose proof (Zdigits2_le h 24 Hh') as Hd.
  pose proof (mantissa_bounds h Hh') as Hm.
  unfold humidity_float. rewrite ratio_exact by lia.
  change (float_of_int 100) with (S754_finite false 13107200 (-17)).
  destruct (fmul_rounds false false (Z.to_pos (mantissa h)) 13107200 (exponent h - 20) (-17))
    as (m' & e' & V & -> & He' & HV & [_ Hmono]).
  { by apply mantissa_digits. } { done. } { unfold exponent. lia. }
  assert (HT : Z.pos (Z.to_pos (mantissa h)) * 13107200 * 2 ^ (exponent h - 20 + -17 + 60)
               = 100 * h * 2 ^ 40).
  { rewrite Z2Pos.id by lia. unfold mantissa, exponent.
    assert (E : 2 ^ (24 - Zdigits2 h) * 2 ^ (Zdigits2 h - 24 - 20 + -17 + 60) = 2 ^ 23)
      by (rewrite <-Z.pow_add_r by lia; f_equal; lia).
    revert E. generalize (2 ^ (24 - Zdigits2 h)), (2 ^ (Zdigits2 h - 24 - 20 + -17 + 60)).
    intros a b E. change (2 ^ 40) with (131072 * 2 ^ 23). change 13107200 with (100 * 131072).
    rewrite <-E. ring. }
  rewrite HT in Hmono. clear HT.
  cbn [scaled xorb sgn]. rewrite HV, Z.mul_1_l.
  apply (Hmono 67 g); [lia|].
  change (2 ^ 20) with 1048576 in Hh. change (2 ^ 40) with 1099511627776.
  change (2 ^ 67) with 147573952589676412928. lia.
Qed.

(** The temperature conversion does not cross a multiple of [2^-16]. *)
Lemma temperature_float_grid (t g : Z) :
  0 ≤ t < 2 ^ 20 →
  (200 * t * 2 ^ 40 - 50 * 2 ^ 60 ≤ g * 2 ^ 44 →
     scaled (temperature_float t) ≤ g * 2 ^ 44) ∧
  (g * 2 ^ 44 ≤ 200 * t * 2 ^ 40 - 50 * 2 ^ 60 →
     g * 2 ^ 44 ≤ scaled (temperature_float t)).
Proof.
  intros Ht. destruct (decide (t = 0)) as [->|Hne].
  { change (scaled (temperature_float 0)) with (-50 * 2 ^ 60). lia. }
  assert (Ht' : 0 < t < 2 ^ 24)
    by (change (2 ^ 20) with 1048576 in Ht; change (2 ^ 24) with 16777216; lia).
  pose proof (Zdigits2_le t 24 Ht') as Hd.
  pose proof (mantissa_bounds t Ht') as Hm.
  unfold temperature_float. rewrite ratio_exact by lia.
  change (float_of_int 200) with (S754_finite false 13107200 (-16)).
  change (float_of_int 50) with (S754_finite false 13107200 (-18)).
  destruct (fmul_rounds false false (Z.to_pos (mantissa t)) 13107200 (exponent t - 20) (-16))
    as (m1 & e1 & V1 & -> & He1 & HV1 & [_ Hmono1]).
  { by apply mantissa_digits. } { done. } { unfold exponent. lia. }
  assert (HT : Z.pos (Z.to_pos (mantissa t)) * 13107200 * 2 ^ (exponent t - 20 + -16 + 60)
               = 200 * t * 2 ^ 40).
  { rewrite Z2Pos.id by lia. unfold mantissa, exponent.
    assert (E : 2 ^ (24 - Zdigits2 t) * 2 ^ (Zdigits2 t - 24 - 20 + -16 + 60) = 2 ^ 24)
      by (rewrite <-Z.pow_add_r by lia; f_equal; lia).
    revert E. generalize (2 ^ (24 - Zdigits2 t)), (2 ^ (Zdigits2 t - 24 - 20 + -16 + 60)).
    intros a b E. change (2 ^ 40) with (65536 * 2 ^ 24). change 13107200 with (200 * 65536).
    rewrite <-E. ring. }
  rewrite HT in Hmono1. clear HT. cbn [xorb].
  pose proof (Hmono1 68 0 ltac:(lia)) as H0.
  pose proof (Hmono1 68 (200 * 2 ^ 16) ltac:(lia)) as H1.
  pose proof (Hmono1 68 (g + 50 * 2 ^ 16) ltac:(lia)) as Hg.
  pose proof (fsub_rounds false false m1 13107200 e1 (-18)) as Hsub.
  cbv zeta in Hsub. cbn [scaled sgn] in Hsub. rewrite HV1 in Hsub.
  change (Z.pos 13107200 * 2 ^ (-18 + 60)) with (50 * 2 ^ 60) in Hsub.
  change (2 ^ 20) with 1048576 in Ht.
  change (2 ^ 68) with 295147905179352825856 in *.
  change (2 ^ (68 - 24)) with 17592186044416 in *. change (2 ^ 16) with 65536 in *.
  change (2 ^ 44) with 17592186044416.
  change (2 ^ 40) with 1099511627776 in *. change (2 ^ 60) with 1152921504606846976 in *.
  destruct Hsub as (_ & Hz & Hnz).
  { unfold exponent in He1. lia. } { lia. }
  { change (2 ^ 120) with 1329227995784915872903807060280344576. lia. }
  destruct (decide (1 * V1 - 1 * (50 * 1152921504606846976) = 0)) as [E0|E0].
  { rewrite (Hz E0). lia. }
  destruct (Hnz E0) as (V2 & -> & [_ Hmono2]).
  destruct (Z.lt_trichotomy (1 * V1 - 1 * (50 * 1152921504606846976)) 0) as [Hneg|[?|Hpos]];
    [|done|].
  - rewrite Z.sgn_neg by done. rewrite (Z.abs_neq (1 * V1 - _)) in Hmono2 by lia.
    pose proof (Hmono2 68 (- g) ltac:(lia)) as G.
    change (2 ^ 68) with 295147905179352825856 in *.
    change (2 ^ (68 - 24)) with 17592186044416 in *.
    lia.
  - rewrite Z.sgn_pos by done. rewrite (Z.abs_eq (1 * V1 - _)) in Hmono2 by lia.
    pose proof (Hmono2 68 g ltac:(lia)) as G.
    change (2 ^ 68) with 295147905179352825856 in *.
    change (2 ^ (68 - 24)) with 17592186044416 in *.
    lia.
Qed.

Lemma scaled_lt_float_val (x y : float) :
  in_range x → in_range y → scaled x < scaled y → (float_val x < float_val y)%Q.
Proof.
  intros Hx Hy Hlt. rewrite (float_val_scaled x Hx), (float_val_scaled y Hy).
  to_Q Hlt. revert Hlt. generalize (inject_Z (scaled x)), (inject_Z (scaled y)).
  intros a b Hlt. change (2 ^ 60) with 1152921504606846976. unfold inject_Z.
  unfold Qdiv, Qinv; cbn [Qnum Qden]. lra.
Qed.

(** X14: A larger raw humidity reading gives a larger humidity: the rounding
    of the float arithmetic merges no two readings. *)
Theorem humidity_float_increasing (h1 h2 : Z) :
  0 ≤ h1 → h1 < h2 → h2 < 2 ^ 20 →
  (float_val (humidity_float h1) < float_val (humidity_float h2))%Q ∧
  humidity_float h1 ≠ humidity_float h2.
Proof.
  intros H0 Hlt Hhi.
  assert (Hs : scaled (humidity_float h1) < scaled (humidity_float h2)).
  { set (c := (25 * h1 + 1) / 2).
    pose proof (Z.div_mod (25 * h1 + 1) 2 ltac:(lia)) as Hdm.
    pose proof (Z.mod_pos_bound (25 * h1 + 1) 2 ltac:(lia)) as Hrem.
    fold c in Hdm.
    destruct (humidity_float_grid h1 c ltac:(lia)) as [Hle _].
    destruct (humidity_float_grid h2 (c + 1) ltac:(lia)) as [_ Hge].
    change (2 ^ 40) with 1099511627776 in *. change (2 ^ 43) with 8796093022208 in *.
    lia. }
  destruct (humidity_float_scaled h1 ltac:(lia)) as (Hin1 & _).
  destruct (humidity_float_scaled h2 ltac:(lia)) as (Hin2 & _).
  split; [by apply scaled_lt_float_val|]. intros E. rewrite E in Hs. lia.
Qed.

(** X15: A larger raw temperature reading gives a larger temperature. *)
Theorem temperature_float_increasing (t1 t2 : Z) :
  0 ≤ t1 → t1 < t2 → t2 < 2 ^ 20 →
  (float_val (temperature_float t1) < float_val (temperature_float t2))%Q ∧
  temperature_float t1 ≠ temperature_float t2.
Proof.
  intros H0 Hlt Hhi.
  assert (Hs : scaled (temperature_float t1) < scaled (temperature_float t2)).
  { set (c := (200 * t1 - 50 * 2 ^ 20 + 15) / 16).
    pose proof (Z.div_mod (200 * t1 - 50 * 2 ^ 20 + 15) 16 ltac:(lia)) as Hdm.
    pose proof (Z.mod_pos_bound (200 * t1 - 50 * 2 ^ 20 + 15) 16 ltac:(lia)) as Hrem.
    fold c in Hdm.
    destruct (temperature_float_grid t1 c ltac:(lia)) as [Hle _].
    destruct (temperature_float_grid t2 (c + 1) ltac:(lia)) as [_ Hge].
    change (2 ^ 20) with 1048576 in *.
    change (2 ^ 40) with 1099511627776 in *. change (2 ^ 44) with 17592186044416 in *.
    change (2 ^ 60) with 1152921504606846976 in *.
    lia. }
  destruct (temperature_float_scaled t1 ltac:(lia)) as (Hin1 & _).
  destruct (temperature_float_scaled t2 ltac:(lia)) as (Hin2 & _).
  split; [by apply scaled_lt_float_val|]. intros E. rewrite E in Hs. lia.
Qed.

(** ** Changing the sensor type *)

Section Sensor_type.
Context {hdr : Header} {W : Type} {env : Arduino W} {R : Type}.

(** X16: [setType] touches no bus and changes nothing but the sensor type; the
    transactions that follow ask for the frame of that type, 6 bytes for an
    AHT1x and 7 for an AHT2x, and with an AHT1x none of them ends in
    [AHTXX_CRC8_ERROR]. *)
Theorem setType_selects_frame (this : AHTxx) (w w' : W) (t : AHTXX_I2C_SENSOR) :
  wf this →
  let s := setType (R:=R) t this w in
  let r := _readMeasurement (R:=R) (this_of s) w' in
  trace_of s = [] ∧
  _status (this_of s) = _status this ∧
  _rawData (this_of s) = _rawData this ∧
  _address (this_of s) = _address this ∧
  (∀ a n stop, EvRequest a n stop ∈ trace_of r → n = 1 ∨ n = frame_length t) ∧
  (t = AHT1x_SENSOR → _status (this_of r) ≠ AHTXX_CRC8_ERROR).
Proof.
  intros Hwf s r. subst s r. rewrite setType_run. cbn [this_of trace_of].
  do 4 (split; [done|]).
  pose proof (wf_with_sensorType t this Hwf) as Hwf'.
  split.
  - intros a n stop Hin.
    pose proof (readMeasurement_transaction (R:=R) (with_sensorType t this) w' Hwf') as Ht.
    revert Hin.
    destruct Ht as [rc Hrc|k Hk|b k Hk|b bytes Hlen];
      unfold trigger, status_request, frame_request, wait; try destruct (busy (uint8 b)).
    all: cbn [app _sensorType with_sensorType].
    all: rewrite ?elem_of_app, ?elem_of_cons, ?elem_of_nil, ?list_elem_of_fmap.
    all: intros Hin; repeat destruct Hin as [Hin|Hin]; try done; simplify_eq; auto.
    all: by destruct Hin as (? & ? & _).
  - intros ->.
    eapply transaction_no_crc_error; [by apply (readMeasurement_transaction (R:=R))|done].
Qed.
End Sensor_type.

(** ** Further concrete runs *)

Lemma status_read_failure_witness :
  let this := Script.fresh AHT1x_SENSOR in
  let w := Script.Bus [] [[]] [] in
  let r := Script.exec (λ _ _, _readMeasurement) this w in
  wf this ∧
  trace_of r !! 7%nat = Some (EvAvailable 0) ∧
  0 ≠ 1 ∧
  this_of r = with_status AHTXX_DATA_ERROR this.
Proof.
  intros this w r.
  assert (Hwf : wf this) by (split; [done|]; repeat constructor; done).
  assert (H7 : trace_of r !! 7%nat = Some (EvAvailable 0)) by (by vm_compute).
  assert (Hne : 0 ≠ 1) by lia.
  split; [exact Hwf|]. split; [exact H7|]. split; [exact Hne|].
  exact (proj1 (status_read_failure
                  (hdr:=Script.datasheet) (env:=Script.arduino) (R:=unit)
                  this w 0 Hwf H7 Hne)).
Defined.

Lemma frame_refreshed_witness :
  let this := Script.fresh AHT1x_SENSOR in
  let w := Script.Bus [] [[0x18]; Script.reading] [] in
  let r := Script.exec (λ _ _, _readMeasurement) this w in
  wf this ∧
  follows (trace_of r) (EvRequest 0x38 6 true) (EvAvailable 6) ∧
  ∃ bytes : list Z,
    Z.of_nat (length bytes) = 6 ∧
    ∀ i, 0 ≤ i < 6 → rawData_at (this_of r) i = uint8 (bytes !!! Z.to_nat i).
Proof.
  intros this w r.
  assert (Hwf : wf this) by (split; [done|]; repeat constructor; done).
  assert (Hf : follows (trace_of r) (EvRequest 0x38 6 true) (EvAvailable 6))
    by (exists 9%nat; by vm_compute).
  split; [exact Hwf|]. split; [exact Hf|].
  destruct (frame_refreshed (hdr:=Script.datasheet) (env:=Script.arduino) (R:=unit)
              this w Hwf Hf) as (bytes & Hlen & _ & Hbytes & _).
  exists bytes. split; [exact Hlen|exact Hbytes].
Defined.

Lemma measurement_status_range_witness :
  let this := Script.fresh AHT1x_SENSOR in
  let w := Script.Bus [3] [] [] in
  let r := Script.exec (λ _ _, _readMeasurement) this w in
  wf this ∧
  _status (this_of r) ∈
    [AHTXX_NO_ERROR; AHTXX_BUSY_ERROR; AHTXX_ACK_ERROR; AHTXX_DATA_ERROR; AHTXX_CRC8_ERROR].
Proof.
  intros this w r.
  assert (Hwf : wf this) by (split; [done|]; repeat constructor; done).
  split; [exact Hwf|].
  exact (proj1 (measurement_status_range
                  (hdr:=Script.datasheet) (env:=Script.arduino) (R:=unit) this w Hwf)).
Defined.

Lemma measurement_status_causes_witness :
  let this := Script.fresh AHT2x_SENSOR in
  let w := Script.Bus [] [[0x18]; [0x98; 0x73; 0x33; 0x35; 0xE1; 0x48; 0x00]] [] in
  let r := Script.exec (λ _ _, _readMeasurement) this w in
  wf this ∧ _status (this_of r) = AHTXX_BUSY_ERROR.
Proof.
  intros this w r.
  assert (Hwf : wf this) by (split; [done|]; repeat constructor; done).
  split; [exact Hwf|].
  apply (proj2 (proj2 (measurement_status_causes
           (hdr:=Script.datasheet) (env:=Script.arduino) (R:=unit) this w Hwf))).
  split; [exists 9%nat; by vm_compute|by vm_compute].
Defined.

Lemma measurement_ignores_old_status_witness :
  let this := Script.fresh AHT1x_SENSOR in
  let w := Script.Bus [] [[0x18]; Script.reading] [] in
  wf this ∧
  Script.exec (λ _ _, _readMeasurement) (with_status AHTXX_CRC8_ERROR this) w =
  Script.exec (λ _ _, _readMeasurement) this w.
Proof.
  intros this w.
  assert (Hwf : wf this) by (split; [done|]; repeat constructor; done).
  split; [exact Hwf|].
  exact (measurement_ignores_old_status
           (hdr:=Script.datasheet) (env:=Script.arduino) (R:=unit)
           this w AHTXX_CRC8_ERROR Hwf).
Defined.

Lemma measurement_traffic_witness :
  let this := Script.fresh AHT2x_SENSOR in
  let w := Script.Bus [] [[0x98]; Script.reading] [] in
  let r := Script.exec (λ _ _, _readMeasurement) this w in
  wf this ∧ (length (trace_of r) ≤ 19)%nat.
Proof.
  intros this w r.
  assert (Hwf : wf this) by (split; [done|]; repeat constructor; done).
  split; [exact Hwf|].
  exact (proj2 (proj2 (proj2 (measurement_traffic
           (hdr:=Script.datasheet) (env:=Script.arduino) (R:=unit) this w Hwf)))).
Defined.

Lemma error_value_iff_status_witness :
  let this := Script.fresh AHT1x_SENSOR in
  let w := Script.Bus [2] [] [] in
  let h := Script.exec (λ _ _, readHumidity AHTXX_FORCE_READ_DATA) this w in
  wf this ∧
  _status (this_of h) ≠ AHTXX_NO_ERROR ∧
  flow_of h = Next (float_of_int AHTXX_ERROR).
Proof.
  intros this w h.
  assert (Hwf : wf this) by (split; [done|]; repeat constructor; done).
  assert (Hst : _status (this_of h) ≠ AHTXX_NO_ERROR) by (by vm_compute).
  split; [exact Hwf|]. split; [exact Hst|].
  exact (proj2 (proj1 (error_value_iff_status
                  (hdr:=Script.datasheet) (env:=Script.arduino) (R:=float)
                  this w AHTXX_FORCE_READ_DATA Hwf)) Hst).
Defined.

Lemma forced_then_buffered_witness :
  let this := Script.fresh AHT1x_SENSOR in
  let w := Script.Bus [] [[0x18]; Script.reading] [] in
  let h := Script.exec (λ _ _, readHumidity AHTXX_FORCE_READ_DATA) this w in
  let t := Script.exec (λ _ _, readTemperature AHTXX_USE_READ_DATA)
             (this_of h) (bus_of h) in
  _status (this_of (Script.exec (λ _ _, _readMeasurement) this w)) = AHTXX_NO_ERROR ∧
  trace_of t = [] ∧
  flow_of t = Next (temperature_float 0x5E148).
Proof.
  intros this w h t.
  assert (Hst : _status (this_of (Script.exec (λ _ _, _readMeasurement) this w)) =
                AHTXX_NO_ERROR) by (by vm_compute).
  split; [exact Hst|].
  destruct (forced_then_buffered
              (hdr:=Script.datasheet) (env:=Script.arduino) (R:=float) this w)
    as (_ & Ht & _ & _ & Hok & _).
  split; [exact Ht|]. exact (proj2 (Hok Hst)).
Defined.

Lemma calibration_result_witness :
  let this := Script.fresh AHT1x_SENSOR in
  let w := Script.Bus [] [[0xFF]] [] in
  let r := Script.exec (λ _ _, _getCalibration) this w in
  trace_of r !! 6%nat = Some (EvRead 0xFF) ∧
  uint8 0xFF = AHTXX_ERROR ∧
  flow_of r = Next AHTXX_ERROR.
Proof.
  intros this w r.
  assert (H6 : trace_of r !! 6%nat = Some (EvRead 0xFF)) by (by vm_compute).
  assert (Hb : uint8 0xFF = AHTXX_ERROR) by reflexivity.
  split; [exact H6|]. split; [exact Hb|].
  apply (proj2 (proj2 (proj2 (calibration_result
           (hdr:=Script.datasheet) (env:=Script.arduino) (R:=Z) this w)))).
  right. right. exists 0xFF. split; [exact H6|exact Hb].
Defined.

Lemma softReset_result_witness :
  let this := Script.fresh AHT2x_SENSOR in
  let w := Script.Bus [0; 3] [] [] in
  let r := Script.exec (λ _ _, softReset) this w in
  3 ≠ 0 ∧
  trace_of r !! 9%nat = Some (EvEnd true 3) ∧
  flow_of r = Next false ∧ length (trace_of r) = 10%nat.
Proof.
  intros this w r.
  assert (Hne : 3 ≠ 0) by lia.
  assert (H9 : trace_of r !! 9%nat = Some (EvEnd true 3)) by (by vm_compute).
  split; [exact Hne|]. split; [exact H9|].
  exact (proj1 (proj2 (proj2 (softReset_result
           (hdr:=Script.datasheet) (env:=Script.arduino) (R:=bool) this w))) 3 Hne H9).
Defined.

Lemma checkCRC8_detects_byte_error_witness :
  let this := AHTxx_new 0x38 AHT2x_SENSOR Script.reading in
  wf this ∧
  _sensorType this = AHT2x_SENSOR ∧
  0 ≤ 4 < 7 ∧
  uint8 0xE0 ≠ rawData_at this 4 ∧
  _checkCRC8 this = true ∧
  _checkCRC8 (with_rawData 4 0xE0 this) = false.
Proof.
  intros this.
  assert (Hwf : wf this) by (split; [done|]; repeat constructor; done).
  assert (Hty : _sensorType this = AHT2x_SENSOR) by reflexivity.
  assert (Hi : 0 ≤ 4 < 7) by lia.
  assert (Hv : uint8 0xE0 ≠ rawData_at this 4) by (by vm_compute).
  assert (Hok : _checkCRC8 this = true) by (by vm_compute).
  split; [exact Hwf|]. split; [exact Hty|]. split; [exact Hi|].
  split; [exact Hv|]. split; [exact Hok|].
  exact (checkCRC8_detects_byte_error this 4 0xE0 Hwf Hty Hi Hv Hok).
Defined.

Lemma bits_determine_bytes_witness :
  let this := AHTxx_new 0x38 AHT1x_SENSOR Script.reading in
  wf this ∧ encodes this (humidity_bits this) (temperature_bits this).
Proof.
  intros this.
  assert (Hwf : wf this) by (split; [done|]; repeat constructor; done).
  split; [exact Hwf|].
  exact (proj1 (bits_determine_bytes this Hwf)).
Defined.

Lemma humidity_float_increasing_witness :
  0 ≤ 0x73333 ∧ 0x73333 < 0x73334 ∧ 0x73334 < 2 ^ 20 ∧
  (float_val (humidity_float 0x73333) < float_val (humidity_float 0x73334))%Q.
Proof.
  assert (H0 : 0 ≤ 0x73333) by lia.
  assert (H1 : 0x73333 < 0x73334) by lia.
  assert (H2 : 0x73334 < 2 ^ 20) by (by vm_compute).
  split; [exact H0|]. split; [exact H1|]. split; [exact H2|].
  exact (proj1 (humidity_float_increasing 0x73333 0x73334 H0 H1 H2)).
Defined.

Lemma temperature_float_increasing_witness :
  0 ≤ 0x5E148 ∧ 0x5E148 < 0x5E149 ∧ 0x5E149 < 2 ^ 20 ∧
  (float_val (temperature_float 0x5E148) < float_val (temperature_float 0x5E149))%Q.
Proof.
  assert (H0 : 0 ≤ 0x5E148) by lia.
  assert (H1 : 0x5E148 < 0x5E149) by lia.
  assert (H2 : 0x5E149 < 2 ^ 20) by (by vm_compute).
  split; [exact H0|]. split; [exact H1|]. split; [exact H2|].
  exact (proj1 (temperature_float_increasing 0x5E148 0x5E149 H0 H1 H2)).
Defined.

Lemma setType_selects_frame_witness :
  let this := Script.fresh AHT2x_SENSOR in
  let w := Script.Bus [] [] [] in
  let s := Script.exec (λ _ _, setType AHT1x_SENSOR) this w in
  let r := Script.exec (λ _ _, _readMeasurement) (this_of s)
             (Script.Bus [] [[0x18]; Script.reading] []) in
  wf this ∧ _status (this_of r) ≠ AHTXX_CRC8_ERROR.
Proof.
  intros this w s r.
  assert (Hwf : wf this) by (split; [done|]; repeat constructor; done).
  split; [exact Hwf|].
  exact (proj2 (proj2 (proj2 (proj2 (proj2 (setType_selects_frame
           (hdr:=Script.datasheet) (env:=Script.arduino) (R:=unit)
           this w (Script.Bus [] [[0x18]; Script.reading] []) AHT1x_SENSOR Hwf)))))
         eq_refl).
Defined.
